(** * Liberty content server: the audit / redesign pipeline

    A shallow embedding of the heuristic scoring-and-rewrite core of the
    server (ContentAuditor, ContentRedesigner, ContentGenerator and
    BrandVoiceEngine), of the in-memory part of KnowledgeManager and of two
    tool handlers, together with the properties stated about them.

    Conventions of the embedding.
    - A JavaScript string is a [string]: a sequence of 8-bit code units, read
      as the code units U+0000..U+00FF.  Every marker phrase of the program is
      ASCII.  The one literal outside this range, the bullet U+2022, cannot
      occur in such a text, which is written out where the program tests it.
    - Integer-valued numbers (counts, lengths, scores) are [Z].  Where the
      program divides or multiplies by a fraction, the value is a binary64
      [float], computed with the same IEEE operations as the program.
    - A call that throws is [None]. *)

From Stdlib Require Import ZArith List Bool Lia String Ascii.
From Stdlib Require Import Floats Uint63 FMapPositive.
From Stdlib Require Import DecimalString.
Import ListNotations.
Local Open Scope string_scope.
Local Open Scope Z_scope.

(* ================================================================== *)
(** ** The JavaScript primitives the program uses *)
(* ================================================================== *)

Module JS.

(** *** Characters *)

(** [\s] of a regular expression, and what [trim] strips, among the code
    units below U+0100: TAB, LF, VT, FF, CR, SPACE and NBSP. *)
Definition isWhiteSpace (c : ascii) : bool :=
  match N_of_ascii c with
  | 9 | 10 | 11 | 12 | 13 | 32 | 160 => true
  | _ => false
  end%N.

(** [\d] *)
Definition isDigit (c : ascii) : bool :=
  let n := N_of_ascii c in ((48 <=? n) && (n <=? 57))%N.

(** [[A-Z]] *)
Definition isUpperAZ (c : ascii) : bool :=
  let n := N_of_ascii c in ((65 <=? n) && (n <=? 90))%N.

(** The lower-case mapping of one code unit: A-Z, and the Latin-1 capitals
    U+00C0..U+00DE except the multiplication sign U+00D7. *)
Definition lowerUnit (c : ascii) : ascii :=
  let n := N_of_ascii c in
  if (((65 <=? n) && (n <=? 90)) ||
      ((192 <=? n) && (n <=? 222) && negb (n =? 215)))%N
  then ascii_of_N (n + 32) else c.

Definition newline : ascii := "010"%char.
Definition dquote : string := String "034"%char EmptyString.

(** *** Strings *)

Definition length (s : string) : Z := Z.of_nat (String.length s).

(** [s.toLowerCase()] on the code units U+0000..U+00FF, each of which
    lower-cases to one unit of that range.  Beyond them a lower-cased text
    can be longer than the text (U+0130 gives two units): no statement
    below relates the length of a text to that of its lower-cased form. *)
Fixpoint toLowerCase (s : string) : string :=
  match s with
  | EmptyString => EmptyString
  | String c s' => String (lowerUnit c) (toLowerCase s')
  end.

(** [s.startsWith(p)]; with [ci], the comparison of an [i]-flagged regular
    expression whose pattern is the ASCII literal [p]. *)
Fixpoint startsWithG (ci : bool) (s p : string) {struct p} : bool :=
  match p, s with
  | EmptyString, _ => true
  | String a p', String b s' =>
      (if ci then Ascii.eqb (lowerUnit a) (lowerUnit b) else Ascii.eqb a b)
      && startsWithG ci s' p'
  | String _ _, EmptyString => false
  end.

Definition startsWith := startsWithG false.

(** [s.includes(t)] *)
Fixpoint includes (s t : string) : bool :=
  startsWith s t ||
  match s with
  | EmptyString => false
  | String _ s' => includes s' t
  end.

(** [s.split(sep)] for a one-character separator. *)
Fixpoint splitChar (sep : ascii) (s : string) : list string :=
  match s with
  | EmptyString => [EmptyString]
  | String c s' =>
      if Ascii.eqb c sep then EmptyString :: splitChar sep s'
      else match splitChar sep s' with
           | p :: ps => String c p :: ps
           | [] => [String c EmptyString]
           end
  end.

(** [s.split(sep)] for a separator string of one character or more: the
    occurrences are taken leftmost first and do not overlap.  [skip] counts
    the characters of a matched separator still to be dropped. *)
Fixpoint splitFrom (sep : string) (skip : nat) (s : string) : list string :=
  match s with
  | EmptyString => [EmptyString]
  | String c s' =>
      match skip with
      | S k => splitFrom sep k s'
      | O =>
          if startsWith s sep
          then EmptyString :: splitFrom sep (Nat.pred (String.length sep)) s'
          else match splitFrom sep O s' with
               | p :: ps => String c p :: ps
               | [] => [String c EmptyString]
               end
      end
  end.

Definition split (sep : string) (s : string) : list string := splitFrom sep O s.

(** [s.split(/\s+/)] *)
Fixpoint splitWsFrom (inRun : bool) (s : string) : list string :=
  match s with
  | EmptyString => [EmptyString]
  | String c s' =>
      if isWhiteSpace c
      then (if inRun then splitWsFrom true s'
            else EmptyString :: splitWsFrom true s')
      else match splitWsFrom false s' with
           | p :: ps => String c p :: ps
           | [] => [String c EmptyString]
           end
  end.

Definition splitWs (s : string) : list string := splitWsFrom false s.

(** [l.join(sep)] *)
Definition join (sep : string) (l : list string) : string := String.concat sep l.

Fixpoint trimStart (s : string) : string :=
  match s with
  | EmptyString => EmptyString
  | String c s' => if isWhiteSpace c then trimStart s' else s
  end.

Fixpoint trimEnd (s : string) : string :=
  match s with
  | EmptyString => EmptyString
  | String c s' =>
      match trimEnd s' with
      | EmptyString => if isWhiteSpace c then EmptyString else String c EmptyString
      | r => String c r
      end
  end.

Definition trim (s : string) : string := trimEnd (trimStart s).

(** [l.push(x)], [l.slice(0, n)] and [l.splice(i, 0, x)] *)
Definition push {A} (l : list A) (x : A) : list A := (l ++ [x])%list.
Definition slice0 {A} (n : nat) (l : list A) : list A := firstn n l.
Definition spliceIn {A} (i : nat) (x : A) (l : list A) : list A :=
  (firstn i l ++ x :: skipn i l)%list.

(** *** Regular expressions of the program *)

(** The first alternative, in order, that matches at the start of [s]; the
    result is the length of the match.  Alternatives are literals. *)
Fixpoint firstAlt (ci : bool) (alts : list string) (s : string) : option nat :=
  match alts with
  | [] => None
  | p :: alts' =>
      if startsWithG ci s p then Some (String.length p) else firstAlt ci alts' s
  end.

(** [s.replace(/p1|p2|.../g, rep)] (flags [gi] with [ci]): every leftmost
    non-overlapping match is replaced.  The alternatives are non-empty
    literals and [rep] has no [$]. *)
Fixpoint replaceFrom (ci : bool) (alts : list string) (rep : string)
         (skip : nat) (s : string) : string :=
  match s with
  | EmptyString => EmptyString
  | String c s' =>
      match skip with
      | S k => replaceFrom ci alts rep k s'
      | O =>
          match firstAlt ci alts s with
          | Some (S n) => rep ++ replaceFrom ci alts rep n s'
          | _ => String c (replaceFrom ci alts rep O s')
          end
      end
  end.

Definition replaceAll (ci : bool) (alts : list string) (rep s : string) : string :=
  replaceFrom ci alts rep O s.

(** [s.replace(new RegExp(term, 'gi'), rep)] for a literal [term]. *)
Definition replaceTermGI (term rep s : string) : string :=
  replaceAll true [term] rep s.

(** [s.replace(/\s+/g, ' ')] *)
Fixpoint collapseFrom (inRun : bool) (s : string) : string :=
  match s with
  | EmptyString => EmptyString
  | String c s' =>
      if isWhiteSpace c
      then (if inRun then collapseFrom true s'
            else String " "%char (collapseFrom true s'))
      else String c (collapseFrom false s')
  end.

Definition collapseWhitespace (s : string) : string := collapseFrom false s.

(** The white-space run at the start of [s]: how many newlines it holds, and
    the length of its prefix that ends with its last newline. *)
Fixpoint wsRun (s : string) : nat * nat :=
  match s with
  | EmptyString => (O, O)
  | String c s' =>
      if isWhiteSpace c then
        let '(n, upto) := wsRun s' in
        if Ascii.eqb c newline then (S n, S upto)
        else (n, match n with O => O | S _ => S upto end)
      else (O, O)
  end.

(** [s.replace(/\n\s*\n\s*\n/g, '\n\n')]: a match starts at a newline whose
    white-space run holds two newlines more, and, the quantifiers being
    greedy, ends with the last newline of that run. *)
Fixpoint squeezeFrom (skip : nat) (s : string) : string :=
  match s with
  | EmptyString => EmptyString
  | String c s' =>
      match skip with
      | S k => squeezeFrom k s'
      | O =>
          if Ascii.eqb c newline then
            let '(n, upto) := wsRun s' in
            if (2 <=? n)%nat
            then String newline (String newline (squeezeFrom upto s'))
            else String c (squeezeFrom O s')
          else String c (squeezeFrom O s')
      end
  end.

Definition squeezeBlankLines (s : string) : string := squeezeFrom O s.

(** [s.match(/\d{4}/g)] is not null *)
Fixpoint fourDigitsFrom (seen : nat) (s : string) : bool :=
  match s with
  | EmptyString => false
  | String c s' =>
      if isDigit c
      then (if (3 <=? seen)%nat then true else fourDigitsFrom (S seen) s')
      else fourDigitsFrom O s'
  end.

Definition hasFourDigits (s : string) : bool := fourDigitsFrom O s.

(** Some character satisfying [p] is immediately followed by one satisfying [q]. *)
Fixpoint adjacent (p q : ascii -> bool) (s : string) : bool :=
  match s with
  | EmptyString => false
  | String c s' =>
      match s' with
      | EmptyString => false
      | String d _ => (p c && q d) || adjacent p q s'
      end
  end.

(** [s.match(/\d+%/g)] is not null *)
Definition hasPercentage (s : string) : bool :=
  adjacent isDigit (Ascii.eqb "%"%char) s.

(** Some digit is followed by a dot and a digit: [/\d+\.\d+/]. *)
Fixpoint hasDecimal (s : string) : bool :=
  match s with
  | String c (String d (String e _ as s2) as s1) =>
      (isDigit c && Ascii.eqb d "."%char && isDigit e) || hasDecimal s1
  | _ => false
  end.

(** The number of matches of [/\s/g]. *)
Fixpoint countWhiteSpace (s : string) : Z :=
  match s with
  | EmptyString => 0
  | String c s' => (if isWhiteSpace c then 1 else 0) + countWhiteSpace s'
  end.

(** [x || d] on an optional string: absent and empty are both falsy. *)
Definition orElse (x : option string) (d : string) : string :=
  match x with
  | Some EmptyString | None => d
  | Some s => s
  end.

(** *** Own and inherited properties of an object literal

    [obj[key]] on an object literal finds the literal's own properties and,
    failing that, the members every object inherits from [Object.prototype]
    (functions, and for [__proto__] the prototype itself: all truthy, none a
    string or a record of the program). *)
Definition objectPrototypeKeys : list string :=
  [ "constructor"; "__defineGetter__"; "__defineSetter__"; "hasOwnProperty";
    "__lookupGetter__"; "__lookupSetter__"; "isPrototypeOf";
    "propertyIsEnumerable"; "toString"; "valueOf"; "__proto__";
    "toLocaleString" ].

Inductive Lookup (A : Type) : Type :=
| Own (v : A)
| Inherited (key : string)
| Undefined.
Arguments Own {A} v.
Arguments Inherited {A} key.
Arguments Undefined {A}.

Fixpoint assoc {A} (own : list (string * A)) (key : string) : option A :=
  match own with
  | [] => None
  | (k, v) :: rest => if String.eqb k key then Some v else assoc rest key
  end.

Definition isInherited (key : string) : bool :=
  existsb (String.eqb key) objectPrototypeKeys.

Definition getProperty {A} (own : list (string * A)) (key : string) : Lookup A :=
  match assoc own key with
  | Some v => Own v
  | None => if isInherited key then Inherited key else Undefined
  end.

(** *** Numbers *)

(** An integer in the range of exact doubles, as a double. *)
Definition toNumber (z : Z) : float := PrimFloat.of_uint63 (Uint63.of_Z z).

(** [Math.round] of a finite double, exactly: the floor of [x + 1/2]. *)
Definition Math_round (x : float) : Z :=
  match Prim2SF x with
  | S754_finite s m e =>
      let n := if s then Z.neg m else Z.pos m in
      match e with
      | Zneg p => (2 * n + Z.pow_pos 2 p) / (2 * Z.pow_pos 2 p)
      | _ => n * 2 ^ e
      end
  | _ => 0
  end.

Definition div (x y : float) : float := PrimFloat.div x y.
Definition lt (x y : float) : bool := PrimFloat.ltb x y.
Definition gt (x y : float) : bool := PrimFloat.ltb y x.
Definition le (x y : float) : bool := PrimFloat.leb x y.
Definition ge (x y : float) : bool := PrimFloat.leb y x.

(** *** Further string and array operations *)

(** [s.slice(0, n)] on a string *)
Fixpoint sliceTo (n : nat) (s : string) : string :=
  match n, s with
  | S k, String c s' => String c (sliceTo k s')
  | _, _ => EmptyString
  end.

Fixpoint dropChars (n : nat) (s : string) : string :=
  match n, s with
  | S k, String _ s' => dropChars k s'
  | _, _ => s
  end.

(** [s.replace(pat, rep)] for a string pattern: the first occurrence only;
    [rep] has no [$]. *)
Fixpoint replaceFirst (pat rep s : string) : string :=
  if startsWith s pat then rep ++ dropChars (String.length pat) s
  else match s with
       | EmptyString => EmptyString
       | String c s' => String c (replaceFirst pat rep s')
       end.

(** [[...new Set(l)]]: the first occurrence of each string, in order. *)
Fixpoint uniqueFrom (seen l : list string) : list string :=
  match l with
  | [] => []
  | x :: l' =>
      if existsb (String.eqb x) seen then uniqueFrom seen l'
      else x :: uniqueFrom (x :: seen) l'
  end.

Definition unique (l : list string) : list string := uniqueFrom [] l.

End JS.

(* ================================================================== *)
(** ** ContentAuditor (src/tools/content-generator.ts, second half) *)
(* ================================================================== *)

Module ContentAuditor.
Import JS.

Inductive ComplianceStatus := PASSED | NEEDS_IMPROVEMENT | FAILED.
Inductive RedesignPriority := LOW | MEDIUM | HIGH | CRITICAL.

Record BrandVoice := {
  bv_score : Z;
  knowledgeable_authoritative : Z;
  trustworthy_transparent : Z;
  professional_established : Z;
  protective_strategic : Z;
  bv_issues : list string }.

Record AudienceAlignment := {
  aa_score : Z;
  age_appropriate : Z;
  tone_match : Z;
  complexity_level : Z;
  aa_issues : list string }.

Record ContentStructure := {
  cs_score : Z;
  information_hierarchy : Z;
  readability : Z;
  educational_flow : Z;
  cs_issues : list string }.

Record ComplianceRequirements := {
  cr_score : Z;
  disclaimers_present : bool;
  risk_disclosures : bool;
  educational_framing : bool;
  cr_issues : list string }.

Record SalesTactics := {
  st_score : Z;
  pressure_tactics : list string;
  urgency_language : list string;
  aggressive_terms : list string;
  trust_vs_push_ratio : float }.

(** The five analyses, under the names by which [calculateOverallScore] and
    [generateRecommendations] read them; [detailed_analysis] of the result
    holds the same five (there as brand_voice, audience_alignment,
    content_structure, compliance_requirements and sales_tactics). *)
Record Analyses := {
  brandVoiceAnalysis : BrandVoice;
  audienceAnalysis : AudienceAlignment;
  structureAnalysis : ContentStructure;
  complianceAnalysis : ComplianceRequirements;
  salesTacticsAnalysis : SalesTactics }.

Record Recommendations := {
  immediate_fixes : list string;
  structural_changes : list string;
  voice_adjustments : list string;
  compliance_additions : list string }.

Record ContentAudit := {
  overall_score : Z;
  compliance_status : ComplianceStatus;
  detailed_analysis : Analyses;
  recommendations : Recommendations;
  redesign_priority : RedesignPriority }.

(** [terms.filter(term => text.includes(term))] and its [.length] *)
Definition matched (terms : list string) (text : string) : list string :=
  filter (fun term => includes text term) terms.

Definition count (terms : list string) (text : string) : Z :=
  Z.of_nat (List.length (matched terms text)).

(** [Math.min(100, Math.max(0, score))] *)
Definition clamp (score : Z) : Z := Z.min 100 (Z.max 0 score).

(** [issues.push(msg)] under a condition *)
Definition pushIf (c : bool) (msg : string) (issues : list string) : list string :=
  if c then push issues msg else issues.

(** [content.split('.').filter(s => s.trim().length > 0)] *)
Definition sentencesOf (content : string) : list string :=
  filter (fun s => 0 <? length (trim s)) (splitChar "."%char content).

(** [content.split('\n\n').filter(p => p.trim().length > 0)] *)
Definition paragraphBreak : string := String newline (String newline EmptyString).

Definition paragraphsOf (content : string) : list string :=
  filter (fun p => 0 <? length (trim p)) (split paragraphBreak content).

(** [l.reduce((sum, s) => sum + s.length, 0) / l.length] *)
Definition averageLength (l : list string) : float :=
  div (toNumber (fold_left (fun sum s => sum + length s) l 0))
      (toNumber (Z.of_nat (List.length l))).

(** *** Brand voice *)

Definition authoritativeTerms : list string :=
  [ "data shows"; "research indicates"; "historical"; "evidence"; "studies show";
    "according to"; "analysis reveals"; "experts"; "decades of"; "proven";
    "statistics"; "federal reserve"; "treasury"; "economic data"; "market data" ].

Definition unsubstantiatedClaims : list string :=
  [ "everyone knows"; "obviously"; "clearly"; "without a doubt";
    "definitely will"; "guaranteed to"; "always works" ].

Definition rawAuthoritativeness (content : string) : Z :=
  let contentLower := toLowerCase content in
  let score := 50 in
  let authCount := count authoritativeTerms contentLower in
  let score := score + authCount * 8 in
  let score := if includes contentLower "source:" || includes contentLower "according to"
               then score + 10 else score in
  let score := if hasFourDigits content then score + 5 else score in
  let score := if hasPercentage content then score + 10 else score in
  let unsubstantiatedCount := count unsubstantiatedClaims contentLower in
  score - unsubstantiatedCount * 15.

Definition scoreAuthoritativeness (content : string) : Z :=
  clamp (rawAuthoritativeness content).

Definition transparentTerms : list string :=
  [ "risk"; "consider"; "factors"; "important to understand";
    "no guarantee"; "past performance"; "potential downsides";
    "consult"; "evaluate"; "assess your situation" ].

Definition trustBuildingTerms : list string :=
  [ "our process"; "we believe"; "our approach"; "transparency";
    "honest"; "straightforward"; "clear about" ].

Definition secretiveTerms : list string :=
  [ "secret"; "exclusive insider"; "hidden opportunity";
    "banks don't want you to know"; "wall street hates this" ].

Definition rawTrustworthiness (content : string) : Z :=
  let contentLower := toLowerCase content in
  let score := 50 in
  let transparentCount := count transparentTerms contentLower in
  let score := score + transparentCount * 12 in
  let score := if includes contentLower "not investment advice" then score + 15 else score in
  let score := if includes contentLower "consult" && includes contentLower "professional"
               then score + 10 else score in
  let trustCount := count trustBuildingTerms contentLower in
  let score := score + trustCount * 8 in
  let secretiveCount := count secretiveTerms contentLower in
  score - secretiveCount * 20.

Definition scoreTrustworthiness (content : string) : Z :=
  clamp (rawTrustworthiness content).

Definition professionalTerms : list string :=
  [ "portfolio"; "allocation"; "diversification"; "investment strategy";
    "wealth preservation"; "financial planning"; "asset class";
    "market conditions"; "economic factors" ].

Definition casualTerms : list string :=
  [ "awesome"; "amazing"; "incredible"; "unbelievable"; "crazy";
    "insane"; "wild"; "epic"; "mind-blowing"; "game-changer" ].

Definition rawProfessionalism (content : string) : Z :=
  let contentLower := toLowerCase content in
  let score := 70 in
  let profCount := count professionalTerms contentLower in
  let score := score + profCount * 5 in
  let casualCount := count casualTerms contentLower in
  let score := score - casualCount * 15 in
  let sentences := sentencesOf content in
  let avgSentenceLength := averageLength sentences in
  let score := if gt avgSentenceLength 30%float && lt avgSentenceLength 80%float
               then score + 10 else score in
  if gt avgSentenceLength 100%float then score - 10 else score.

Definition scoreProfessionalism (content : string) : Z :=
  clamp (rawProfessionalism content).

Definition protectiveTerms : list string :=
  [ "protect"; "preserve"; "safeguard"; "hedge against";
    "shield from"; "defense against"; "security"; "stability";
    "wealth preservation"; "protection from inflation" ].

Definition protectiveEducationalTerms : list string :=
  [ "understand"; "learn"; "consider"; "evaluate"; "analyze";
    "factors"; "important to know"; "key points"; "things to consider" ].

Definition salesTerms : list string :=
  [ "buy now"; "purchase"; "order"; "call today"; "don't wait";
    "limited time"; "act fast"; "special offer"; "discount" ].

Definition rawProtectiveness (content : string) : Z :=
  let contentLower := toLowerCase content in
  let score := 50 in
  let protectiveCount := count protectiveTerms contentLower in
  let score := score + protectiveCount * 10 in
  let eduCount := count protectiveEducationalTerms contentLower in
  let salesCount := count salesTerms contentLower in
  let score := if salesCount * 2 <? eduCount then score + 15 else score in
  if eduCount <? salesCount then score - 20 else score.

Definition scoreProtectiveness (content : string) : Z :=
  clamp (rawProtectiveness content).

(** [Math.round((a + t + p + q) / 4)] and [Math.round((a + t + c) / 3)] *)
Definition mean4 (a t p q : Z) : Z := Math_round (div (toNumber (a + t + p + q)) 4%float).
Definition mean3 (a t c : Z) : Z := Math_round (div (toNumber (a + t + c)) 3%float).

Definition analyzeBrandVoice (content : string) : BrandVoice :=
  let authoritative := scoreAuthoritativeness content in
  let trustworthy := scoreTrustworthiness content in
  let professional := scoreProfessionalism content in
  let protective := scoreProtectiveness content in
  let issues := [] in
  let issues := pushIf (authoritative <? 70) "Lacks authoritative evidence and data" issues in
  let issues := pushIf (trustworthy <? 70) "Needs more transparency about risks and processes" issues in
  let issues := pushIf (professional <? 70) "Language too casual or trendy for target demographic" issues in
  let issues := pushIf (protective <? 70) "Too sales-focused, not protective enough" issues in
  let score := mean4 authoritative trustworthy professional protective in
  {| bv_score := score;
     knowledgeable_authoritative := authoritative;
     trustworthy_transparent := trustworthy;
     professional_established := professional;
     protective_strategic := protective;
     bv_issues := issues |}.

(** *** Audience alignment *)

Definition youngTerms : list string :=
  [ "yo"; "bro"; "dude"; "lit"; "fire"; "sick"; "bet"; "cap";
    "no cap"; "fr"; "periodt"; "slaps"; "hits different" ].

Definition appropriateRefs : list string :=
  [ "retirement"; "estate planning"; "legacy"; "grandchildren";
    "fixed income"; "social security"; "pension"; "401k"; "ira" ].

Definition rawAgeAppropriateness (content : string) : Z :=
  let contentLower := toLowerCase content in
  let score := 70 in
  let youngCount := count youngTerms contentLower in
  let score := score - youngCount * 25 in
  let refCount := count appropriateRefs contentLower in
  score + refCount * 8.

Definition scoreAgeAppropriateness (content : string) : Z :=
  clamp (rawAgeAppropriateness content).

Definition conservativeTerms : list string :=
  [ "stability"; "security"; "preservation"; "steady"; "reliable";
    "time-tested"; "established"; "proven track record"; "conservative approach" ].

Definition riskAverseTerms : list string :=
  [ "careful consideration"; "prudent"; "cautious"; "measured approach";
    "due diligence"; "thoroughly evaluate" ].

Definition rawToneMatch (content : string) : Z :=
  let contentLower := toLowerCase content in
  let score := 60 in
  let consCount := count conservativeTerms contentLower in
  let score := score + consCount * 10 in
  let riskCount := count riskAverseTerms contentLower in
  score + riskCount * 8.

Definition scoreToneMatch (content : string) : Z := clamp (rawToneMatch content).

Definition jargonTerms : list string :=
  [ "derivative"; "quantitative easing"; "basis points"; "contango";
    "backwardation"; "volatility surface"; "correlation coefficient" ].

Definition rawComplexityLevel (content : string) : Z :=
  let sentences := sentencesOf content in
  let words := filter (fun w => 0 <? length w) (splitWs content) in
  let avgWordsPerSentence :=
    div (toNumber (Z.of_nat (List.length words)))
        (toNumber (Z.of_nat (List.length sentences))) in
  let score := 50 in
  let score :=
    if ge avgWordsPerSentence 15%float && le avgWordsPerSentence 25%float then score + 20
    else if lt avgWordsPerSentence 10%float then score - 15
    else if gt avgWordsPerSentence 30%float then score - 20
    else score in
  let jargonCount := count jargonTerms (toLowerCase content) in
  if 3 <? jargonCount then score - 15 else score.

Definition scoreComplexityLevel (content : string) : Z :=
  clamp (rawComplexityLevel content).

Definition analyzeAudienceAlignment (content : string) : AudienceAlignment :=
  let issues := [] in
  let ageAppropriate := scoreAgeAppropriateness content in
  let toneMatch := scoreToneMatch content in
  let complexityLevel := scoreComplexityLevel content in
  let issues := pushIf (ageAppropriate <? 70) "Language not appropriate for 45-75 demographic" issues in
  let issues := pushIf (toneMatch <? 70) "Tone doesn't match conservative investor preferences" issues in
  let issues := pushIf (complexityLevel <? 70) "Content complexity not optimal for audience" issues in
  let score := mean3 ageAppropriate toneMatch complexityLevel in
  {| aa_score := score;
     age_appropriate := ageAppropriate;
     tone_match := toneMatch;
     complexity_level := complexityLevel;
     aa_issues := issues |}.

(** *** Content structure *)

(** [content.includes('•')]: the bullet is U+2022, which no text of 8-bit
    code units holds. *)
Definition includesBullet (content : string) : bool := false.

Definition rawInformationHierarchy (content : string) : Z :=
  let score := 50 in
  let hasHeaders := includes content "#" || includes content "##" in
  let score := if hasHeaders then score + 15 else score in
  let hasList := includesBullet content || includes content "-" || includes content "*" in
  let score := if hasList then score + 10 else score in
  let paragraphs := paragraphsOf content in
  let score := if 3 <=? Z.of_nat (List.length paragraphs) then score + 10 else score in
  let firstParagraph := orElse (hd_error paragraphs) "" in
  if (50 <? length firstParagraph) && (length firstParagraph <? 200)
  then score + 10 else score.

Definition scoreInformationHierarchy (content : string) : Z :=
  clamp (rawInformationHierarchy content).

(** The doubles nearest to 0.15 and 0.25. *)
Definition lit_0_15 : float := 0x1.3333333333333p-3%float.
Definition lit_0_25 : float := 0x1p-2%float.

Definition rawReadability (content : string) : Z :=
  let score := 60 in
  let sentences := sentencesOf content in
  let avgLength := averageLength sentences in
  let score := if gt avgLength 50%float && lt avgLength 120%float then score + 15 else score in
  let paragraphs := paragraphsOf content in
  let avgParagraphLength := averageLength paragraphs in
  let score := if lt avgParagraphLength 500%float then score + 10 else score in
  let whitespaceRatio := div (toNumber (countWhiteSpace content)) (toNumber (length content)) in
  if gt whitespaceRatio lit_0_15 && lt whitespaceRatio lit_0_25 then score + 10 else score.

Definition scoreReadability (content : string) : Z := clamp (rawReadability content).

Definition progressionTerms : list string :=
  [ "first"; "second"; "next"; "then"; "finally"; "to begin";
    "let's start"; "to understand"; "consider this"; "for example" ].

Definition reinforcementTerms : list string :=
  [ "remember"; "key point"; "important"; "takeaway";
    "in summary"; "to recap"; "this means" ].

Definition rawEducationalFlow (content : string) : Z :=
  let contentLower := toLowerCase content in
  let score := 50 in
  let progressionCount := count progressionTerms contentLower in
  let score := score + progressionCount * 8 in
  let reinforcementCount := count reinforcementTerms contentLower in
  score + reinforcementCount * 10.

Definition scoreEducationalFlow (content : string) : Z :=
  clamp (rawEducationalFlow content).

Definition analyzeContentStructure (content : string) : ContentStructure :=
  let issues := [] in
  let hierarchyScore := scoreInformationHierarchy content in
  let readabilityScore := scoreReadability content in
  let educationalFlowScore := scoreEducationalFlow content in
  let issues := pushIf (hierarchyScore <? 70) "Poor information hierarchy - needs better structure" issues in
  let issues := pushIf (readabilityScore <? 70) "Readability issues - too dense or poorly formatted" issues in
  let issues := pushIf (educationalFlowScore <? 70) "Doesn't follow educational progression" issues in
  let score := mean3 hierarchyScore readabilityScore educationalFlowScore in
  {| cs_score := score;
     information_hierarchy := hierarchyScore;
     readability := readabilityScore;
     educational_flow := educationalFlowScore;
     cs_issues := issues |}.

(** *** Compliance *)

Definition disclaimerTerms : list string :=
  [ "not investment advice"; "not financial advice"; "consult";
    "educational purposes"; "past performance"; "no guarantee" ].

Definition checkDisclaimers (content : string) : bool :=
  let contentLower := toLowerCase content in
  existsb (fun term => includes contentLower term) disclaimerTerms.

Definition riskTerms : list string :=
  [ "risk"; "may lose"; "no guarantee"; "past performance";
    "market volatility"; "fluctuate"; "consider your situation" ].

Definition checkRiskDisclosures (content : string) : bool :=
  let contentLower := toLowerCase content in
  2 <=? count riskTerms contentLower.

Definition educationalTerms : list string :=
  [ "understand"; "learn"; "education"; "knowledge"; "inform";
    "consider"; "evaluate"; "factors"; "important to know" ].

Definition checkEducationalFraming (content : string) : bool :=
  let contentLower := toLowerCase content in
  3 <=? count educationalTerms contentLower.

Definition analyzeCompliance (content : string) : ComplianceRequirements :=
  let score := 50 in
  let issues := [] in
  let disclaimersPresent := checkDisclaimers content in
  let score := if disclaimersPresent then score + 25 else score in
  let issues := pushIf (negb disclaimersPresent) "Missing required financial disclaimers" issues in
  let riskDisclosures := checkRiskDisclosures content in
  let score := if riskDisclosures then score + 20 else score in
  let issues := pushIf (negb riskDisclosures && (500 <? length content))
                       "Needs risk disclosure statements" issues in
  let educationalFraming := checkEducationalFraming content in
  let score := if educationalFraming then score + 25 else score in
  let issues := pushIf (negb educationalFraming) "Content not properly framed as educational" issues in
  {| cr_score := Z.min 100 score;
     disclaimers_present := disclaimersPresent;
     risk_disclosures := riskDisclosures;
     educational_framing := educationalFraming;
     cr_issues := issues |}.

(** *** Sales tactics *)

Definition pressureTerms : list string :=
  [ "act now"; "don't wait"; "last chance"; "limited spots";
    "only today"; "expires soon"; "while supplies last";
    "don't miss out"; "you must"; "you should" ].

Definition findPressureTactics (content : string) : list string :=
  matched pressureTerms (toLowerCase content).

Definition urgencyTerms : list string :=
  [ "urgent"; "immediately"; "right now"; "today only";
    "hurry"; "fast"; "quick"; "instant"; "emergency" ].

Definition findUrgencyLanguage (content : string) : list string :=
  matched urgencyTerms (toLowerCase content).

Definition aggressiveTerms : list string :=
  [ "guaranteed returns"; "risk-free"; "can't lose"; "sure thing";
    "explosive growth"; "get rich"; "fortune"; "wealth beyond" ].

Definition findAggressiveTerms (content : string) : list string :=
  matched aggressiveTerms (toLowerCase content).

Definition trustTerms : list string :=
  [ "trust"; "reliable"; "honest"; "transparent"; "education";
    "understand"; "learn"; "consider"; "evaluate" ].

Definition pushTerms : list string :=
  [ "buy"; "purchase"; "order"; "call now"; "get"; "grab";
    "don't miss"; "act now"; "limited time" ].

Definition trustCountOf (content : string) : Z := count trustTerms (toLowerCase content).
Definition pushCountOf (content : string) : Z := count pushTerms (toLowerCase content).

Definition calculateTrustVsPushRatio (content : string) : float :=
  let trustCount := trustCountOf content in
  let pushCount := pushCountOf content in
  if pushCount =? 0 then toNumber trustCount
  else div (toNumber trustCount) (toNumber pushCount).

Definition Zlen {A} (l : list A) : Z := Z.of_nat (List.length l).

Definition rawSalesTactics (content : string) : Z :=
  let pressureTactics := findPressureTactics content in
  let urgencyLanguage := findUrgencyLanguage content in
  let aggressive := findAggressiveTerms content in
  let trustVsPushRatio := calculateTrustVsPushRatio content in
  let score := 80 in
  let score := score - Zlen pressureTactics * 15 in
  let score := score - Zlen urgencyLanguage * 10 in
  let score := score - Zlen aggressive * 12 in
  if lt trustVsPushRatio 1%float then score - 20 else score.

Definition analyzeSalesTactics (content : string) : SalesTactics :=
  {| st_score := Z.max 0 (rawSalesTactics content);
     pressure_tactics := findPressureTactics content;
     urgency_language := findUrgencyLanguage content;
     aggressive_terms := findAggressiveTerms content;
     trust_vs_push_ratio := calculateTrustVsPushRatio content |}.

(** *** Aggregation *)

(** The weights 0.3, 0.2, 0.15, 0.25 and 0.1 as the doubles the literals denote. *)
Definition w_brandVoice : float := 0x1.3333333333333p-2%float.
Definition w_audience : float := 0x1.999999999999ap-3%float.
Definition w_structure : float := 0x1.3333333333333p-3%float.
Definition w_compliance : float := 0x1p-2%float.
Definition w_salesTactics : float := 0x1.999999999999ap-4%float.

Definition weightedSum (bv au st co sa : Z) : float :=
  (toNumber bv * w_brandVoice
   + toNumber au * w_audience
   + toNumber st * w_structure
   + toNumber co * w_compliance
   + toNumber sa * w_salesTactics)%float.

Definition calculateOverallScore (analyses : Analyses) : Z :=
  Math_round
    (weightedSum (bv_score (brandVoiceAnalysis analyses))
                 (aa_score (audienceAnalysis analyses))
                 (cs_score (structureAnalysis analyses))
                 (cr_score (complianceAnalysis analyses))
                 (st_score (salesTacticsAnalysis analyses))).

Definition determineComplianceStatus (score : Z) : ComplianceStatus :=
  if 80 <=? score then PASSED
  else if 60 <=? score then NEEDS_IMPROVEMENT
  else FAILED.

Definition determineRedesignPriority (score : Z) (c : ComplianceRequirements)
  : RedesignPriority :=
  if score <? 40 then CRITICAL
  else if score <? 60 then HIGH
  else if (score <? 75) || negb (disclaimers_present c) then MEDIUM
  else LOW.

Definition generateRecommendations (analyses : Analyses) : Recommendations :=
  let bv := brandVoiceAnalysis analyses in
  let cr := complianceAnalysis analyses in
  let cs := structureAnalysis analyses in
  let st := salesTacticsAnalysis analyses in
  let voiceAdjustments := [] in
  let voiceAdjustments := pushIf (knowledgeable_authoritative bv <? 70)
      "Add more data, historical context, and authoritative sources" voiceAdjustments in
  let voiceAdjustments := pushIf (trustworthy_transparent bv <? 70)
      "Include more transparency about risks and processes" voiceAdjustments in
  let voiceAdjustments := pushIf (protective_strategic bv <? 70)
      "Shift from sales-focused to protective, educational tone" voiceAdjustments in
  let complianceAdditions := [] in
  let complianceAdditions := pushIf (negb (disclaimers_present cr))
      "Add required financial disclaimers" complianceAdditions in
  let complianceAdditions := pushIf (negb (risk_disclosures cr))
      "Include risk disclosure statements" complianceAdditions in
  let complianceAdditions := pushIf (negb (educational_framing cr))
      "Reframe content as educational rather than promotional" complianceAdditions in
  let structuralChanges := [] in
  let structuralChanges := pushIf (information_hierarchy cs <? 70)
      "Improve content structure with headers and logical flow" structuralChanges in
  let structuralChanges := pushIf (readability cs <? 70)
      "Break up dense text with bullet points and shorter paragraphs" structuralChanges in
  let immediateFixes := [] in
  let immediateFixes := pushIf (0 <? Zlen (pressure_tactics st))
      "Remove pressure tactics and urgency language" immediateFixes in
  let immediateFixes := pushIf (lt (trust_vs_push_ratio st) 1%float)
      "Increase educational content relative to sales messaging" immediateFixes in
  {| immediate_fixes := immediateFixes;
     structural_changes := structuralChanges;
     voice_adjustments := voiceAdjustments;
     compliance_additions := complianceAdditions |}.

Definition auditContent (content : string) (contentType : option string) : ContentAudit :=
  let analyses :=
    {| brandVoiceAnalysis := analyzeBrandVoice content;
       audienceAnalysis := analyzeAudienceAlignment content;
       structureAnalysis := analyzeContentStructure content;
       complianceAnalysis := analyzeCompliance content;
       salesTacticsAnalysis := analyzeSalesTactics content |} in
  let overallScore := calculateOverallScore analyses in
  let recommendations := generateRecommendations analyses in
  {| overall_score := overallScore;
     compliance_status := determineComplianceStatus overallScore;
     detailed_analysis := analyses;
     recommendations := recommendations;
     redesign_priority := determineRedesignPriority overallScore (complianceAnalysis analyses) |}.

End ContentAuditor.

(* ================================================================== *)
(** ** BrandVoiceEngine (framework/brand-voice) *)
(* ================================================================== *)

Module BrandVoiceEngine.
Import JS.

Record PersonaGuidance := {
  persona : string;
  messaging_focus : string;
  pain_points : list string;
  value_propositions : list string;
  tone_adjustments : string }.

Definition security_seekers : PersonaGuidance :=
  {| persona := "Security Seekers";
     messaging_focus := "Stability, wealth preservation, protection from economic uncertainty";
     pain_points :=
       [ "Fear of market volatility";
         "Concern about currency devaluation";
         "Distrust of traditional financial institutions";
         "Worry about retirement security" ];
     value_propositions :=
       [ "Hedge against inflation";
         "Store of value with historical track record";
         "Portfolio diversification away from paper assets";
         "Tangible wealth you can hold" ];
     tone_adjustments := "Emphasize stability, safety, and historical precedent. Use data and evidence to build confidence." |}.

Definition growth_hunters : PersonaGuidance :=
  {| persona := "Growth Hunters";
     messaging_focus := "Portfolio enhancement, diversification opportunities, strategic wealth building";
     pain_points :=
       [ "Over-concentration in traditional investments";
         "Limited diversification options";
         "Concern about market correlations";
         "Seeking uncorrelated assets" ];
     value_propositions :=
       [ "Portfolio diversification benefits";
         "Potential for appreciation during economic stress";
         "Uncorrelated to traditional markets";
         "Strategic allocation for balanced portfolio" ];
     tone_adjustments := "Focus on strategic benefits and portfolio optimization. Emphasize smart allocation principles." |}.

Definition legacy_builders : PersonaGuidance :=
  {| persona := "Legacy Builders";
     messaging_focus := "Generational wealth, estate planning, long-term preservation";
     pain_points :=
       [ "Wealth transfer concerns";
         "Estate tax implications";
         "Long-term value preservation";
         "Intergenerational planning challenges" ];
     value_propositions :=
       [ "Generational wealth preservation";
         "Tangible assets for inheritance";
         "Estate planning benefits";
         "Long-term store of value" ];
     tone_adjustments := "Emphasize legacy, permanence, and multi-generational thinking. Use historical examples." |}.

Definition crisis_reactors : PersonaGuidance :=
  {| persona := "Crisis Reactors";
     messaging_focus := "Economic protection, immediate security, crisis hedging";
     pain_points :=
       [ "Economic uncertainty and instability";
         "Inflation concerns";
         "Geopolitical risks";
         "Currency devaluation fears" ];
     value_propositions :=
       [ "Crisis hedge and safe haven";
         "Protection against economic turmoil";
         "Maintains value during uncertainty";
         "Independent of government and banking systems" ];
     tone_adjustments := "Address immediate concerns while maintaining educational approach. Focus on practical protection benefits." |}.

Definition guidanceMap : list (string * PersonaGuidance) :=
  [ ("security_seekers", security_seekers);
    ("growth_hunters", growth_hunters);
    ("legacy_builders", legacy_builders);
    ("crisis_reactors", crisis_reactors) ].

(** [guidanceMap[persona] || guidanceMap.security_seekers]: the result is a
    guidance record, or the member of [Object.prototype] that the key names
    (truthy, so the default is not taken). *)
Definition getPersonaGuidance (persona : string) : Lookup PersonaGuidance :=
  match getProperty guidanceMap persona with
  | Undefined => Own security_seekers
  | found => found
  end.

Record BrandCompliance := {
  score : Z;
  issues : list string;
  disclaimers_included : bool }.

Definition aggressiveTerms : list string :=
  [ "act now"; "limited time"; "urgent"; "must buy"; "don't miss out";
    "guaranteed returns"; "risk-free"; "get rich"; "explosive growth" ].

Definition educationalTerms : list string :=
  [ "understand"; "learn"; "historical"; "data shows"; "research indicates";
    "consider"; "evaluate"; "analyze"; "factors to consider" ].

Definition disclaimerKeywords : list string :=
  [ "not investment advice"; "past performance"; "consult"; "specialist" ].

Definition aggressiveIssue (term : string) : string :=
  "Contains aggressive sales language: " ++ dquote ++ term ++ dquote.

(** The score and the issues after the checks of sales language, of
    educational language and of disclaimers, in program order. *)
Definition checkedBeforeAudience (content : string) : Z * list string :=
  let '(score, issues) :=
    fold_left
      (fun '(score, issues) term =>
         if includes (toLowerCase content) term
         then (score - 15, push issues (aggressiveIssue term))
         else (score, issues))
      aggressiveTerms (100, []) in
  let educationalCount :=
    Z.of_nat (List.length (filter (fun term => includes (toLowerCase content) term)
                                  educationalTerms)) in
  let '(score, issues) :=
    if educationalCount <? 3
    then (score - 10, push issues "Insufficient educational language - needs more informative tone")
    else (score, issues) in
  let disclaimersIncluded :=
    existsb (fun keyword => includes (toLowerCase content) keyword) disclaimerKeywords in
  if negb disclaimersIncluded && (500 <? length content)
  then (score - 20, push issues "Missing required financial disclaimers")
  else (score, issues).

Definition audienceIssue : string :=
  "Language not appropriate for target demographic (45-75)".

(** The score before [Math.max(0, score)], and the issues, after the last
    check: the one of audience language. *)
Definition validateRaw (content : string) : Z * list string :=
  let '(score, issues) := checkedBeforeAudience content in
  if includes content "yo" || includes content "bro" || includes content "lit"
  then (score - 15, push issues audienceIssue)
  else (score, issues).

Definition validateBrandCompliance (content : string) : BrandCompliance :=
  let '(score, issues) := validateRaw content in
  {| score := Z.max 0 score;
     issues := issues;
     disclaimers_included :=
       existsb (fun keyword => includes (toLowerCase content) keyword) disclaimerKeywords |}.

Definition transformations : list (list string * string) :=
  [ (["urgent"; "hurry"; "act now"; "limited time"], "consider the importance of");
    (["buy now"; "purchase immediately"], "explore the benefits of");
    (["guaranteed returns"; "risk-free"], "historically demonstrated potential for");
    (["get rich"; "explosive growth"], "wealth preservation and potential appreciation");
    (["don't miss out"; "last chance"], "understanding the opportunity of") ].

Definition applyBrandVoiceTransformation (request : string) : string :=
  let transformedRequest :=
    fold_left (fun acc '(pattern, replacement) => replaceAll true pattern replacement acc)
              transformations request in
  if includes (toLowerCase transformedRequest) "sell" ||
     includes (toLowerCase transformedRequest) "convince"
  then "Create educational content about precious metals that helps readers understand "
       ++ replaceAll false ["sell"; "convince"] "the benefits of" (toLowerCase transformedRequest)
  else transformedRequest.

End BrandVoiceEngine.

(* ================================================================== *)
(** ** ContentGenerator (src/tools/content-generator.ts, first half) *)
(* ================================================================== *)

Module ContentGenerator.
Import JS.

Record ContentRequest := {
  content_type : string;
  topic : string;
  target_audience : option string;
  length_target : option string;
  include_cta : bool }.

Record RefinementPasses := {
  pass_1_framework : string;
  pass_2_engagement : string;
  pass_3_technical : string }.

(** The generated text, the compliance check of it and the three passes; the
    SEO metadata (title and keyword slicing, a time stamp) is left out. *)
Record ContentOutput := {
  content : string;
  compliance_status : BrandVoiceEngine.BrandCompliance;
  refinement_passes : RefinementPasses }.

Definition template_blog (topic : string) : string :=
"# Understanding " ++ topic ++
": A Guide for Informed Investors

The world of precious metals investing can seem complex, but understanding " ++ topic ++
" is essential for anyone considering portfolio diversification. Let's explore this topic through the lens of historical context and practical application.

## Historical Perspective

Throughout history, precious metals have served as a store of value during economic uncertainty...

## Current Market Analysis

Today's market conditions present unique considerations for investors evaluating " ++ topic ++
"...

## Educational Takeaways

For investors seeking to understand " ++ topic ++
", several key factors deserve consideration:

- Historical performance data
- Market fundamentals
- Economic factors
- Portfolio allocation principles

## Next Steps

Understanding " ++ topic ++
" is just the beginning of your educational journey in precious metals investing.".

Definition template_email (topic : string) : string :=
"Subject: Understanding " ++ topic ++
" - Educational Insights for Investors

Dear Valued Investor,

As economic conditions continue to evolve, many investors are seeking to understand " ++ topic ++
" and its role in a diversified portfolio.

Today, I'd like to share some educational insights that can help you make more informed decisions...

Key considerations include:
- Historical context and performance
- Current market dynamics
- Portfolio allocation principles

If you'd like to learn more about " ++ topic ++
", I invite you to download our free educational guide.

Best regards,
The Liberty Gold Silver Team".

Definition template_landing_page (topic : string) : string :=
"# " ++ topic ++
": Your Guide to Informed Precious Metals Investing

Are you seeking to understand " ++ topic ++
" and its potential role in your investment portfolio? You've come to the right place for unbiased, educational information.

## Why Understanding " ++ topic ++
" Matters

In today's economic climate, informed investors are exploring all options for portfolio diversification and wealth preservation...

## What You'll Learn

Our comprehensive educational approach covers:
- Historical analysis and precedent
- Current market considerations
- Portfolio integration strategies
- Risk assessment frameworks

## Get Your Free Educational Guide

Download our comprehensive guide to understanding " ++ topic ++
" and precious metals investing.".

Definition template_market_update (topic : string) : string :=
"# Market Update: " ++ topic ++
" Analysis

## Current Market Conditions

Recent market data shows interesting developments regarding " ++ topic ++
". Let's examine these trends through an educational lens.

## Key Data Points

- Current pricing trends
- Volume analysis
- Historical comparison
- Economic factors

## Educational Analysis

For investors seeking to understand these market movements, several factors warrant consideration...

## Takeaway for Investors

Understanding " ++ topic ++
" in the current market context requires careful analysis of multiple factors...".

Definition template_webpage (topic : string) : string :=
"# " ++ topic ++
": Educational Resource for Precious Metals Investors

Welcome to our comprehensive educational resource on " ++ topic ++
". Our mission is simple: provide you with the knowledge needed to make informed decisions about precious metals investing.

## Understanding the Fundamentals

" ++ topic ++
" represents an important concept in precious metals investing. To truly understand its implications, we need to examine both historical context and current market realities.

## Historical Analysis

Throughout economic history, precious metals have played a crucial role in wealth preservation...

## Current Market Perspective

Today's investment landscape presents unique considerations for those evaluating " ++ topic ++
"...

## Educational Resources

We believe in empowering investors through education. That's why we provide comprehensive resources to help you understand " ++ topic ++
" and its place in modern portfolio management.".

Definition templates (topic : string) : list (string * string) :=
  [ ("blog", template_blog topic);
    ("email", template_email topic);
    ("landing_page", template_landing_page topic);
    ("market_update", template_market_update topic);
    ("webpage", template_webpage topic) ].

(** [templates[contentType] || templates.blog] *)
Definition getBaseTemplate (contentType topic : string) : Lookup string :=
  match getProperty (templates topic) contentType with
  | Undefined => Own (template_blog topic)
  | found => found
  end.

Definition enhanceEngagement (content : string) : string :=
  let content := replaceAll false ["Throughout history,"]
                   "Think of it this way: throughout history," content in
  let content := replaceAll false ["Consider this:"]
                   "Here's something worth considering:" content in
  replaceAll false ["It's important to"] "What's particularly important is to" content.

Definition paragraphBreak : string := String newline (String newline EmptyString).

Definition applyTechnicalPolish (content : string) : string :=
  trim (replaceAll false [paragraphBreak] paragraphBreak content).

Inductive Pass := framework | engagement | technical.

(** The template chosen for the content type, then the pass applied to it.
    The framework pass hands the looked-up value on as it is; the two other
    passes call [replace] on it, which throws when the content type named an
    inherited member instead of a template. *)
Definition generateTemplateContent (topic contentType : string) (pass : Pass)
  : option (Lookup string) :=
  let baseContent := getBaseTemplate contentType topic in
  match pass, baseContent with
  | framework, _ => Some baseContent
  | engagement, Own s => Some (Own (enhanceEngagement s))
  | technical, Own s => Some (Own (applyTechnicalPolish s))
  | _, _ => None
  end.

Definition disclaimer_investment : string :=
"

**Important Disclosure**: This information is for educational purposes only and is not intended as investment advice. Past performance does not guarantee future results. Please consult with a precious metals specialist to discuss your specific situation and investment objectives.".

Definition disclaimer_general : string :=
"

**Educational Disclaimer**: The information provided is for educational purposes only. Liberty Gold Silver specializes in precious metals, not general financial advice. Please consult appropriate professionals for personalized guidance.".

Definition addRequiredDisclaimers (content : string) : string :=
  let disclaimer :=
    if includes (toLowerCase content) "invest" ||
       includes (toLowerCase content) "portfolio" ||
       includes (toLowerCase content) "return"
    then disclaimer_investment else disclaimer_general in
  content ++ disclaimer.

(** [buildFrameworkPrompt] builds a prompt that is then dropped; what is left
    of the call is whether it throws, which it does when the persona guidance
    is an inherited member: [personaGuidance.pain_points] is then undefined
    and [.join] is read from it. *)
Definition buildFrameworkPromptThrows
    (personaGuidance : option (Lookup BrandVoiceEngine.PersonaGuidance)) : bool :=
  match personaGuidance with
  | Some (Own _) | None => false
  | Some _ => true
  end.

Definition generateContent (request : ContentRequest) : option ContentOutput :=
  let transformedTopic := BrandVoiceEngine.applyBrandVoiceTransformation (topic request) in
  let autoDetect :=
    match target_audience request with
    | Some audience => String.eqb audience "auto_detect"
    | None => false
    end in
  let personaGuidance :=
    if autoDetect then None
    else Some (BrandVoiceEngine.getPersonaGuidance
                 (orElse (target_audience request) "security_seekers")) in
  if buildFrameworkPromptThrows personaGuidance then None else
  match generateTemplateContent transformedTopic (content_type request) framework with
  | Some (Own pass1Content) =>
      match generateTemplateContent pass1Content (content_type request) engagement with
      | Some (Own pass2Content) =>
          match generateTemplateContent pass2Content (content_type request) technical with
          | Some (Own polishedContent) =>
              let finalContent := addRequiredDisclaimers polishedContent in
              Some {| content := finalContent;
                      compliance_status := BrandVoiceEngine.validateBrandCompliance finalContent;
                      refinement_passes :=
                        {| pass_1_framework := pass1Content;
                           pass_2_engagement := pass2Content;
                           pass_3_technical := finalContent |} |}
          | _ => None
          end
      | _ => None
      end
  | _ => None
  end.

(** *** SEO metadata

    The schema markup, which carries the date of the call, is left out. *)

Record SeoMetadata := {
  title : string;
  meta_description : string;
  h1 : string;
  h2_suggestions : list string;
  keywords : list string }.

Definition extractMetaDescription (content : string) : string :=
  let sentences := filter (fun s => 50 <? length s) (splitChar "."%char content) in
  let description := orElse (option_map trim (hd_error sentences)) "" in
  if 155 <? length description then sliceTo 152 description ++ "..."
  else description.

Definition commonKeywords : list string :=
  [ "gold ira"; "precious metals"; "silver investing"; "wealth preservation";
    "portfolio diversification"; "economic uncertainty"; "inflation hedge" ].

(** [request.topic.toLowerCase()] throws when the request has no topic. *)
Definition extractKeywords (topic : option string) : option (list string) :=
  match topic with
  | None => None
  | Some t =>
      let topicKeywords := splitChar " "%char (toLowerCase t) in
      Some (slice0 10 (unique (commonKeywords ++ topicKeywords)%list))
  end.

Definition extractH2Suggestions (content : string) : list string :=
  let lines := splitChar newline content in
  slice0 5 (map (fun line => trim (replaceFirst "##" "" line))
                (filter (fun line => startsWith line "##") lines)).

(** The request is read for its topic only: interpolated into the default
    title (a missing topic reads [undefined] there) and lower-cased for the
    keywords. *)
Definition generateSEOMetadata (content : string) (topic : option string)
  : option SeoMetadata :=
  let lines := splitChar newline content in
  let title :=
    orElse (option_map (fun line => trim (replaceFirst "#" "" line))
                       (find (fun line => startsWith line "#") lines))
           (match topic with Some t => t | None => "undefined" end
            ++ " - Liberty Gold Silver Educational Guide") in
  let metaDescription := extractMetaDescription content in
  match extractKeywords topic with
  | None => None
  | Some keywords =>
      let h2Suggestions := extractH2Suggestions content in
      Some {| title := sliceTo 60 title;
              meta_description := metaDescription;
              h1 := title;
              h2_suggestions := h2Suggestions;
              keywords := keywords |}
  end.

End ContentGenerator.

(* ================================================================== *)
(** ** ContentRedesigner (src/tools/content-redesigner.ts) *)
(* ================================================================== *)

Module ContentRedesigner.
Import JS.

Record RedesignRequest := {
  original_content : string;
  content_type : option string;
  target_audience : option string;
  preserve_key_information : option bool;
  redesign_intensity : option string;
  specific_requirements : list string }.

Record KeyInformation := {
  facts : list string;
  statistics : list string;
  key_concepts : list string;
  company_specific : list string }.

Record ImprovementMetrics := {
  overall_score_change : Z;
  brand_voice_improvement : Z;
  compliance_improvement : Z;
  audience_alignment_improvement : Z }.

(** The revised text with the two audits and their differences; the
    transformation summary and the SEO metadata, which are derived from these
    and feed nothing back, are left out. *)
Record RedesignResult := {
  redesigned_content : string;
  original_audit : ContentAuditor.ContentAudit;
  redesigned_audit : ContentAuditor.ContentAudit;
  improvement_metrics : ImprovementMetrics;
  final_compliance_status : ContentAuditor.ComplianceStatus }.

(** *** Key information *)

(** [content.split('.').map(s => s.trim()).filter(s => s.length > 0)] *)
Definition trimmedSentences (content : string) : list string :=
  filter (fun s => 0 <? length s) (map trim (splitChar "."%char content)).

Definition factualIndicators : list string :=
  [ "according to"; "data shows"; "research indicates"; "studies show";
    "history shows"; "since 1971"; "federal reserve"; "treasury";
    "was established"; "has been"; "is regulated by" ].

Definition extractFacts (content : string) : list string :=
  let sentences := trimmedSentences content in
  let facts :=
    map trim
      (filter (fun sentence =>
                 existsb (fun indicator => includes (toLowerCase sentence) indicator)
                         factualIndicators)
              sentences) in
  slice0 10 facts.

(** [sentence.match(/\d+%|\$\d+|\d{4}|\d+\.\d+/)] is not null *)
Definition statisticPattern (sentence : string) : bool :=
  hasPercentage sentence
  || adjacent (Ascii.eqb "$"%char) isDigit sentence
  || hasFourDigits sentence
  || hasDecimal sentence.

Definition extractStatistics (content : string) : list string :=
  let sentences := trimmedSentences content in
  let statistics := map trim (filter statisticPattern sentences) in
  slice0 8 statistics.

Definition importantConcepts : list string :=
  [ "gold ira"; "precious metals"; "portfolio diversification"; "inflation hedge";
    "wealth preservation"; "economic uncertainty"; "store of value";
    "physical possession"; "tax advantages"; "retirement planning" ].

Definition extractKeyConcepts (content : string) : list string :=
  let contentLower := toLowerCase content in
  filter (fun concept => includes contentLower concept) importantConcepts.

Definition companyIndicators : list string :=
  [ "our process"; "we provide"; "our team"; "our approach";
    "we believe"; "our mission"; "liberty gold silver" ].

Definition extractCompanySpecific (content : string) : list string :=
  let sentences := trimmedSentences content in
  let companyInfo :=
    map trim
      (filter (fun sentence =>
                 existsb (fun indicator => includes (toLowerCase sentence) indicator)
                         companyIndicators)
              sentences) in
  slice0 5 companyInfo.

Definition extractKeyInformation (content : string) : KeyInformation :=
  {| facts := extractFacts content;
     statistics := extractStatistics content;
     key_concepts := extractKeyConcepts content;
     company_specific := extractCompanySpecific content |}.

(** *** Helpers of the transformations *)

Definition replacements : list (string * string) :=
  [ ("guaranteed returns", "potential for appreciation");
    ("risk-free", "traditionally stable");
    ("get rich", "build wealth");
    ("explosive growth", "potential appreciation");
    ("fortune", "financial security") ].

(** [replacements[term.toLowerCase()] || 'potential benefits']; the terms
    handed in are those of the auditor's lists, none of them a member name of
    [Object.prototype]. *)
Definition getAggressiveTermReplacement (term : string) : string :=
  match assoc replacements (toLowerCase term) with
  | Some r => r
  | None => "potential benefits"
  end.

Definition getAppropriateDisclaimer (content : string) : string :=
  if includes (toLowerCase content) "invest" || includes (toLowerCase content) "portfolio"
  then ContentGenerator.disclaimer_investment
  else ContentGenerator.disclaimer_general.

Definition extractCoreTheme (content : string) : string :=
  let contentLower := toLowerCase content in
  if includes contentLower "gold ira" then "Gold IRA benefits and considerations"
  else if includes contentLower "silver investing" then "Silver investment fundamentals"
  else if includes contentLower "inflation" then "Precious metals as inflation hedge"
  else if includes contentLower "retirement" then "Precious metals in retirement planning"
  else "Precious metals investment education".

Definition determineLength (content : string) : string :=
  let wordCount := Z.of_nat (List.length (splitWs content)) in
  if wordCount <? 300 then "short"
  else if wordCount <? 800 then "medium"
  else "long".

Definition paragraphBreak : string := ContentGenerator.paragraphBreak.

Definition insertStatistic (content stat : string) : string :=
  let sentences := splitChar "."%char content in
  if (2 <? List.length sentences)%nat
  then join "." (spliceIn 2 (" " ++ stat) sentences)
  else content ++ " " ++ stat.

Definition insertFact (content fact : string) : string :=
  let paragraphs := split paragraphBreak content in
  if (1 <? List.length paragraphs)%nat
  then join paragraphBreak (spliceIn 1 fact paragraphs)
  else content ++ paragraphBreak ++ fact.

Definition weaveInKeyInformation (content : string) (keyInfo : KeyInformation) : string :=
  let enhanced :=
    fold_left (fun enhanced stat =>
                 if negb (includes enhanced stat) then insertStatistic enhanced stat
                 else enhanced)
              (slice0 3 (statistics keyInfo)) content in
  fold_left (fun enhanced fact =>
               if negb (includes enhanced fact) then insertFact enhanced fact
               else enhanced)
            (slice0 2 (facts keyInfo)) enhanced.

(** *** The three intensities *)

(** The light pass up to its last statement: the aggressive terms replaced,
    the pressure tactics removed, the disclaimer appended when it was missing.
    The terms are those that the audit of the text found, literals of the
    auditor's lists: [new RegExp(term, 'gi')] matches them letter by letter. *)
Definition lightSubstitutions (originalContent : string)
    (audit : ContentAuditor.ContentAudit) : string :=
  let analysis := ContentAuditor.detailed_analysis audit in
  let sales := ContentAuditor.salesTacticsAnalysis analysis in
  let content := originalContent in
  let content :=
    fold_left (fun content term =>
                 replaceTermGI term (getAggressiveTermReplacement term) content)
              (ContentAuditor.aggressive_terms sales) content in
  let content :=
    fold_left (fun content tactic => replaceTermGI tactic "" content)
              (ContentAuditor.pressure_tactics sales) content in
  if negb (ContentAuditor.disclaimers_present (ContentAuditor.complianceAnalysis analysis))
  then content ++ getAppropriateDisclaimer content
  else content.

(** [content.replace(/\s+/g, ' ').replace(/\n\s*\n\s*\n/g, '\n\n').trim()] *)
Definition cleanUpWhitespace (content : string) : string :=
  trim (squeezeBlankLines (collapseWhitespace content)).

Definition performLightRedesign (originalContent : string)
    (audit : ContentAuditor.ContentAudit) (keyInfo : option KeyInformation) : string :=
  cleanUpWhitespace (lightSubstitutions originalContent audit).

Definition performCompleteRedesign (originalContent : string)
    (audit : ContentAuditor.ContentAudit) (request : RedesignRequest)
    (keyInfo : option KeyInformation) : option string :=
  let coreTheme := extractCoreTheme originalContent in
  let newContentRequest :=
    {| ContentGenerator.content_type := orElse (content_type request) "blog";
       ContentGenerator.topic := coreTheme;
       ContentGenerator.target_audience :=
         Some (orElse (target_audience request) "security_seekers");
       ContentGenerator.length_target := Some (determineLength originalContent);
       ContentGenerator.include_cta :=
         includes (toLowerCase originalContent) "call" ||
         includes (toLowerCase originalContent) "contact" |} in
  match ContentGenerator.generateContent newContentRequest with
  | None => None
  | Some generatedResult =>
      let newContent := ContentGenerator.content generatedResult in
      Some (match keyInfo with
            | Some k => weaveInKeyInformation newContent k
            | None => newContent
            end)
  end.

Definition calculateImprovements (originalAudit redesignedAudit : ContentAuditor.ContentAudit)
  : ImprovementMetrics :=
  let o := ContentAuditor.detailed_analysis originalAudit in
  let r := ContentAuditor.detailed_analysis redesignedAudit in
  {| overall_score_change :=
       ContentAuditor.overall_score redesignedAudit - ContentAuditor.overall_score originalAudit;
     brand_voice_improvement :=
       ContentAuditor.bv_score (ContentAuditor.brandVoiceAnalysis r)
       - ContentAuditor.bv_score (ContentAuditor.brandVoiceAnalysis o);
     compliance_improvement :=
       ContentAuditor.cr_score (ContentAuditor.complianceAnalysis r)
       - ContentAuditor.cr_score (ContentAuditor.complianceAnalysis o);
     audience_alignment_improvement :=
       ContentAuditor.aa_score (ContentAuditor.audienceAnalysis r)
       - ContentAuditor.aa_score (ContentAuditor.audienceAnalysis o) |}.

(** *** The compliance pass of the moderate redesign *)

Definition riskSentence : string :=
  " Please remember that all investments involve risk and past performance does not guarantee future results.".

Definition addRiskDisclosures (content : string) : string :=
  if negb (includes (toLowerCase content) "risk") then content ++ riskSentence
  else content.

Definition educationalOpening : string :=
  "Understanding the fundamentals is crucial for informed decision-making. ".

Definition addEducationalFraming (content : string) : string :=
  if negb (includes (toLowerCase content) "understand") &&
     negb (includes (toLowerCase content) "education")
  then educationalOpening ++ content
  else content.

Definition ensureCompliance (content : string) (audit : ContentAuditor.ContentAudit)
  : string :=
  let requirements :=
    ContentAuditor.complianceAnalysis (ContentAuditor.detailed_analysis audit) in
  let compliant := content in
  let compliant :=
    if negb (ContentAuditor.disclaimers_present requirements)
    then compliant ++ getAppropriateDisclaimer compliant else compliant in
  let compliant :=
    if negb (ContentAuditor.risk_disclosures requirements)
    then addRiskDisclosures compliant else compliant in
  if negb (ContentAuditor.educational_framing requirements)
  then addEducationalFraming compliant else compliant.

(** *** SEO metadata of a redesigned text *)

Record SeoMetadata := {
  title : string;
  meta_description : string;
  h1 : string;
  keywords : list string }.

Definition generateSEOMetadata (content : string) : SeoMetadata :=
  let title :=
    orElse (option_map (fun line => trim (replaceFirst "#" "" line))
                       (hd_error (splitChar newline content)))
           "Educational Guide" in
  let firstParagraph :=
    orElse (nth_error (split paragraphBreak content) 1) (sliceTo 150 content) in
  {| title := sliceTo 60 title;
     meta_description :=
       sliceTo 155 firstParagraph
       ++ (if 155 <? length firstParagraph then "..." else "");
     h1 := title;
     keywords := [ "precious metals"; "gold ira"; "silver investing";
                   "wealth preservation"; "education" ] |}.

(** *** The audience pass of the moderate redesign *)

(** [guidance.persona === 'Security Seekers']: an inherited member has no
    [persona], and the comparison is then false; reading [persona] from
    [undefined] throws. *)
Definition applyPersonaLanguage (content : string)
    (guidance : Lookup BrandVoiceEngine.PersonaGuidance) : option string :=
  match guidance with
  | Own g =>
      Some (if String.eqb (BrandVoiceEngine.persona g) "Security Seekers"
            then
              let adjusted := replaceAll true ["growth"] "stability and growth" content in
              replaceAll true ["opportunity"] "secure opportunity" adjusted
            else content)
  | Inherited _ => Some content
  | Undefined => None
  end.

Definition adjustComplexity (content : string) : string :=
  replaceAll true ["subsequently"] "then"
    (replaceAll true ["facilitate"] "help"
       (replaceAll true ["utilize"] "use" content)).

Definition inappropriateTerms : list string := [ "yo"; "bro"; "lit"; "fire"; "sick" ].

Definition removeInappropriateLanguage (content : string) : string :=
  fold_left (fun cleaned term => replaceTermGI term "" cleaned)
            inappropriateTerms content.

Definition improveAudienceAlignment (content : string) (targetAudience : option string)
  : option string :=
  let persona := orElse targetAudience "security_seekers" in
  let guidance := BrandVoiceEngine.getPersonaGuidance persona in
  match applyPersonaLanguage content guidance with
  | None => None
  | Some aligned =>
      let aligned := adjustComplexity aligned in
      Some (removeInappropriateLanguage aligned)
  end.

(** *** Paragraph breaks after sentences

    [content.replace(/([.!?])\s+([A-Z])/g, '$1\n\n$2')].  A match starts at
    a sentence end that a run of white space and then a capital follow: the
    run is taken whole, a shorter one being followed by white space and not
    by a capital.  The capital ends the match and starts none. *)

Definition isSentenceEnd (c : ascii) : bool :=
  Ascii.eqb c "."%char || Ascii.eqb c "!"%char || Ascii.eqb c "?"%char.

(** The length of the white-space run at the start of [s], when it is not
    empty and a capital follows it. *)
Fixpoint gapBeforeCapital (s : string) : option nat :=
  match s with
  | EmptyString => None
  | String c s' =>
      if isWhiteSpace c then
        match s' with
        | EmptyString => None
        | String d _ =>
            if isUpperAZ d then Some 1%nat else option_map S (gapBeforeCapital s')
        end
      else None
  end.

Fixpoint breakFrom (skip : nat) (s : string) : string :=
  match s with
  | EmptyString => EmptyString
  | String c s' =>
      match skip with
      | S k => breakFrom k s'
      | O =>
          if isSentenceEnd c then
            match gapBeforeCapital s' with
            | Some n => String c (paragraphBreak ++ breakFrom n s')
            | None => String c (breakFrom O s')
            end
          else String c (breakFrom O s')
      end
  end.

Definition breakUpLongParagraphs (content : string) : string := breakFrom O content.

Section Dispatch.

(** The moderate cascade (structure, brand voice, audience, compliance, key
    information) is a parameter here: the dispatch and the two other
    intensities do not look inside it. *)
Variable performModerateRedesign :
  string -> ContentAuditor.ContentAudit -> RedesignRequest -> option KeyInformation -> string.

Definition performRedesign (originalContent : string)
    (audit : ContentAuditor.ContentAudit) (request : RedesignRequest)
    (keyInfo : option KeyInformation) : option string :=
  let intensity := orElse (redesign_intensity request) "moderate" in
  if String.eqb intensity "light"
  then Some (performLightRedesign originalContent audit keyInfo)
  else if String.eqb intensity "moderate"
  then Some (performModerateRedesign originalContent audit request keyInfo)
  else if String.eqb intensity "complete"
  then performCompleteRedesign originalContent audit request keyInfo
  else Some (performModerateRedesign originalContent audit request keyInfo).

Definition redesignContent (request : RedesignRequest) : option RedesignResult :=
  let originalAudit :=
    ContentAuditor.auditContent (original_content request) (content_type request) in
  let keyInformation :=
    match preserve_key_information request with
    | Some false => None
    | _ => Some (extractKeyInformation (original_content request))
    end in
  match performRedesign (original_content request) originalAudit request keyInformation with
  | None => None
  | Some redesignedContent =>
      let redesignedAudit :=
        ContentAuditor.auditContent redesignedContent (content_type request) in
      Some {| redesigned_content := redesignedContent;
              original_audit := originalAudit;
              redesigned_audit := redesignedAudit;
              improvement_metrics := calculateImprovements originalAudit redesignedAudit;
              final_compliance_status := ContentAuditor.compliance_status redesignedAudit |}
  end.

End Dispatch.

End ContentRedesigner.

(* ================================================================== *)
(** ** The tool handlers (src/index.ts) *)
(* ================================================================== *)

(** What two handlers hand to [JSON.stringify]; a handler whose call throws
    answers with an error text instead: [None]. *)
Module Server.
Import JS.

Record ValidationReport := {
  brand_voice_score : Z;
  report_disclaimers_included : bool;
  report_issues : list string;
  report_compliance_status : string }.

Definition handleValidateCompliance (content : string) : ValidationReport :=
  let validation := BrandVoiceEngine.validateBrandCompliance content in
  {| brand_voice_score := BrandVoiceEngine.score validation;
     report_disclaimers_included := BrandVoiceEngine.disclaimers_included validation;
     report_issues := BrandVoiceEngine.issues validation;
     report_compliance_status :=
       if 80 <=? BrandVoiceEngine.score validation
       then "PASSED" else "NEEDS_IMPROVEMENT" |}.

(** The request built for the metadata has a content type and no topic. *)
Definition handleGenerateSEO (content contentType : string)
  : option ContentGenerator.SeoMetadata :=
  ContentGenerator.generateSEOMetadata content None.

End Server.

(* ================================================================== *)
(** ** KnowledgeManager (src/tools/knowledge-manager.ts) *)
(* ================================================================== *)

(** The knowledge base is the array [this.knowledgeBase]; a method is
    modelled by what one call does to it, from the array it finds.  What a
    call reads from outside the program is an argument here: the clock
    ([Date.now()], [new Date()]) and the outcome of fetching a page, which is
    the page's text or the text of the error.  Writing the array to the
    file changes nothing the methods read. *)
Module KnowledgeManager.
Import JS.

Record KnowledgeSource := {
  id : string;
  url : string;
  source_type : string;
  description : option string;
  tags : option (list string);
  last_updated : Z;
  content : option string }.

(** [`${n}`] for an integer *)
Definition decimal (n : Z) : string := NilZero.string_of_int (Z.to_int n).

(** [source.tags || []] *)
Definition tagsOrNone (source : KnowledgeSource) : list string :=
  match tags source with Some t => t | None => [] end.

(** An undefined entry of an array joins as the empty string. *)
Definition joined (entry : option string) : string :=
  match entry with Some s => s | None => EmptyString end.

Definition fuzzyMatch (query text : string) : bool :=
  let words := splitChar " "%char query in
  existsb (fun word => includes text word && (3 <? length word)) words.

(** The text that [searchKnowledgeBase] searches for one source. *)
Definition searchText (source : KnowledgeSource) : string :=
  toLowerCase
    (join " " ([joined (description source)] ++ tagsOrNone source
               ++ [url source; joined (content source)])%list).

(** The filter of [searchKnowledgeBase]. *)
Definition matchesQuery (source : KnowledgeSource) (queryLower : string) : bool :=
  includes (searchText source) queryLower
  || existsb (fun tag => includes tag queryLower) (tagsOrNone source)
  || fuzzyMatch queryLower (searchText source).

Definition calculateRelevance (source : KnowledgeSource) (query : string) : Z :=
  let score := 0 in
  let score :=
    if match description source with
       | Some d => includes (toLowerCase d) query
       | None => false
       end
    then score + 10 else score in
  let score :=
    if existsb (fun tag => includes (toLowerCase tag) query) (tagsOrNone source)
    then score + 8 else score in
  let score :=
    if match content source with
       | Some c => includes (toLowerCase c) query
       | None => false
       end
    then score + 3 else score in
  if includes (toLowerCase (url source)) query then score + 5 else score.

(** [addKnowledgeSource]: the new source and the array after the call, or
    [None] when the call throws. *)
Definition addKnowledgeSource (now updated : Z) (fetched : string + string)
    (newUrl sourceType : string) (newDescription : option string)
    (newTags : option (list string)) (knowledgeBase : list KnowledgeSource)
  : option (KnowledgeSource * list KnowledgeSource) :=
  if existsb (fun source => String.eqb (url source) newUrl) knowledgeBase
  then None
  else
    let newSource :=
      {| id := "user_" ++ decimal now;
         url := newUrl;
         source_type := sourceType;
         description :=
           Some (orElse newDescription ("User-added " ++ sourceType ++ " source"));
         tags := Some (match newTags with Some t => t | None => [] end);
         last_updated := updated;
         content :=
           Some (match fetched with
                 | inl text => text
                 | inr error => "Error fetching content: " ++ error
                 end) |} in
    Some (newSource, push knowledgeBase newSource).

(** [knowledgeBase.findIndex(source => source.id === id)] *)
Fixpoint findIndex (wanted : string) (knowledgeBase : list KnowledgeSource) : option nat :=
  match knowledgeBase with
  | [] => None
  | source :: rest =>
      if String.eqb (id source) wanted then Some O
      else option_map S (findIndex wanted rest)
  end.

(** [removeKnowledgeSource]: the array after [splice(index, 1)], or [None]
    when the call throws. *)
Definition removeKnowledgeSource (wanted : string) (knowledgeBase : list KnowledgeSource)
  : option (list KnowledgeSource) :=
  match findIndex wanted knowledgeBase with
  | None => None
  | Some index => Some (firstn index knowledgeBase ++ skipn (S index) knowledgeBase)%list
  end.

End KnowledgeManager.

(* ================================================================== *)
(** ** Arithmetic of the scores *)
(* ================================================================== *)

Module Range.

(** [lo, lo+1, ..., lo+n-1] *)
Fixpoint zrange (lo : Z) (n : nat) : list Z :=
  match n with
  | O => []
  | S k => lo :: zrange (lo + 1) k
  end.

Lemma in_zrange (n : nat) : forall lo z,
  lo <= z < lo + Z.of_nat n -> In z (zrange lo n).
Proof.
  induction n as [|n IH]; intros lo z H.
  - lia.
  - cbn [zrange]. destruct (Z.eq_dec z lo) as [->|Hne].
    + now left.
    + right. apply IH. lia.
Qed.

(** A boolean property checked on every integer of a range holds on it. *)
Lemma checked_on_range (P : Z -> bool) (lo : Z) (n : nat) :
  forallb P (zrange lo n) = true ->
  forall z, lo <= z < lo + Z.of_nat n -> P z = true.
Proof.
  intros Hall z Hz. rewrite forallb_forall in Hall.
  apply Hall, in_zrange, Hz.
Qed.

End Range.

Module Means.
Import JS ContentAuditor Range.

(** The two composite means, in integer arithmetic: the double quotient is
    exact for a division by four and never close to a half for a division by
    three. *)
Lemma mean4_round (s : Z) :
  0 <= s <= 400 -> Math_round (div (toNumber s) 4%float) = (s + 2) / 4.
Proof.
  intros Hs.
  assert (Hall : forallb (fun z => Math_round (div (toNumber z) 4%float) =? (z + 2) / 4)
                         (zrange 0 401) = true) by (vm_compute; reflexivity).
  apply Z.eqb_eq. apply (checked_on_range _ 0 401 Hall). lia.
Qed.

Lemma mean3_round (s : Z) :
  0 <= s <= 300 -> Math_round (div (toNumber s) 3%float) = (2 * s + 3) / 6.
Proof.
  intros Hs.
  assert (Hall : forallb (fun z => Math_round (div (toNumber z) 3%float) =? (2 * z + 3) / 6)
                         (zrange 0 301) = true) by (vm_compute; reflexivity).
  apply Z.eqb_eq. apply (checked_on_range _ 0 301 Hall). lia.
Qed.

Lemma mean4_bounds (a t p q : Z) :
  0 <= a <= 100 -> 0 <= t <= 100 -> 0 <= p <= 100 -> 0 <= q <= 100 ->
  0 <= mean4 a t p q <= 100.
Proof.
  intros Ha Ht Hp Hq. unfold mean4. rewrite mean4_round by lia.
  assert ((a + t + p + q + 2) / 4 < 101) by (apply Z.div_lt_upper_bound; lia).
  assert (0 <= (a + t + p + q + 2) / 4) by (apply Z.div_pos; lia).
  lia.
Qed.

Lemma mean3_bounds (a t c : Z) :
  0 <= a <= 100 -> 0 <= t <= 100 -> 0 <= c <= 100 ->
  0 <= mean3 a t c <= 100.
Proof.
  intros Ha Ht Hc. unfold mean3. rewrite mean3_round by lia.
  assert ((2 * (a + t + c) + 3) / 6 < 101) by (apply Z.div_lt_upper_bound; lia).
  assert (0 <= (2 * (a + t + c) + 3) / 6) by (apply Z.div_pos; lia).
  lia.
Qed.

End Means.

(** The weighted sum of five scores runs through four double additions and
    five double multiplications.  Its values are enumerated level by level:
    level [k] holds every double that the first [k+1] terms can add up to,
    filed under the exact sum in twentieths, [6 bv + 4 au + 3 st + 5 co + 2 sa]. *)
Module WeightedSum.
Import JS ContentAuditor Range.

Definition entry : Type := Z * float.
Definition level : Type := PositiveMap.t (list entry).

Definition slot (K : Z) : positive := Z.to_pos (K + 1).

Definition bucket (V : level) (K : Z) : list entry :=
  match PositiveMap.find (slot K) V with
  | Some b => b
  | None => []
  end.

Definition same (a b : entry) : bool :=
  (fst a =? fst b) && PrimFloat.Leibniz.eqb (snd a) (snd b).

Definition insert (V : level) (p : entry) : level :=
  let b := bucket V (fst p) in
  if existsb (same p) b then V else PositiveMap.add (slot (fst p)) (p :: b) V.

Definition insertAll {A} (f : A -> entry) (l : list A) (V : level) : level :=
  fold_left (fun acc a => insert acc (f a)) l V.

Definition members (V : level) : list entry :=
  flat_map snd (PositiveMap.elements V).

(** The hundred and one scores, each with its double. *)
Definition scores : list entry := map (fun z => (z, toNumber z)) (zrange 0 101).

Definition extend (u : Z) (w : float) (pc : entry * entry) : entry :=
  let '(p, c) := pc in (fst p + u * fst c, (snd p + snd c * w)%float).

Definition step (u : Z) (w : float) (V : level) : level :=
  insertAll (extend u w) (list_prod (members V) scores) (PositiveMap.empty _).

Definition level0 : level :=
  insertAll (fun c : entry => (6 * fst c, (snd c * w_brandVoice)%float)) scores
            (PositiveMap.empty _).
Definition level1 : level := step 4 w_audience level0.
Definition level2 : level := step 3 w_structure level1.
Definition level3 : level := step 5 w_compliance level2.
Definition level4 : level := step 2 w_salesTactics level3.

(** What is checked of every reachable sum [x], filed under [K]: it is a
    finite number, and its rounding is within a half of [K/20]. *)
Definition good (p : entry) : bool :=
  PrimFloat.is_finite (snd p) && (Z.abs (20 * Math_round (snd p) - fst p) <=? 10).

Lemma same_eq (a b : entry) : same a b = true -> a = b.
Proof.
  destruct a as [ka xa], b as [kb xb]. unfold same. cbn [fst snd].
  rewrite andb_true_iff, Z.eqb_eq, FloatAxioms.Leibniz.eqb_spec.
  intros [-> ->]. reflexivity.
Qed.

Lemma bucket_insert_keeps (V : level) (p q : entry) (K : Z) :
  In q (bucket V K) -> In q (bucket (insert V p) K).
Proof.
  intros Hq. unfold insert.
  destruct (existsb (same p) (bucket V (fst p))); [exact Hq|].
  unfold bucket at 1.
  destruct (Pos.eq_dec (slot K) (slot (fst p))) as [E|N].
  - rewrite E, PositiveMap.gss. right.
    unfold bucket in Hq |- *. rewrite E in Hq. exact Hq.
  - rewrite PositiveMap.gso by exact N. exact Hq.
Qed.

Lemma bucket_insert_has (V : level) (p : entry) :
  In p (bucket (insert V p) (fst p)).
Proof.
  unfold insert.
  destruct (existsb (same p) (bucket V (fst p))) eqn:E.
  - apply existsb_exists in E. destruct E as [q [Hq Hs]].
    apply same_eq in Hs. subst q. exact Hq.
  - unfold bucket at 1. rewrite PositiveMap.gss. now left.
Qed.

Lemma insertAll_keeps {A} (f : A -> entry) (l : list A) :
  forall V q K, In q (bucket V K) -> In q (bucket (insertAll f l V) K).
Proof.
  induction l as [|a l IH]; intros V q K Hq; cbn.
  - exact Hq.
  - apply IH, bucket_insert_keeps, Hq.
Qed.

Lemma insertAll_has {A} (f : A -> entry) (l : list A) :
  forall V a, In a l -> In (f a) (bucket (insertAll f l V) (fst (f a))).
Proof.
  induction l as [|b l IH]; intros V a Ha; cbn.
  - destruct Ha.
  - destruct Ha as [->|Ha].
    + apply insertAll_keeps, bucket_insert_has.
    + apply IH, Ha.
Qed.

Lemma bucket_members (V : level) (p : entry) (K : Z) :
  In p (bucket V K) -> In p (members V).
Proof.
  unfold bucket, members. intros Hp.
  destruct (PositiveMap.find (slot K) V) as [b|] eqn:E; [|destruct Hp].
  apply in_flat_map. exists (slot K, b). split.
  - apply PositiveMap.elements_correct, E.
  - exact Hp.
Qed.

Lemma score_listed (c : Z) : 0 <= c <= 100 -> In (c, toNumber c) scores.
Proof.
  intros Hc. unfold scores.
  apply (in_map (fun z => (z, toNumber z))), in_zrange. lia.
Qed.

Lemma step_has (u : Z) (w : float) (V : level) (K : Z) (x : float) (c : Z) :
  In (K, x) (bucket V K) -> 0 <= c <= 100 ->
  In (K + u * c, (x + toNumber c * w)%float) (bucket (step u w V) (K + u * c)).
Proof.
  intros Hx Hc. unfold step.
  apply (insertAll_has (extend u w) _ _ ((K, x), (c, toNumber c))).
  apply in_prod.
  - eapply bucket_members, Hx.
  - apply score_listed, Hc.
Qed.

Lemma level0_has (bv : Z) :
  0 <= bv <= 100 ->
  In (6 * bv, (toNumber bv * w_brandVoice)%float) (bucket level0 (6 * bv)).
Proof.
  intros Hbv. unfold level0.
  apply (insertAll_has (fun c : entry => (6 * fst c, (snd c * w_brandVoice)%float))
                       _ _ (bv, toNumber bv)).
  apply score_listed, Hbv.
Qed.

Lemma level4_has (bv au st co sa : Z) :
  0 <= bv <= 100 -> 0 <= au <= 100 -> 0 <= st <= 100 ->
  0 <= co <= 100 -> 0 <= sa <= 100 ->
  In (6 * bv + 4 * au + 3 * st + 5 * co + 2 * sa, weightedSum bv au st co sa)
     (members level4).
Proof.
  intros Hbv Hau Hst Hco Hsa.
  eapply bucket_members. unfold level4, level3, level2, level1, weightedSum.
  apply step_has; [|exact Hsa].
  apply step_has; [|exact Hco].
  apply step_has; [|exact Hst].
  apply step_has; [|exact Hau].
  apply level0_has, Hbv.
Qed.

Lemma level4_checked : forallb good (members level4) = true.
Proof. vm_compute. reflexivity. Qed.

(** Every weighted sum of five scores in 0..100 is finite and rounds to an
    integer within a half of the exact sum. *)
Lemma weightedSum_rounds (bv au st co sa : Z) :
  0 <= bv <= 100 -> 0 <= au <= 100 -> 0 <= st <= 100 ->
  0 <= co <= 100 -> 0 <= sa <= 100 ->
  PrimFloat.is_finite (weightedSum bv au st co sa) = true /\
  Z.abs (100 * Math_round (weightedSum bv au st co sa)
         - (30 * bv + 20 * au + 15 * st + 25 * co + 10 * sa)) <= 50.
Proof.
  intros Hbv Hau Hst Hco Hsa.
  pose proof (level4_has bv au st co sa Hbv Hau Hst Hco Hsa) as Hin.
  pose proof level4_checked as Hall. rewrite forallb_forall in Hall.
  specialize (Hall _ Hin). unfold good in Hall. cbn [fst snd] in Hall.
  apply andb_true_iff in Hall. destruct Hall as [Hfin Hnear].
  split; [exact Hfin|]. apply Z.leb_le in Hnear. lia.
Qed.

End WeightedSum.

(* ================================================================== *)
(** ** Properties of the audit *)
(* ================================================================== *)

Module AuditFacts.
Import JS ContentAuditor Range.

Lemma clamp_range (score : Z) : 0 <= clamp score <= 100.
Proof. unfold clamp. lia. Qed.

Lemma count_range (terms : list string) (text : string) :
  0 <= count terms text <= Zlen terms.
Proof.
  unfold count, matched, Zlen. split; [lia|].
  apply inj_le, filter_length_le.
Qed.

Lemma Zlen_matched (terms : list string) (text : string) :
  0 <= Zlen (matched terms text) <= Zlen terms.
Proof. exact (count_range terms text). Qed.

Lemma compliance_score_range (content : string) :
  50 <= cr_score (analyzeCompliance content) <= 100.
Proof.
  unfold analyzeCompliance. cbn [cr_score].
  destruct (checkDisclaimers content), (checkRiskDisclosures content),
           (checkEducationalFraming content); lia.
Qed.

(** The compliance score, read off the three flags. *)
Lemma compliance_score_of_flags (content : string) :
  let c := analyzeCompliance content in
  cr_score c =
    Z.min 100 (50 + (if disclaimers_present c then 25 else 0)
                  + (if risk_disclosures c then 20 else 0)
                  + (if educational_framing c then 25 else 0)).
Proof.
  cbn zeta. unfold analyzeCompliance.
  cbn [cr_score disclaimers_present risk_disclosures educational_framing].
  destruct (checkDisclaimers content), (checkRiskDisclosures content),
           (checkEducationalFraming content); reflexivity.
Qed.

Lemma rawSalesTactics_le (content : string) : rawSalesTactics content <= 80.
Proof.
  unfold rawSalesTactics.
  pose proof (Zlen_matched pressureTerms (toLowerCase content)).
  pose proof (Zlen_matched urgencyTerms (toLowerCase content)).
  pose proof (Zlen_matched aggressiveTerms (toLowerCase content)).
  unfold findPressureTactics, findUrgencyLanguage, findAggressiveTerms.
  destruct (lt (calculateTrustVsPushRatio content) 1); lia.
Qed.

Lemma sales_score_range (content : string) :
  0 <= st_score (analyzeSalesTactics content) <= 80.
Proof.
  cbn [analyzeSalesTactics st_score].
  pose proof (rawSalesTactics_le content). lia.
Qed.

Lemma brand_voice_score_range (content : string) :
  0 <= bv_score (analyzeBrandVoice content) <= 100.
Proof.
  cbn [analyzeBrandVoice bv_score].
  apply Means.mean4_bounds; apply clamp_range.
Qed.

Lemma audience_score_range (content : string) :
  0 <= aa_score (analyzeAudienceAlignment content) <= 100.
Proof.
  cbn [analyzeAudienceAlignment aa_score].
  apply Means.mean3_bounds; apply clamp_range.
Qed.

Lemma structure_score_range (content : string) :
  0 <= cs_score (analyzeContentStructure content) <= 100.
Proof.
  cbn [analyzeContentStructure cs_score].
  apply Means.mean3_bounds; apply clamp_range.
Qed.

(** The fields of an audit, as [auditContent] fills them. *)
Lemma audit_analysis (content : string) (contentType : option string) :
  detailed_analysis (auditContent content contentType) =
  {| brandVoiceAnalysis := analyzeBrandVoice content;
     audienceAnalysis := analyzeAudienceAlignment content;
     structureAnalysis := analyzeContentStructure content;
     complianceAnalysis := analyzeCompliance content;
     salesTacticsAnalysis := analyzeSalesTactics content |}.
Proof. unfold auditContent. cbn [detailed_analysis]. reflexivity. Qed.

Lemma audit_overall (content : string) (contentType : option string) :
  overall_score (auditContent content contentType) =
  calculateOverallScore (detailed_analysis (auditContent content contentType)).
Proof. unfold auditContent. cbn [overall_score detailed_analysis]. reflexivity. Qed.

Lemma audit_status (content : string) (contentType : option string) :
  compliance_status (auditContent content contentType) =
  determineComplianceStatus (overall_score (auditContent content contentType)).
Proof. unfold auditContent. cbn [overall_score compliance_status]. reflexivity. Qed.

Lemma audit_priority (content : string) (contentType : option string) :
  redesign_priority (auditContent content contentType) =
  determineRedesignPriority
    (overall_score (auditContent content contentType))
    (complianceAnalysis (detailed_analysis (auditContent content contentType))).
Proof.
  unfold auditContent.
  cbn [overall_score redesign_priority detailed_analysis complianceAnalysis].
  reflexivity.
Qed.

(** The overall score of an audit is the rounding of the weighted sum of its
    five composite scores, each of them in 0..100. *)
Lemma overall_score_rounds (content : string) (contentType : option string) :
  let d := detailed_analysis (auditContent content contentType) in
  Z.abs (100 * overall_score (auditContent content contentType)
         - (30 * bv_score (brandVoiceAnalysis d)
            + 20 * aa_score (audienceAnalysis d)
            + 15 * cs_score (structureAnalysis d)
            + 25 * cr_score (complianceAnalysis d)
            + 10 * st_score (salesTacticsAnalysis d))) <= 50.
Proof.
  cbn zeta. rewrite audit_overall, audit_analysis.
  unfold calculateOverallScore.
  cbn [brandVoiceAnalysis audienceAnalysis structureAnalysis complianceAnalysis
       salesTacticsAnalysis].
  pose proof (brand_voice_score_range content).
  pose proof (audience_score_range content).
  pose proof (structure_score_range content).
  pose proof (compliance_score_range content).
  pose proof (sales_score_range content).
  apply WeightedSum.weightedSum_rounds; lia.
Qed.

(** At an exact half the double sum can fall just below it, and the
    rounding then goes down: 0.3*0 + 0.2*3 + 0.15*63 + 0.25*75 + 0.1*27 is
    31.5, the doubles add up to 31.499999999999996, and the score is 31. *)
Lemma exact_half_may_round_down :
  30 * 0 + 20 * 3 + 15 * 63 + 25 * 75 + 10 * 27 = 3150 /\
  Math_round (weightedSum 0 3 63 75 27) = 31.
Proof. split; vm_compute; reflexivity. Qed.

(** C1.  For every input string the audit returns scores that all lie in
    0..100: the four brand-voice sub-scores, the three audience sub-scores,
    the three structure sub-scores, the compliance and the sales-tactics
    score, the three composite scores and the overall score; each sub-score
    is the clamp of the value reached after every addition and subtraction. *)
Theorem audit_scores_in_range (content : string) (contentType : option string) :
  let a := auditContent content contentType in
  let d := detailed_analysis a in
  let inRange (x : Z) := 0 <= x <= 100 in
  (inRange (knowledgeable_authoritative (brandVoiceAnalysis d)) /\
   inRange (trustworthy_transparent (brandVoiceAnalysis d)) /\
   inRange (professional_established (brandVoiceAnalysis d)) /\
   inRange (protective_strategic (brandVoiceAnalysis d)) /\
   inRange (age_appropriate (audienceAnalysis d)) /\
   inRange (tone_match (audienceAnalysis d)) /\
   inRange (complexity_level (audienceAnalysis d)) /\
   inRange (information_hierarchy (structureAnalysis d)) /\
   inRange (readability (structureAnalysis d)) /\
   inRange (educational_flow (structureAnalysis d)) /\
   inRange (cr_score (complianceAnalysis d)) /\
   inRange (st_score (salesTacticsAnalysis d))) /\
  (inRange (bv_score (brandVoiceAnalysis d)) /\
   inRange (aa_score (audienceAnalysis d)) /\
   inRange (cs_score (structureAnalysis d))) /\
  inRange (overall_score a) /\
  (knowledgeable_authoritative (brandVoiceAnalysis d) = clamp (rawAuthoritativeness content) /\
   trustworthy_transparent (brandVoiceAnalysis d) = clamp (rawTrustworthiness content) /\
   professional_established (brandVoiceAnalysis d) = clamp (rawProfessionalism content) /\
   protective_strategic (brandVoiceAnalysis d) = clamp (rawProtectiveness content) /\
   age_appropriate (audienceAnalysis d) = clamp (rawAgeAppropriateness content) /\
   tone_match (audienceAnalysis d) = clamp (rawToneMatch content) /\
   complexity_level (audienceAnalysis d) = clamp (rawComplexityLevel content) /\
   information_hierarchy (structureAnalysis d) = clamp (rawInformationHierarchy content) /\
   readability (structureAnalysis d) = clamp (rawReadability content) /\
   educational_flow (structureAnalysis d) = clamp (rawEducationalFlow content) /\
   cr_score (complianceAnalysis d) =
     Z.min 100 (50 + (if disclaimers_present (complianceAnalysis d) then 25 else 0)
                   + (if risk_disclosures (complianceAnalysis d) then 20 else 0)
                   + (if educational_framing (complianceAnalysis d) then 25 else 0)) /\
   st_score (salesTacticsAnalysis d) = Z.max 0 (rawSalesTactics content)).
Proof.
  cbn zeta.
  pose proof (overall_score_rounds content contentType) as Hov. cbn zeta in Hov.
  pose proof (brand_voice_score_range content) as Hbv.
  pose proof (audience_score_range content) as Hau.
  pose proof (structure_score_range content) as Hst.
  pose proof (compliance_score_range content) as Hco.
  pose proof (sales_score_range content) as Hsa.
  pose proof (rawSalesTactics_le content) as Hraw.
  revert Hov. rewrite audit_analysis.
  cbn [brandVoiceAnalysis audienceAnalysis structureAnalysis complianceAnalysis
       salesTacticsAnalysis].
  generalize (overall_score (auditContent content contentType)). intros o Hov.
  cbn [analyzeBrandVoice analyzeAudienceAlignment analyzeContentStructure
       analyzeSalesTactics knowledgeable_authoritative trustworthy_transparent
       professional_established protective_strategic age_appropriate tone_match
       complexity_level information_hierarchy readability educational_flow st_score].
  repeat split; try apply clamp_range; try lia.
  apply compliance_score_of_flags.
Qed.

(** The two verdicts, read off their thresholds. *)
Lemma status_by_threshold (o : Z) :
  (determineComplianceStatus o = PASSED <-> 80 <= o) /\
  (determineComplianceStatus o = NEEDS_IMPROVEMENT <-> 60 <= o < 80) /\
  (determineComplianceStatus o = FAILED <-> o < 60).
Proof.
  unfold determineComplianceStatus.
  destruct (Z.leb_spec 80 o), (Z.leb_spec 60 o);
    repeat split; intros; try discriminate; try lia; reflexivity.
Qed.

Lemma priority_by_threshold (o : Z) (c : ComplianceRequirements) :
  (determineRedesignPriority o c = CRITICAL <-> o < 40) /\
  (determineRedesignPriority o c = HIGH <-> 40 <= o < 60) /\
  (determineRedesignPriority o c = MEDIUM <->
     60 <= o /\ (o < 75 \/ disclaimers_present c = false)) /\
  (determineRedesignPriority o c = LOW <->
     75 <= o /\ disclaimers_present c = true).
Proof.
  unfold determineRedesignPriority.
  destruct (Z.ltb_spec o 40), (Z.ltb_spec o 60), (Z.ltb_spec o 75),
           (disclaimers_present c); cbn;
    repeat split; intros; try discriminate; try lia; try reflexivity;
    try (intuition (lia || discriminate)).
Qed.








Definition emptyAudit : ContentAudit := auditContent "" None.

(** C6 (as amended).  The audit of the empty string returns a complete
    result: every sub-score is its base value (50, 50, 70, 50; 70, 60, 50;
    50, 60, 50; compliance 50) except the sales-tactics score, which is 60,
    the base 80 less the 20 of a trust/push ratio of 0; the three marker lists
    are empty, the three compliance flags are false, and every issues list is
    a list. *)
Theorem audit_of_empty_string :
  let d := detailed_analysis emptyAudit in
  (knowledgeable_authoritative (brandVoiceAnalysis d) = 50 /\
   trustworthy_transparent (brandVoiceAnalysis d) = 50 /\
   professional_established (brandVoiceAnalysis d) = 70 /\
   protective_strategic (brandVoiceAnalysis d) = 50) /\
  (age_appropriate (audienceAnalysis d) = 70 /\
   tone_match (audienceAnalysis d) = 60 /\
   complexity_level (audienceAnalysis d) = 50) /\
  (information_hierarchy (structureAnalysis d) = 50 /\
   readability (structureAnalysis d) = 60 /\
   educational_flow (structureAnalysis d) = 50) /\
  cr_score (complianceAnalysis d) = 50 /\
  (st_score (salesTacticsAnalysis d) = 80 - 20 /\
   lt (trust_vs_push_ratio (salesTacticsAnalysis d)) 1%float = true /\
   pressure_tactics (salesTacticsAnalysis d) = [] /\
   urgency_language (salesTacticsAnalysis d) = [] /\
   aggressive_terms (salesTacticsAnalysis d) = []) /\
  (disclaimers_present (complianceAnalysis d) = false /\
   risk_disclosures (complianceAnalysis d) = false /\
   educational_framing (complianceAnalysis d) = false) /\
  (bv_issues (brandVoiceAnalysis d) =
     [ "Lacks authoritative evidence and data";
       "Needs more transparency about risks and processes";
       "Too sales-focused, not protective enough" ] /\
   aa_issues (audienceAnalysis d) =
     [ "Tone doesn't match conservative investor preferences";
       "Content complexity not optimal for audience" ] /\
   cs_issues (structureAnalysis d) =
     [ "Poor information hierarchy - needs better structure";
       "Readability issues - too dense or poorly formatted";
       "Doesn't follow educational progression" ] /\
   cr_issues (complianceAnalysis d) =
     [ "Missing required financial disclaimers";
       "Content not properly framed as educational" ]) /\
  overall_score emptyAudit = 55 /\
  compliance_status emptyAudit = FAILED /\
  redesign_priority emptyAudit = HIGH.
Proof. vm_compute. repeat split; reflexivity. Qed.

(** C6, as it was stated, fails on the sales-tactics scorer: on the empty
    string it returns 60 and not its base value 80. *)
Lemma empty_string_sales_score_not_base :
  st_score (salesTacticsAnalysis (detailed_analysis emptyAudit)) = 60 /\
  st_score (salesTacticsAnalysis (detailed_analysis emptyAudit)) <> 80.
Proof. vm_compute. split; [reflexivity|discriminate]. Qed.

Definition pushyText : string :=
  "Guaranteed returns! Act now, don't miss out, buy now!".

(** C7.  For the text [pushyText] the aggressive terms include
    guaranteed returns, the pressure tactics include act now and
    don't miss out, and the sales-tactics score is below 50. *)
Theorem pushy_text_sales_analysis :
  let s := salesTacticsAnalysis (detailed_analysis (auditContent pushyText None)) in
  In "guaranteed returns" (aggressive_terms s) /\
  In "act now" (pressure_tactics s) /\
  In "don't miss out" (pressure_tactics s) /\
  st_score s = 18 /\
  st_score s < 50.
Proof.
  vm_compute. repeat split; try reflexivity; auto.
Qed.

End AuditFacts.

(* ================================================================== *)
(** ** Facts about strings *)
(* ================================================================== *)

Module Text.
Import JS.

Lemma app_assoc (a b c : string) : (a ++ b) ++ c = a ++ b ++ c.
Proof. induction a as [|x a IH]; cbn; [reflexivity|now rewrite IH]. Qed.

(** Two ways of cutting one string: one cut lies in the other's first part. *)
Lemma app_eq_app (a b c d : string) :
  a ++ b = c ++ d ->
  (exists m, a = c ++ m /\ d = m ++ b) \/ (exists m, c = a ++ m /\ b = m ++ d).
Proof.
  revert c. induction a as [|x a IH]; intros c H.
  - right. exists c. split; [reflexivity|exact H].
  - destruct c as [|y c].
    + left. exists (String x a). split; [reflexivity|]. symmetry. exact H.
    + cbn in H. injection H as -> H. destruct (IH c H) as [[m [-> ->]]|[m [-> ->]]].
      * left. exists m. split; reflexivity.
      * right. exists m. split; reflexivity.
Qed.

(** *** startsWith and includes *)

Lemma startsWith_app (ci : bool) (p r : string) :
  startsWithG ci (p ++ r) p = true.
Proof.
  induction p as [|c p IH]; cbn; [reflexivity|].
  rewrite IH. destruct ci; now rewrite Ascii.eqb_refl.
Qed.

Lemma startsWith_split (s p : string) :
  startsWith s p = true -> exists r, s = p ++ r.
Proof.
  revert s. induction p as [|c p IH]; intros s H.
  - exists s. reflexivity.
  - destruct s as [|d s]; [discriminate|].
    unfold startsWith in H. cbn in H. apply andb_true_iff in H. destruct H as [Hc Hp].
    apply Ascii.eqb_eq in Hc. subst d.
    destruct (IH s Hp) as [r ->]. exists r. reflexivity.
Qed.

Lemma includes_head (s t : string) :
  startsWith s t = true -> includes s t = true.
Proof. intros H. destruct s; cbn [includes]; now rewrite H. Qed.

Lemma includes_occurs (s t : string) :
  includes s t = true <-> exists a b, s = a ++ t ++ b.
Proof.
  split.
  - induction s as [|c s IH]; cbn [includes]; intros H.
    + rewrite orb_false_r in H. apply startsWith_split in H.
      destruct H as [r ->]. exists "", r. reflexivity.
    + apply orb_true_iff in H. destruct H as [H|H].
      * apply startsWith_split in H. destruct H as [r ->]. exists "", r. reflexivity.
      * destruct (IH H) as [a [b ->]]. exists (String c a), b. reflexivity.
  - intros [a [b ->]]. induction a as [|c a IH].
    + cbn [append]. apply includes_head. exact (startsWith_app false t b).
    + change (String c a ++ t ++ b) with (String c (a ++ t ++ b)).
      cbn [includes]. rewrite IH. apply orb_true_r.
Qed.

(** *** Lower-casing keeps what it is asked to find *)

Lemma startsWith_lower (s t : string) :
  startsWith s t = true -> startsWith (toLowerCase s) (toLowerCase t) = true.
Proof.
  revert s. induction t as [|c t IH]; intros s H; [reflexivity|].
  destruct s as [|d s]; [discriminate|].
  unfold startsWith in *. cbn in *. apply andb_true_iff in H. destruct H as [Hc Ht].
  apply Ascii.eqb_eq in Hc. subst d. rewrite Ascii.eqb_refl. cbn. apply IH, Ht.
Qed.

Lemma includes_lower (s t : string) :
  includes s t = true -> includes (toLowerCase s) (toLowerCase t) = true.
Proof.
  induction s as [|c s IH]; cbn [includes toLowerCase]; intros H.
  - rewrite orb_false_r in *. now apply (startsWith_lower "" t).
  - apply orb_true_iff in H. destruct H as [H|H].
    + apply (startsWith_lower (String c s) t) in H. cbn [toLowerCase] in H.
      now rewrite H.
    + rewrite (IH H). apply orb_true_r.
Qed.

End Text.

(* ================================================================== *)
(** ** Properties of the brand-voice engine *)
(* ================================================================== *)

Module BrandVoiceFacts.
Import JS BrandVoiceEngine.

(** A persona key that is neither one of the four personas nor a member name
    of [Object.prototype] yields the security-seekers guidance. *)
Lemma persona_fallback (key : string) :
  assoc guidanceMap key = None -> isInherited key = false ->
  getPersonaGuidance key = Own security_seekers.
Proof.
  intros Hown Hinh. unfold getPersonaGuidance, getProperty.
  now rewrite Hown, Hinh.
Qed.

Lemma persona_known (key : string) (g : PersonaGuidance) :
  assoc guidanceMap key = Some g -> getPersonaGuidance key = Own g.
Proof.
  intros Hown. unfold getPersonaGuidance, getProperty. now rewrite Hown.
Qed.

(** C8, at the key on which the program departs from it:
    [constructor] is none of the four personas, yet the lookup finds the
    member that every object inherits under that name, which is truthy, so
    the security-seekers default is not returned. *)
Theorem persona_constructor_is_inherited :
  assoc guidanceMap "constructor" = None /\
  getPersonaGuidance "constructor" = Inherited "constructor" /\
  getPersonaGuidance "constructor" <> Own security_seekers.
Proof.
  repeat split; try reflexivity. discriminate.
Qed.

Lemma audience_issue_listed (content : string) :
  (includes content "yo" || includes content "bro" || includes content "lit") = true ->
  validateRaw content =
    (fst (checkedBeforeAudience content) - 15,
     push (snd (checkedBeforeAudience content)) audienceIssue).
Proof.
  intros H. unfold validateRaw.
  destruct (checkedBeforeAudience content) as [score0 issues0].
  now rewrite H.
Qed.

Lemma validate_fields (content : string) :
  score (validateBrandCompliance content) = Z.max 0 (fst (validateRaw content)) /\
  issues (validateBrandCompliance content) = snd (validateRaw content).
Proof.
  unfold validateBrandCompliance.
  destruct (validateRaw content) as [score0 issues0]. split; reflexivity.
Qed.

Lemma young_count_with_yo (text : string) :
  includes text "yo" = true ->
  ContentAuditor.count ContentAuditor.youngTerms text =
  1 + ContentAuditor.count (tl ContentAuditor.youngTerms) text.
Proof.
  intros H. unfold ContentAuditor.count, ContentAuditor.matched, ContentAuditor.youngTerms.
  cbn [tl]. cbn [filter]. rewrite H. cbn [List.length]. lia.
Qed.

(** C9.  The slang check matches raw substrings: whenever the content holds
    [yo] anywhere (as in you or your), [validate_brand_compliance] lists the
    issue about the target demographic and takes 15 from the score reached by
    the earlier checks, before flooring at 0; and the auditor's
    age-appropriateness score counts 25 off its base 70 for that match,
    before clamping. *)
Theorem yo_substring_is_penalised (content : string) :
  includes content "yo" = true ->
  In audienceIssue (issues (validateBrandCompliance content)) /\
  score (validateBrandCompliance content) =
    Z.max 0 (fst (checkedBeforeAudience content) - 15) /\
  ContentAuditor.scoreAgeAppropriateness content =
    ContentAuditor.clamp
      (70 - 25
       - 25 * ContentAuditor.count (tl ContentAuditor.youngTerms) (toLowerCase content)
       + 8 * ContentAuditor.count ContentAuditor.appropriateRefs (toLowerCase content)).
Proof.
  intros Hyo.
  destruct (validate_fields content) as [Hscore Hissues].
  assert (Hany : (includes content "yo" || includes content "bro"
                  || includes content "lit") = true) by now rewrite Hyo.
  rewrite Hscore, Hissues, (audience_issue_listed content Hany). cbn [fst snd].
  repeat split.
  - unfold push. apply in_or_app. right. now left.
  - unfold ContentAuditor.scoreAgeAppropriateness, ContentAuditor.rawAgeAppropriateness.
    rewrite (young_count_with_yo (toLowerCase content)
               (Text.includes_lower content "yo" Hyo)).
    f_equal. lia.
Qed.

Definition ordinaryWords : string := "Protect your savings".

Lemma yo_substring_is_penalised_witness :
  includes ordinaryWords "yo" = true /\
  In audienceIssue (issues (validateBrandCompliance ordinaryWords)).
Proof.
  split.
  - reflexivity.
  - exact (proj1 (yo_substring_is_penalised ordinaryWords eq_refl)).
Defined.

End BrandVoiceFacts.

(* ================================================================== *)
(** ** Properties of the redesign *)
(* ================================================================== *)

Module WhitespaceFacts.
Import JS.

(** Every character of [s] satisfies [p]. *)
Fixpoint allChars (p : ascii -> bool) (s : string) : bool :=
  match s with
  | EmptyString => true
  | String c s' => p c && allChars p s'
  end.

(** A character that is white space only if it is the plain space. *)
Definition spaceOrInk (c : ascii) : bool :=
  negb (isWhiteSpace c) || Ascii.eqb c " "%char.

Definition notNewline (c : ascii) : bool := negb (Ascii.eqb c newline).

Lemma spaceOrInk_notNewline (c : ascii) : spaceOrInk c = true -> notNewline c = true.
Proof.
  unfold spaceOrInk, notNewline. intros H.
  destruct (Ascii.eqb_spec c newline) as [->|]; [discriminate H|reflexivity].
Qed.

Lemma allChars_weaken (p q : ascii -> bool) (s : string) :
  (forall c, p c = true -> q c = true) -> allChars p s = true -> allChars q s = true.
Proof.
  intros Hpq. induction s as [|c s IH]; cbn; [reflexivity|].
  intros H. apply andb_true_iff in H. destruct H as [Hc Hs].
  now rewrite (Hpq c Hc), (IH Hs).
Qed.

Lemma collapse_spaces (inRun : bool) (s : string) :
  allChars spaceOrInk (collapseFrom inRun s) = true.
Proof.
  revert inRun. induction s as [|c s IH]; intros inRun; cbn [collapseFrom].
  - reflexivity.
  - destruct (isWhiteSpace c) eqn:Ews.
    + destruct inRun; [apply IH|]. cbn [allChars]. now rewrite IH.
    + cbn [allChars]. rewrite IH. unfold spaceOrInk. now rewrite Ews.
Qed.

(** Without a newline there is no blank line to squeeze. *)
Lemma squeeze_without_newline (s : string) :
  allChars notNewline s = true -> squeezeFrom O s = s.
Proof.
  induction s as [|c s IH]; cbn [squeezeFrom allChars]; [reflexivity|].
  intros H. apply andb_true_iff in H. destruct H as [Hc Hs].
  unfold notNewline in Hc. apply negb_true_iff in Hc. rewrite Hc.
  now rewrite (IH Hs).
Qed.

Lemma trimStart_keeps (p : ascii -> bool) (s : string) :
  allChars p s = true -> allChars p (trimStart s) = true.
Proof.
  induction s as [|c s IH]; cbn [trimStart]; [reflexivity|].
  intros H. destruct (isWhiteSpace c); [|exact H].
  cbn [allChars] in H. apply andb_true_iff in H. apply IH, H.
Qed.

Lemma trimEnd_keeps (p : ascii -> bool) (s : string) :
  allChars p s = true -> allChars p (trimEnd s) = true.
Proof.
  induction s as [|c s IH]; cbn [trimEnd allChars]; [reflexivity|].
  intros H. apply andb_true_iff in H. destruct H as [Hc Hs].
  specialize (IH Hs). destruct (trimEnd s) as [|d r].
  - destruct (isWhiteSpace c); [reflexivity|]. cbn [allChars]. now rewrite Hc.
  - cbn [allChars] in *. now rewrite Hc, IH.
Qed.

Lemma trim_keeps (p : ascii -> bool) (s : string) :
  allChars p s = true -> allChars p (trim s) = true.
Proof. intros H. unfold trim. apply trimEnd_keeps, trimStart_keeps, H. Qed.

Lemma no_newline_not_included (s : string) :
  allChars notNewline s = true -> includes s (String newline EmptyString) = false.
Proof.
  induction s as [|c s IH]; cbn [allChars includes]; [reflexivity|].
  intros H. apply andb_true_iff in H. destruct H as [Hc Hs].
  rewrite (IH Hs), orb_false_r. unfold startsWith. cbn [startsWithG].
  unfold notNewline in Hc. apply negb_true_iff in Hc.
  rewrite Ascii.eqb_sym, Hc. reflexivity.
Qed.

(** What the clean-up of the light pass leaves: its second replacement finds
    nothing, and all white space of the result is plain spaces. *)
Lemma cleanUp_spaces (content : string) :
  ContentRedesigner.cleanUpWhitespace content = trim (collapseWhitespace content) /\
  allChars spaceOrInk (ContentRedesigner.cleanUpWhitespace content) = true.
Proof.
  unfold ContentRedesigner.cleanUpWhitespace, squeezeBlankLines, collapseWhitespace.
  pose proof (collapse_spaces false content) as Hsp.
  rewrite squeeze_without_newline
    by (eapply allChars_weaken; [exact spaceOrInk_notNewline|exact Hsp]).
  split; [reflexivity|]. apply trim_keeps, Hsp.
Qed.

(** C10.  For every input text the output of the light redesign (run, as the
    program runs it, on the audit of that text) holds no newline: the
    white-space normalisation at its end turns every white-space run,
    paragraph breaks and the newlines of an appended disclaimer included,
    into plain spaces, after which the blank-line replacement finds nothing. *)
Theorem light_redesign_has_no_newline
    (originalContent : string) (contentType : option string)
    (keyInfo : option ContentRedesigner.KeyInformation) :
  let audit := ContentAuditor.auditContent originalContent contentType in
  let out := ContentRedesigner.performLightRedesign originalContent audit keyInfo in
  includes out (String newline EmptyString) = false /\
  allChars spaceOrInk out = true /\
  out = trim (collapseWhitespace
                (ContentRedesigner.lightSubstitutions originalContent audit)).
Proof.
  cbn zeta. unfold ContentRedesigner.performLightRedesign.
  destruct (cleanUp_spaces
              (ContentRedesigner.lightSubstitutions originalContent
                 (ContentAuditor.auditContent originalContent contentType)))
    as [Heq Hsp].
  repeat split.
  - apply no_newline_not_included.
    eapply allChars_weaken; [exact spaceOrInk_notNewline|exact Hsp].
  - exact Hsp.
  - exact Heq.
Qed.

End WhitespaceFacts.

Module ComplianceFacts.
Import JS ContentAuditor.

(** The comparison of the compliance scores of two texts of which the first
    has no disclaimer and the second has one. *)
Lemma compliance_with_new_disclaimer (original revised : string) :
  let o := analyzeCompliance original in
  let r := analyzeCompliance revised in
  disclaimers_present o = false -> disclaimers_present r = true ->
  75 <= cr_score r /\
  cr_score o - 20 <= cr_score r /\
  (cr_score r < cr_score o <->
     risk_disclosures o = true /\ educational_framing o = true /\
     risk_disclosures r = false /\ educational_framing r = false).
Proof.
  cbn zeta. intros Ho Hr.
  rewrite (AuditFacts.compliance_score_of_flags original),
          (AuditFacts.compliance_score_of_flags revised).
  rewrite Ho, Hr.
  destruct (risk_disclosures (analyzeCompliance original)),
           (educational_framing (analyzeCompliance original)),
           (risk_disclosures (analyzeCompliance revised)),
           (educational_framing (analyzeCompliance revised));
    cbn; repeat split; intros; try lia; try discriminate;
    try (intuition (lia || discriminate)).
Qed.

End ComplianceFacts.

Module SplitFacts.
Import JS WhitespaceFacts.

Definition notDot (c : ascii) : bool := negb (Ascii.eqb c "."%char).
Definition notDigit (c : ascii) : bool := negb (isDigit c).

(** Some character of [s] satisfies [p]. *)
Fixpoint anyChar (p : ascii -> bool) (s : string) : bool :=
  match s with
  | EmptyString => false
  | String c s' => p c || anyChar p s'
  end.

Lemma allChars_app (p : ascii -> bool) (a b : string) :
  allChars p (a ++ b) = allChars p a && allChars p b.
Proof.
  induction a as [|c a IH]; cbn; [reflexivity|]. now rewrite IH, andb_assoc.
Qed.

Lemma anyChar_not_all (p : ascii -> bool) (s : string) :
  anyChar p s = true -> allChars (fun c => negb (p c)) s = false.
Proof.
  induction s as [|c s IH]; cbn; [discriminate|].
  intros H. destruct (p c); cbn; [reflexivity|]. apply IH, H.
Qed.

(** *** Splitting at dots *)

Lemma splitChar_nonempty (sep : ascii) (s : string) : splitChar sep s <> [].
Proof.
  destruct s as [|c s]; cbn; [discriminate|].
  destruct (Ascii.eqb c sep); [discriminate|].
  destruct (splitChar sep s); discriminate.
Qed.

Lemma splitChar_piece_noDot (s piece : string) :
  In piece (splitChar "."%char s) -> allChars notDot piece = true.
Proof.
  revert piece. induction s as [|c s IH]; intros piece; cbn [splitChar].
  - intros [<-|[]]. reflexivity.
  - destruct (Ascii.eqb c "."%char) eqn:Ec.
    + intros [<-|H]; [reflexivity|apply IH, H].
    + destruct (splitChar "."%char s) as [|p0 ps].
      * intros [<-|[]]. cbn [allChars]. unfold notDot. now rewrite Ec.
      * intros [<-|H].
        -- cbn [allChars]. unfold notDot at 1. rewrite Ec. cbn [negb andb].
           apply IH. now left.
        -- apply IH. now right.
Qed.

Lemma splitChar_app (p r : string) :
  allChars notDot p = true ->
  splitChar "."%char (p ++ String "."%char r) = p :: splitChar "."%char r.
Proof.
  induction p as [|c p IH]; cbn [append splitChar allChars]; intros H.
  - reflexivity.
  - apply andb_true_iff in H. destruct H as [Hc Hp].
    unfold notDot in Hc. apply negb_true_iff in Hc.
    change (String c p ++ String "."%char r) with (String c (p ++ String "."%char r)).
    cbn [splitChar]. rewrite Hc, (IH Hp). reflexivity.
Qed.

Lemma join_cons (sep x : string) (xs : list string) :
  xs <> [] -> join sep (x :: xs) = x ++ sep ++ join sep xs.
Proof. destruct xs; [congruence|reflexivity]. Qed.

Lemma join_splitChar (s : string) : join "." (splitChar "."%char s) = s.
Proof.
  induction s as [|c s IH]; cbn [splitChar]; [reflexivity|].
  destruct (Ascii.eqb_spec c "."%char) as [->|Hc].
  - rewrite join_cons by apply splitChar_nonempty. now rewrite IH.
  - pose proof (splitChar_nonempty "."%char s) as Hne.
    destruct (splitChar "."%char s) as [|p0 ps]; [congruence|].
    destruct ps as [|p1 ps].
    + cbn in IH |- *. now rewrite IH.
    + rewrite join_cons in IH |- * by discriminate.
      rewrite <- IH. reflexivity.
Qed.

(** *** Splitting at paragraph breaks *)

Definition pb : string := ContentRedesigner.paragraphBreak.

(** No paragraph break starts inside [p] when a break follows it. *)
Fixpoint headPara (p : string) : bool :=
  match p with
  | EmptyString => true
  | String c p' =>
      negb (Ascii.eqb c newline &&
            match p' with
            | EmptyString => true
            | String d _ => Ascii.eqb d newline
            end)
      && headPara p'
  end.

Lemma startsWith_break (c : ascii) (rest : string) :
  startsWith (String c rest) pb =
  Ascii.eqb c newline &&
  match rest with
  | EmptyString => false
  | String d _ => Ascii.eqb d newline
  end.
Proof.
  unfold startsWith, pb, ContentRedesigner.paragraphBreak, ContentGenerator.paragraphBreak.
  cbn [startsWithG]. rewrite (Ascii.eqb_sym newline c).
  destruct rest as [|d rest]; [reflexivity|].
  rewrite (Ascii.eqb_sym newline d), andb_true_r. reflexivity.
Qed.

Lemma split_break_here (q : string) : split pb (pb ++ q) = EmptyString :: split pb q.
Proof. reflexivity. Qed.

Lemma split_break_app (p q : string) :
  headPara p = true -> split pb (p ++ pb ++ q) = p :: split pb q.
Proof.
  induction p as [|c p IH]; intros H.
  - apply split_break_here.
  - cbn [headPara] in H. apply andb_true_iff in H. destruct H as [Hc Hp].
    specialize (IH Hp).
    change (String c p ++ pb ++ q) with (String c (p ++ pb ++ q)).
    unfold split in *. cbn [splitFrom].
    rewrite startsWith_break.
    assert (Hno : Ascii.eqb c newline &&
                  match p ++ pb ++ q with
                  | EmptyString => false
                  | String d _ => Ascii.eqb d newline
                  end = false).
    { apply negb_true_iff in Hc. destruct (Ascii.eqb c newline); [|reflexivity].
      cbn in Hc |- *. destruct p as [|d p]; [discriminate Hc|exact Hc]. }
    rewrite Hno, IH. reflexivity.
Qed.

Lemma split_break_sound_upto (n : nat) : forall s,
  (String.length s < n)%nat ->
  join pb (split pb s) = s /\ split pb s <> [].
Proof.
  induction n as [|n IH]; intros s Hlen; [lia|].
  destruct s as [|c s]; [split; [reflexivity|discriminate]|].
  unfold split. cbn [splitFrom]. rewrite startsWith_break.
  destruct (Ascii.eqb_spec c newline) as [->|Hc]; cbn [andb].
  - destruct s as [|d s].
    + split; [reflexivity|discriminate].
    + destruct (Ascii.eqb_spec d newline) as [->|Hd].
      * cbn [String.length Nat.pred pb ContentRedesigner.paragraphBreak
             ContentGenerator.paragraphBreak splitFrom].
        destruct (IH s) as [Hj Hne]; [cbn in Hlen; lia|].
        unfold split in Hj, Hne. split; [|discriminate].
        rewrite join_cons by exact Hne. now rewrite Hj.
      * destruct (IH (String d s)) as [Hj Hne]; [cbn in Hlen |- *; lia|].
        unfold split in Hj, Hne.
        destruct (splitFrom pb 0 (String d s)) as [|p0 ps]; [congruence|].
        split; [|discriminate].
        destruct ps as [|p1 ps].
        -- cbn in Hj |- *. now rewrite Hj.
        -- rewrite join_cons in Hj |- * by discriminate. rewrite <- Hj. reflexivity.
  - destruct (IH s) as [Hj Hne]; [cbn in Hlen; lia|].
    unfold split in Hj, Hne.
    destruct (splitFrom pb 0 s) as [|p0 ps]; [congruence|].
    split; [|discriminate].
    destruct ps as [|p1 ps].
    + cbn in Hj |- *. now rewrite Hj.
    + rewrite join_cons in Hj |- * by discriminate. rewrite <- Hj. reflexivity.
Qed.

Lemma join_split_break (s : string) : join pb (split pb s) = s.
Proof. apply (split_break_sound_upto (S (String.length s))). lia. Qed.

Lemma split_break_nonempty (s : string) : split pb s <> [].
Proof. apply (split_break_sound_upto (S (String.length s))). lia. Qed.

End SplitFacts.

Module WeaveFacts.
Import JS WhitespaceFacts SplitFacts ContentRedesigner.

(** [t] occurs in [r]. *)
Definition occurs (t r : string) : Prop := exists a b, r = a ++ t ++ b.

Lemma occurs_after (a t r : string) : occurs t r -> occurs t (a ++ r).
Proof.
  intros [u [v ->]]. exists (a ++ u), v. now rewrite Text.app_assoc.
Qed.

Lemma occurs_includes (t s : string) : occurs t s -> includes s t = true.
Proof. intros H. apply Text.includes_occurs, H. Qed.

Definition dot : string := String "."%char EmptyString.

(** *** Where the two insertions land *)

Lemma insertStatistic_at (p0 p1 r x : string) :
  allChars notDot p0 = true -> allChars notDot p1 = true ->
  insertStatistic (p0 ++ String "."%char (p1 ++ String "."%char r)) x =
  p0 ++ String "."%char (p1 ++ String "."%char (String " "%char (x ++ String "."%char r))).
Proof.
  intros H0 H1. unfold insertStatistic.
  rewrite (splitChar_app p0 _ H0), (splitChar_app p1 _ H1).
  pose proof (splitChar_nonempty "."%char r) as Hne.
  pose proof (join_splitChar r) as Hj.
  destruct (splitChar "."%char r) as [|q0 qs]; [congruence|].
  cbn [List.length Nat.ltb Nat.leb]. unfold spliceIn. cbn [firstn skipn List.app].
  rewrite !join_cons by discriminate. rewrite Hj. reflexivity.
Qed.

Lemma insertFact_at (p q f : string) :
  headPara p = true ->
  insertFact (p ++ pb ++ q) f = p ++ pb ++ f ++ pb ++ q.
Proof.
  intros Hp. unfold insertFact. fold pb.
  rewrite (split_break_app p q Hp).
  pose proof (split_break_nonempty q) as Hne.
  pose proof (join_split_break q) as Hj.
  destruct (split pb q) as [|q0 qs]; [congruence|].
  cbn [List.length Nat.ltb Nat.leb]. unfold spliceIn. cbn [firstn skipn List.app].
  rewrite !join_cons by discriminate. rewrite Hj. reflexivity.
Qed.

(** *** An occurrence that cannot touch a prefix *)

Lemma suffix_of_dotted (q a m : string) :
  q ++ dot = a ++ m -> m <> EmptyString -> exists m0, m = m0 ++ dot.
Proof.
  intros H Hm. destruct (Text.app_eq_app q dot a m H) as [[k [-> Hk]]|[k [-> Hk]]].
  - exists k. exact Hk.
  - destruct k as [|c k].
    + exists EmptyString. cbn in Hk. now rewrite <- Hk.
    + unfold dot in Hk. cbn in Hk. injection Hk as _ Hk.
      destruct k; [|discriminate]. cbn in Hk. congruence.
Qed.

Lemma dot_is_not_notDot (a b : string) : allChars notDot (a ++ dot ++ b) = false.
Proof.
  rewrite allChars_app.
  assert (Hd : allChars notDot (dot ++ b) = false) by reflexivity.
  rewrite Hd. apply andb_false_r.
Qed.

Lemma occurs_beyond (q r x : string) :
  allChars notDigit (q ++ dot) = true ->
  allChars notDot x = true -> anyChar isDigit x = true ->
  occurs x ((q ++ dot) ++ r) -> occurs x r.
Proof.
  intros Hnd Hx Hdig [a [b Hab]].
  symmetry in Hab.
  destruct (Text.app_eq_app a (x ++ b) (q ++ dot) r Hab) as [[m [-> Hr]]|[m [Hq Hm]]].
  - (* the prefix ends inside [a] *)
    exists m, b. exact Hr.
  - (* [a] ends inside the prefix *)
    destruct (Text.app_eq_app x b m r Hm) as [[k [-> Hk]]|[k [-> Hk]]].
    + (* [x] covers the rest of the prefix *)
      destruct m as [|c m].
      * exists EmptyString, b. cbn in Hk |- *. now rewrite Hk.
      * destruct (suffix_of_dotted q a (String c m) Hq) as [m0 Hm0]; [discriminate|].
        rewrite Hm0, Text.app_assoc in Hx. rewrite dot_is_not_notDot in Hx. discriminate.
    + (* [x] lies within the prefix *)
      rewrite Hq, !allChars_app in Hnd.
      apply anyChar_not_all in Hdig. fold notDigit in Hdig.
      rewrite Hdig in Hnd. cbn [andb] in Hnd.
      rewrite andb_false_r in Hnd. discriminate.
Qed.

(** *** The two loops of [weaveInKeyInformation] *)

Definition weaveStatistic (enhanced stat : string) : string :=
  if negb (includes enhanced stat) then insertStatistic enhanced stat else enhanced.

Definition weaveFact (enhanced fact : string) : string :=
  if negb (includes enhanced fact) then insertFact enhanced fact else enhanced.

Lemma weave_unfold (content : string) (k : KeyInformation) :
  weaveInKeyInformation content k =
  fold_left weaveFact (slice0 2 (facts k))
            (fold_left weaveStatistic (slice0 3 (statistics k)) content).
Proof. reflexivity. Qed.

Definition statisticLike (x : string) : Prop :=
  allChars notDot x = true /\ anyChar isDigit x = true.

Lemma dotted_prefix (p0 p1 r : string) :
  p0 ++ String "."%char (p1 ++ String "."%char r) = ((p0 ++ dot ++ p1) ++ dot) ++ r.
Proof. unfold dot. rewrite !Text.app_assoc. reflexivity. Qed.

Lemma occurs_after_statistic (x t r : string) :
  occurs t r -> occurs t (String " "%char (x ++ String "."%char r)).
Proof.
  intros [u [v ->]]. exists (String " "%char (x ++ dot ++ u)), v.
  change (String " "%char (x ++ dot ++ u) ++ t ++ v)
    with (String " "%char ((x ++ dot ++ u) ++ t ++ v)).
  f_equal. rewrite !Text.app_assoc. reflexivity.
Qed.

Lemma statistics_loop (p0 p1 : string) (l : list string) :
  allChars notDot p0 = true -> allChars notDot p1 = true ->
  allChars notDigit ((p0 ++ dot ++ p1) ++ dot) = true ->
  (forall x, In x l -> statisticLike x) ->
  forall r, exists r',
    fold_left weaveStatistic l (p0 ++ String "."%char (p1 ++ String "."%char r)) =
    p0 ++ String "."%char (p1 ++ String "."%char r') /\
    (forall t, occurs t r -> occurs t r') /\
    (forall x, In x l -> occurs x r').
Proof.
  intros H0 H1 Hnd. induction l as [|x l IH]; intros Hl r.
  - exists r. cbn. repeat split; auto. intros x [].
  - cbn [fold_left]. unfold weaveStatistic at 2.
    destruct (Hl x (or_introl eq_refl)) as [Hxdot Hxdig].
    destruct (includes (p0 ++ String "."%char (p1 ++ String "."%char r)) x) eqn:Hinc;
      cbn [negb].
    + (* already there: then it is there past the second dot *)
      assert (Hocc : occurs x r).
      { apply (occurs_beyond (p0 ++ dot ++ p1) r x Hnd Hxdot Hxdig).
        rewrite <- dotted_prefix. apply Text.includes_occurs, Hinc. }
      destruct (IH (fun y Hy => Hl y (or_intror Hy)) r) as [r' [Hr' [Hkeep Hall]]].
      exists r'. repeat split; auto.
      intros y [<-|Hy]; auto.
    + rewrite (insertStatistic_at p0 p1 r x H0 H1).
      destruct (IH (fun y Hy => Hl y (or_intror Hy))
                   (String " "%char (x ++ String "."%char r))) as [r' [Hr' [Hkeep Hall]]].
      exists r'. repeat split; auto.
      * intros t Ht. apply Hkeep, occurs_after_statistic, Ht.
      * intros y [<-|Hy]; auto. apply Hkeep.
        exists (String " "%char EmptyString), (String "."%char r). reflexivity.
Qed.

Lemma facts_loop (p : string) (l : list string) :
  headPara p = true ->
  forall q, exists q',
    fold_left weaveFact l (p ++ pb ++ q) = p ++ pb ++ q' /\
    (forall t, occurs t q -> occurs t q').
Proof.
  intros Hp. induction l as [|f l IH]; intros q.
  - exists q. cbn. split; auto.
  - cbn [fold_left]. unfold weaveFact at 2.
    destruct (includes (p ++ pb ++ q) f); cbn [negb].
    + apply IH.
    + rewrite (insertFact_at p q f Hp).
      destruct (IH (f ++ pb ++ q)) as [q' [Hq' Hkeep]].
      exists q'. split; [exact Hq'|].
      intros t Ht. apply Hkeep.
      apply (occurs_after (f ++ pb) t q) in Ht. now rewrite Text.app_assoc in Ht.
Qed.

End WeaveFacts.

Module StatisticFacts.
Import JS WhitespaceFacts SplitFacts ContentRedesigner.

Lemma in_firstn {A} (n : nat) (l : list A) (x : A) : In x (firstn n l) -> In x l.
Proof.
  revert l. induction n as [|n IH]; intros [|y l]; cbn; try tauto.
  intros [->|H]; [now left|right; apply IH, H].
Qed.

Lemma digit_is_ink (c : ascii) : isDigit c = true -> isWhiteSpace c = false.
Proof.
  destruct c as [[] [] [] [] [] [] [] []]; intros H;
    first [reflexivity | discriminate H].
Qed.

Lemma trimStart_any (p : ascii -> bool) (s : string) :
  (forall c, p c = true -> isWhiteSpace c = false) ->
  anyChar p s = true -> anyChar p (trimStart s) = true.
Proof.
  intros Hp. induction s as [|c s IH]; cbn [trimStart anyChar]; [discriminate|].
  intros H. destruct (isWhiteSpace c) eqn:Ews; [|exact H].
  apply orb_true_iff in H. destruct H as [H|H]; [|apply IH, H].
  rewrite (Hp c H) in Ews. discriminate.
Qed.

Lemma trimEnd_any (p : ascii -> bool) (s : string) :
  (forall c, p c = true -> isWhiteSpace c = false) ->
  anyChar p s = true -> anyChar p (trimEnd s) = true.
Proof.
  intros Hp. induction s as [|c s IH]; cbn [trimEnd anyChar]; [discriminate|].
  intros H. apply orb_true_iff in H. destruct H as [H|H].
  - destruct (trimEnd s); [rewrite (Hp c H)|]; cbn [anyChar]; now rewrite H.
  - specialize (IH H). destruct (trimEnd s) as [|d r]; [discriminate IH|].
    cbn [anyChar] in *. rewrite IH. apply orb_true_r.
Qed.

Lemma trim_any (p : ascii -> bool) (s : string) :
  (forall c, p c = true -> isWhiteSpace c = false) ->
  anyChar p s = true -> anyChar p (trim s) = true.
Proof. intros Hp H. unfold trim. apply trimEnd_any, trimStart_any; assumption. Qed.

Lemma adjacent_any (p q : ascii -> bool) (s : string) :
  adjacent p q s = true -> anyChar p s = true /\ anyChar q s = true.
Proof.
  induction s as [|c s IH]; cbn [adjacent]; [discriminate|].
  destruct s as [|d s]; [discriminate|].
  intros H. apply orb_true_iff in H. destruct H as [H|H].
  - apply andb_true_iff in H. destruct H as [Hc Hd].
    cbn [anyChar]. rewrite Hc, Hd. split; [reflexivity|]. now rewrite orb_true_r.
  - destruct (IH H) as [Hp Hq]. cbn [anyChar] in *. rewrite Hp, Hq.
    split; apply orb_true_r.
Qed.

Lemma fourDigits_any (seen : nat) (s : string) :
  fourDigitsFrom seen s = true -> anyChar isDigit s = true.
Proof.
  revert seen. induction s as [|c s IH]; intros seen; cbn [fourDigitsFrom anyChar];
    [discriminate|].
  destruct (isDigit c); [reflexivity|]. apply IH.
Qed.

Lemma hasDecimal_any (s : string) : hasDecimal s = true -> anyChar isDigit s = true.
Proof.
  induction s as [|c s IH]; [discriminate|].
  destruct s as [|d s]; [discriminate|].
  destruct s as [|e s]; [discriminate|].
  intros H. change (hasDecimal (String c (String d (String e s))))
    with ((isDigit c && Ascii.eqb d "."%char && isDigit e)
          || hasDecimal (String d (String e s))) in H.
  apply orb_true_iff in H. destruct H as [H|H].
  - apply andb_true_iff in H. destruct H as [H _].
    apply andb_true_iff in H. destruct H as [H _].
    cbn [anyChar]. now rewrite H.
  - change (anyChar isDigit (String c (String d (String e s))))
      with (isDigit c || anyChar isDigit (String d (String e s))).
    rewrite (IH H). apply orb_true_r.
Qed.

Lemma statisticPattern_digit (sentence : string) :
  statisticPattern sentence = true -> anyChar isDigit sentence = true.
Proof.
  unfold statisticPattern, hasPercentage, hasFourDigits. intros H.
  repeat (apply orb_true_iff in H; destruct H as [H|H]).
  - apply (adjacent_any _ _ _ H).
  - apply (adjacent_any _ _ _ H).
  - apply (fourDigits_any _ _ H).
  - apply (hasDecimal_any _ H).
Qed.

(** Every statistic that the extraction collects is free of dots and holds
    a digit. *)
Lemma statistics_are_statisticLike (content x : string) :
  In x (extractStatistics content) -> WeaveFacts.statisticLike x.
Proof.
  unfold extractStatistics, slice0, trimmedSentences. intros H.
  apply in_firstn in H. apply in_map_iff in H. destruct H as [y [<- Hy]].
  apply filter_In in Hy. destruct Hy as [Hy Hpat].
  apply filter_In in Hy. destruct Hy as [Hy _].
  apply in_map_iff in Hy. destruct Hy as [z [<- Hz]].
  split.
  - apply trim_keeps, trim_keeps. apply (splitChar_piece_noDot content z Hz).
  - apply trim_any; [exact digit_is_ink|]. apply statisticPattern_digit, Hpat.
Qed.

End StatisticFacts.

Module ShapeFacts.
Import JS WhitespaceFacts SplitFacts.

(** The text before the first dot, and the text after it. *)
Fixpoint uptoDot (s : string) : option (string * string) :=
  match s with
  | EmptyString => None
  | String c s' =>
      if Ascii.eqb c "."%char then Some (EmptyString, s')
      else match uptoDot s' with
           | Some (a, b) => Some (String c a, b)
           | None => None
           end
  end.

(** The text before the first paragraph break, and the text after it. *)
Fixpoint uptoBreak (s : string) : option (string * string) :=
  match s with
  | EmptyString => None
  | String c s' =>
      if startsWith s pb
      then Some (EmptyString, match s' with String _ s'' => s'' | EmptyString => EmptyString end)
      else match uptoBreak s' with
           | Some (a, b) => Some (String c a, b)
           | None => None
           end
  end.

Lemma uptoDot_sound (s a b : string) :
  uptoDot s = Some (a, b) ->
  s = a ++ String "."%char b /\ allChars notDot a = true.
Proof.
  revert a. induction s as [|c s IH]; intros a; cbn [uptoDot]; [discriminate|].
  destruct (Ascii.eqb_spec c "."%char) as [->|Hc].
  - intros H. injection H as <- <-. split; reflexivity.
  - destruct (uptoDot s) as [[a' b']|]; [|discriminate].
    intros H. injection H as <- <-.
    destruct (IH a' eq_refl) as [-> Ha]. split; [reflexivity|].
    cbn [allChars]. rewrite Ha. unfold notDot.
    apply Ascii.eqb_neq in Hc. now rewrite Hc.
Qed.

Lemma uptoBreak_sound (s a b : string) :
  uptoBreak s = Some (a, b) ->
  s = a ++ pb ++ b /\ headPara a = true.
Proof.
  revert a. induction s as [|c s IH]; intros a; cbn [uptoBreak]; [discriminate|].
  rewrite startsWith_break.
  destruct (Ascii.eqb c newline &&
            match s with EmptyString => false | String d _ => Ascii.eqb d newline end)
    eqn:Ehere.
  - intros H. injection H as <- <-.
    apply andb_true_iff in Ehere. destruct Ehere as [Hc Hd].
    apply Ascii.eqb_eq in Hc. subst c.
    destruct s as [|d s]; [discriminate|].
    apply Ascii.eqb_eq in Hd. subst d. split; reflexivity.
  - destruct (uptoBreak s) as [[a' b']|]; [|discriminate].
    intros H. injection H as <- <-.
    destruct (IH a' eq_refl) as [-> Ha]. split; [reflexivity|].
    cbn [headPara]. rewrite Ha, andb_true_r. apply negb_true_iff.
    destruct (Ascii.eqb c newline); [|reflexivity]. cbn [andb] in *.
    destruct a' as [|d a']; [discriminate Ehere|exact Ehere].
Qed.

(** The shape that lets both insertions land clear of one another: a first
    paragraph [p] before the first dot, and no digit up to the second dot. *)
Definition shapeOf (g : string) : option (string * string * string * string) :=
  match uptoDot g with
  | Some (p0, g1) =>
      match uptoDot g1 with
      | Some (p1, r) =>
          match uptoBreak p0 with
          | Some (p, m0) =>
              if allChars notDigit p0 && allChars notDigit p1
              then Some (p, m0, p1, r) else None
          | None => None
          end
      | None => None
      end
  | None => None
  end.

Definition shaped (g : string) : bool :=
  match shapeOf g with Some _ => true | None => false end.

Lemma shaped_sound (g : string) :
  shaped g = true ->
  exists p m0 p1 r,
    g = (p ++ pb ++ m0) ++ String "."%char (p1 ++ String "."%char r) /\
    headPara p = true /\
    allChars notDot (p ++ pb ++ m0) = true /\ allChars notDot p1 = true /\
    allChars notDigit (((p ++ pb ++ m0) ++ WeaveFacts.dot ++ p1) ++ WeaveFacts.dot) = true.
Proof.
  unfold shaped, shapeOf. intros H.
  destruct (uptoDot g) as [[p0 g1]|] eqn:E0; [|discriminate].
  destruct (uptoDot g1) as [[p1 r]|] eqn:E1; [|discriminate].
  destruct (uptoBreak p0) as [[p m0]|] eqn:Eb; [|discriminate].
  destruct (allChars notDigit p0 && allChars notDigit p1) eqn:Ed; [|discriminate].
  apply uptoDot_sound in E0. destruct E0 as [-> Hp0].
  apply uptoDot_sound in E1. destruct E1 as [-> Hp1].
  apply uptoBreak_sound in Eb. destruct Eb as [-> Hp].
  apply andb_true_iff in Ed. destruct Ed as [Hd0 Hd1].
  exists p, m0, p1, r. repeat split; try assumption.
  rewrite (allChars_app notDigit ((p ++ pb ++ m0) ++ WeaveFacts.dot ++ p1) WeaveFacts.dot),
          (allChars_app notDigit (p ++ pb ++ m0) (WeaveFacts.dot ++ p1)),
          (allChars_app notDigit WeaveFacts.dot p1), Hd0, Hd1.
  reflexivity.
Qed.

End ShapeFacts.

Module GeneratorFacts.
Import JS ContentGenerator.

Inductive Kind := Blog | Email | LandingPage | MarketUpdate | Webpage.

Definition templateOf (k : Kind) (topic : string) : string :=
  match k with
  | Blog => template_blog topic
  | Email => template_email topic
  | LandingPage => template_landing_page topic
  | MarketUpdate => template_market_update topic
  | Webpage => template_webpage topic
  end.

(** The text that three passes over the template of kind [k] produce for
    the topic [theme]: each pass interpolates the text of the pass before as
    the topic. *)
Definition generated (k : Kind) (theme : string) : string :=
  addRequiredDisclaimers
    (applyTechnicalPolish
       (templateOf k (enhanceEngagement (templateOf k (templateOf k theme))))).

(** The topics that [extractCoreTheme] can hand to the generator. *)
Definition themes : list string :=
  [ "Gold IRA benefits and considerations";
    "Silver investment fundamentals";
    "Precious metals as inflation hedge";
    "Precious metals in retirement planning";
    "Precious metals investment education" ].

Lemma template_of_type (contentType : string) :
  isInherited contentType = false ->
  exists k, forall topic, getBaseTemplate contentType topic = Own (templateOf k topic).
Proof.
  intros Hinh.
  assert (Hassoc : forall topic,
    assoc (templates topic) contentType =
    if String.eqb "blog" contentType then Some (template_blog topic)
    else if String.eqb "email" contentType then Some (template_email topic)
    else if String.eqb "landing_page" contentType then Some (template_landing_page topic)
    else if String.eqb "market_update" contentType then Some (template_market_update topic)
    else if String.eqb "webpage" contentType then Some (template_webpage topic)
    else None) by reflexivity.
  unfold getBaseTemplate, getProperty.
  destruct (String.eqb "blog" contentType) eqn:E1.
  { exists Blog. intros topic. now rewrite Hassoc. }
  destruct (String.eqb "email" contentType) eqn:E2.
  { exists Email. intros topic. now rewrite Hassoc. }
  destruct (String.eqb "landing_page" contentType) eqn:E3.
  { exists LandingPage. intros topic. now rewrite Hassoc. }
  destruct (String.eqb "market_update" contentType) eqn:E4.
  { exists MarketUpdate. intros topic. now rewrite Hassoc. }
  destruct (String.eqb "webpage" contentType) eqn:E5.
  { exists Webpage. intros topic. now rewrite Hassoc. }
  exists Blog. intros topic. now rewrite Hassoc, Hinh.
Qed.

Lemma persona_is_guidance (key : string) :
  isInherited key = false ->
  exists g, BrandVoiceEngine.getPersonaGuidance key = Own g.
Proof.
  intros Hinh. unfold BrandVoiceEngine.getPersonaGuidance, getProperty.
  destruct (assoc BrandVoiceEngine.guidanceMap key) as [g|].
  - exists g. reflexivity.
  - rewrite Hinh. exists BrandVoiceEngine.security_seekers. reflexivity.
Qed.

Lemma theme_unchanged (theme : string) :
  In theme themes -> BrandVoiceEngine.applyBrandVoiceTransformation theme = theme.
Proof.
  intros [<-|[<-|[<-|[<-|[<-|[]]]]]]; vm_compute; reflexivity.
Qed.

(** With a content type and an audience that name no inherited member, the
    generator returns, and returns the text [generated] for some kind. *)
Lemma generateContent_returns (request : ContentRequest) :
  In (topic request) themes ->
  isInherited (content_type request) = false ->
  isInherited (orElse (target_audience request) "security_seekers") = false ->
  exists k out,
    generateContent request = Some out /\ content out = generated k (topic request).
Proof.
  intros Htheme Hct Haud.
  destruct (template_of_type (content_type request) Hct) as [k Hk].
  destruct (persona_is_guidance _ Haud) as [g Hg].
  exists k. unfold generateContent.
  rewrite (theme_unchanged _ Htheme), Hg.
  assert (Hthrows : forall b : bool,
    buildFrameworkPromptThrows (if b then None else Some (Own g)) = false)
    by (intros []; reflexivity).
  rewrite Hthrows.
  unfold generateTemplateContent. rewrite !Hk.
  eexists. split; reflexivity.
Qed.

Lemma generated_is_shaped (k : Kind) (theme : string) :
  In theme themes -> ShapeFacts.shaped (generated k theme) = true.
Proof.
  intros [<-|[<-|[<-|[<-|[<-|[]]]]]]; destruct k; vm_compute; reflexivity.
Qed.

End GeneratorFacts.

Module RedesignFacts.
Import JS ContentAuditor ContentRedesigner.
Import WhitespaceFacts SplitFacts WeaveFacts.

(** Woven into a text of the generator's shape, each of the first three
    statistics is found in the result. *)
Lemma weave_keeps_statistics (g : string) (k : KeyInformation) :
  ShapeFacts.shaped g = true ->
  (forall x, In x (slice0 3 (statistics k)) -> statisticLike x) ->
  forall x, In x (slice0 3 (statistics k)) ->
  includes (weaveInKeyInformation g k) x = true.
Proof.
  intros Hshape Hlike x Hx.
  destruct (ShapeFacts.shaped_sound g Hshape)
    as [p [m0 [p1 [r [-> [Hp [Hd0 [Hd1 Hnd]]]]]]]].
  rewrite weave_unfold.
  destruct (statistics_loop (p ++ pb ++ m0) p1 (slice0 3 (statistics k))
                            Hd0 Hd1 Hnd Hlike r) as [r' [-> [_ Hall]]].
  assert (Hocc : occurs x (m0 ++ String "."%char (p1 ++ String "."%char r'))).
  { specialize (Hall x Hx).
    apply (occurs_after (m0 ++ dot ++ p1 ++ dot) x r') in Hall.
    unfold dot in Hall. rewrite !Text.app_assoc in Hall. exact Hall. }
  rewrite !Text.app_assoc.
  destruct (facts_loop p (slice0 2 (facts k)) Hp
                       (m0 ++ String "."%char (p1 ++ String "."%char r')))
    as [q' [-> Hkeep]].
  apply occurs_includes.
  pose proof (occurs_after (p ++ pb) x q' (Hkeep x Hocc)) as Hfinal.
  now rewrite Text.app_assoc in Hfinal.
Qed.

Lemma coreTheme_listed (content : string) :
  In (extractCoreTheme content) GeneratorFacts.themes.
Proof.
  unfold extractCoreTheme, GeneratorFacts.themes.
  destruct (includes (toLowerCase content) "gold ira"); [cbn; tauto|].
  destruct (includes (toLowerCase content) "silver investing"); [cbn; tauto|].
  destruct (includes (toLowerCase content) "inflation"); [cbn; tauto|].
  destruct (includes (toLowerCase content) "retirement"); cbn; tauto.
Qed.

(** The complete redesign returns the generated text with the key
    information woven in, for a content type and an audience that name no
    inherited member. *)
Lemma complete_redesign_returns (originalContent : string) (audit : ContentAudit)
    (request : RedesignRequest) (k : KeyInformation) :
  isInherited (orElse (content_type request) "blog") = false ->
  isInherited (orElse (target_audience request) "security_seekers") = false ->
  exists kind,
    performCompleteRedesign originalContent audit request (Some k) =
    Some (weaveInKeyInformation
            (GeneratorFacts.generated kind (extractCoreTheme originalContent)) k).
Proof.
  intros Hct Haud. unfold performCompleteRedesign.
  set (newContentRequest := {|
    ContentGenerator.content_type := orElse (content_type request) "blog";
    ContentGenerator.topic := extractCoreTheme originalContent;
    ContentGenerator.target_audience :=
      Some (orElse (target_audience request) "security_seekers");
    ContentGenerator.length_target := Some (determineLength originalContent);
    ContentGenerator.include_cta :=
      includes (toLowerCase originalContent) "call" ||
      includes (toLowerCase originalContent) "contact" |}).
  destruct (GeneratorFacts.generateContent_returns newContentRequest)
    as [kind [out [Hgen Hcontent]]].
  - apply coreTheme_listed.
  - exact Hct.
  - cbn [newContentRequest ContentGenerator.target_audience].
    destruct (orElse (target_audience request) "security_seekers") eqn:E; exact Haud.
  - exists kind. rewrite Hgen, Hcontent. reflexivity.
Qed.

Lemma some_inj {A} (a b : A) : Some a = Some b -> a = b.
Proof. intros H. now injection H. Qed.

Section AnyModerate.

Variable moderate :
  string -> ContentAudit -> RedesignRequest -> option KeyInformation -> string.

(** An intensity other than light and complete, or none, runs the moderate
    cascade. *)
Lemma other_intensity_runs_moderate (originalContent : string) (audit : ContentAudit)
    (request : RedesignRequest) (k : option KeyInformation) :
  String.eqb (orElse (redesign_intensity request) "moderate") "light" = false ->
  String.eqb (orElse (redesign_intensity request) "moderate") "complete" = false ->
  performRedesign moderate originalContent audit request k =
  Some (moderate originalContent audit request k).
Proof.
  intros Hl Hc. unfold performRedesign. rewrite Hl, Hc.
  destruct (String.eqb (orElse (redesign_intensity request) "moderate") "moderate");
    reflexivity.
Qed.

Lemma light_intensity_runs_light (originalContent : string) (audit : ContentAudit)
    (request : RedesignRequest) (k : option KeyInformation) :
  redesign_intensity request = Some "light" ->
  performRedesign moderate originalContent audit request k =
  Some (performLightRedesign originalContent audit k).
Proof. intros H. unfold performRedesign. rewrite H. reflexivity. Qed.

Lemma complete_intensity_runs_complete (originalContent : string) (audit : ContentAudit)
    (request : RedesignRequest) (k : option KeyInformation) :
  redesign_intensity request = Some "complete" ->
  performRedesign moderate originalContent audit request k =
  performCompleteRedesign originalContent audit request k.
Proof. intros H. unfold performRedesign. rewrite H. reflexivity. Qed.

(** The two audits of a result are the audits of the original and of the
    revised text. *)
Lemma redesign_result_audits (request : RedesignRequest) (result : RedesignResult) :
  redesignContent moderate request = Some result ->
  original_audit result =
    auditContent (original_content request) (content_type request) /\
  redesigned_audit result =
    auditContent (redesigned_content result) (content_type request).
Proof.
  unfold redesignContent.
  destruct (performRedesign moderate (original_content request) _ request _) as [revised|];
    [|discriminate].
  intros H. apply some_inj in H. rewrite <- H. split; reflexivity.
Qed.

(** C5 (as amended).  For every original text, a complete redesign with
    key-information preservation on (and a content type and an audience that
    name no inherited member, so that generation returns) returns a text that
    holds, verbatim, each of the first three statistics extracted from the
    original. *)
Theorem complete_redesign_keeps_three_statistics (request : RedesignRequest) :
  redesign_intensity request = Some "complete" ->
  preserve_key_information request <> Some false ->
  isInherited (orElse (content_type request) "blog") = false ->
  isInherited (orElse (target_audience request) "security_seekers") = false ->
  exists result,
    redesignContent moderate request = Some result /\
    forall stat,
      In stat (slice0 3 (extractStatistics (original_content request))) ->
      includes (redesigned_content result) stat = true.
Proof.
  intros Hint Hkeep Hct Haud. unfold redesignContent.
  rewrite complete_intensity_runs_complete by exact Hint.
  assert (Hk : match preserve_key_information request with
               | Some false => None
               | _ => Some (extractKeyInformation (original_content request))
               end = Some (extractKeyInformation (original_content request))).
  { destruct (preserve_key_information request) as [[|]|]; congruence. }
  rewrite Hk.
  destruct (complete_redesign_returns (original_content request)
              (auditContent (original_content request) (content_type request))
              request (extractKeyInformation (original_content request)) Hct Haud)
    as [kind ->].
  eexists. split; [reflexivity|]. cbn [redesigned_content].
  intros stat Hstat. apply weave_keeps_statistics.
  - apply GeneratorFacts.generated_is_shaped, coreTheme_listed.
  - intros x Hx. cbn [extractKeyInformation statistics] in Hx.
    apply (StatisticFacts.statistics_are_statisticLike (original_content request)).
    apply (StatisticFacts.in_firstn 3 _ _ Hx).
  - exact Hstat.
Qed.

End AnyModerate.

(** A stand-in for the moderate cascade in requests that do not reach it. *)
Definition unreached : string -> ContentAudit -> RedesignRequest ->
                       option KeyInformation -> string :=
  fun content _ _ _ => content.

Definition requestFor (text intensity : string) : RedesignRequest :=
  {| original_content := text;
     content_type := None;
     target_audience := None;
     preserve_key_information := Some true;
     redesign_intensity := Some intensity;
     specific_requirements := [] |}.


(** A text whose educational markers overlap a pressure tactic, and whose
    only mention of risk is the aggressive term risk-free. *)
Definition overlappingMarkers : string :=
  "Education information evaluatexpires soon. risk-free fluctuate".

(** C4, as it was stated, fails on [overlappingMarkers] at light intensity:
    the disclaimer goes from absent to present and the compliance score
    falls from 95 to 75, because removing [expires soon] breaks [evaluate]
    and replacing [risk-free] removes [risk]. *)
Lemma light_redesign_lowers_compliance :
  exists result,
    redesignContent unreached (requestFor overlappingMarkers "light") = Some result /\
    disclaimers_present
      (complianceAnalysis (detailed_analysis (original_audit result))) = false /\
    disclaimers_present
      (complianceAnalysis (detailed_analysis (redesigned_audit result))) = true /\
    cr_score (complianceAnalysis (detailed_analysis (original_audit result))) = 95 /\
    cr_score (complianceAnalysis (detailed_analysis (redesigned_audit result))) = 75 /\
    cr_score (complianceAnalysis (detailed_analysis (redesigned_audit result)))
    < cr_score (complianceAnalysis (detailed_analysis (original_audit result))).
Proof.
  eexists. split; [reflexivity|]. vm_compute. repeat split; reflexivity.
Qed.

Definition fourFigures : string :=
  "Gold rose 40% in 2020. Silver gained 25% in 2021. Platinum fell 10% in 2022. Palladium lost 15% in 2023.".

Lemma complete_redesign_keeps_three_statistics_witness :
  exists result,
    redesignContent unreached (requestFor fourFigures "complete") = Some result /\
    forall stat,
      In stat (slice0 3 (extractStatistics fourFigures)) ->
      includes (redesigned_content result) stat = true.
Proof.
  apply (complete_redesign_keeps_three_statistics unreached
           (requestFor fourFigures "complete")).
  - reflexivity.
  - discriminate.
  - reflexivity.
  - reflexivity.
Defined.

(** What the complete redesign asks of the generator for [fourFigures]. *)
Definition fourFiguresGeneration : ContentGenerator.ContentRequest :=
  {| ContentGenerator.content_type := "blog";
     ContentGenerator.topic := extractCoreTheme fourFigures;
     ContentGenerator.target_audience := Some "security_seekers";
     ContentGenerator.length_target := Some (determineLength fourFigures);
     ContentGenerator.include_cta := false |}.

(** C5, as it was stated, fails on [fourFigures]: four statistics are
    extracted, the fourth is not in the regenerated text, and the complete
    redesign, which weaves in the third, does not put the fourth there. *)
Lemma complete_redesign_drops_fourth_statistic :
  extractStatistics fourFigures =
    [ "Gold rose 40% in 2020"; "Silver gained 25% in 2021";
      "Platinum fell 10% in 2022"; "Palladium lost 15% in 2023" ] /\
  option_map (fun out => includes (ContentGenerator.content out)
                                  "Palladium lost 15% in 2023")
             (ContentGenerator.generateContent fourFiguresGeneration) = Some false /\
  exists result,
    redesignContent unreached (requestFor fourFigures "complete") = Some result /\
    includes (redesigned_content result) "Platinum fell 10% in 2022" = true /\
    includes (redesigned_content result) "Palladium lost 15% in 2023" = false.
Proof.
  split; [vm_compute; reflexivity|].
  split; [vm_compute; reflexivity|].
  eexists. split; [reflexivity|].
  cbn [redesigned_content]. split; vm_compute; reflexivity.
Qed.

End RedesignFacts.

(* ================================================================== *)
(** ** Further properties of the audit *)
(* ================================================================== *)

Module AuditRangeFacts.
Import JS ContentAuditor.

Lemma clamp_at_least (lo score : Z) : 0 <= lo <= 100 -> lo <= score -> lo <= clamp score.
Proof. unfold clamp. lia. Qed.

Lemma count_nonneg (terms : list string) (text : string) : 0 <= count terms text.
Proof. apply AuditFacts.count_range. Qed.

(** Scorers that only add never fall below their base; protectiveness and
    complexity have a bounded penalty. *)
Lemma toneMatch_at_least (content : string) : 60 <= scoreToneMatch content.
Proof.
  apply clamp_at_least; [lia|]. unfold rawToneMatch.
  pose proof (count_nonneg conservativeTerms (toLowerCase content)).
  pose proof (count_nonneg riskAverseTerms (toLowerCase content)). lia.
Qed.

Lemma educationalFlow_at_least (content : string) : 50 <= scoreEducationalFlow content.
Proof.
  apply clamp_at_least; [lia|]. unfold rawEducationalFlow.
  pose proof (count_nonneg progressionTerms (toLowerCase content)).
  pose proof (count_nonneg reinforcementTerms (toLowerCase content)). lia.
Qed.

Lemma informationHierarchy_at_least (content : string) :
  50 <= scoreInformationHierarchy content.
Proof.
  apply clamp_at_least; [lia|]. unfold rawInformationHierarchy.
  repeat match goal with |- context [if ?b then _ else _] => destruct b end; lia.
Qed.

Lemma readability_at_least (content : string) : 60 <= scoreReadability content.
Proof.
  apply clamp_at_least; [lia|]. unfold rawReadability.
  repeat match goal with |- context [if ?b then _ else _] => destruct b end; lia.
Qed.

Lemma complexityLevel_at_least (content : string) : 15 <= scoreComplexityLevel content.
Proof.
  apply clamp_at_least; [lia|]. unfold rawComplexityLevel.
  repeat match goal with |- context [if ?b then _ else _] => destruct b end; lia.
Qed.

Lemma protectiveness_at_least (content : string) : 30 <= scoreProtectiveness content.
Proof.
  apply clamp_at_least; [lia|]. unfold rawProtectiveness.
  pose proof (count_nonneg protectiveTerms (toLowerCase content)).
  repeat match goal with |- context [if ?b then _ else _] => destruct b end; lia.
Qed.

Lemma mean4_at_least (a t p q : Z) :
  0 <= a <= 100 -> 0 <= t <= 100 -> 0 <= p <= 100 -> 30 <= q <= 100 ->
  8 <= mean4 a t p q.
Proof.
  intros Ha Ht Hp Hq. unfold mean4. rewrite Means.mean4_round by lia.
  apply Z.div_le_lower_bound; lia.
Qed.

Lemma mean3_at_least (lo a t c : Z) :
  0 <= a <= 100 -> 0 <= t <= 100 -> 0 <= c <= 100 ->
  6 * lo <= 2 * (a + t + c) + 3 -> lo <= mean3 a t c.
Proof.
  intros Ha Ht Hc Hlo. unfold mean3. rewrite Means.mean3_round by lia.
  apply Z.div_le_lower_bound; lia.
Qed.

Lemma brand_voice_at_least (content : string) : 8 <= bv_score (analyzeBrandVoice content).
Proof.
  cbn [analyzeBrandVoice bv_score].
  apply mean4_at_least; try apply AuditFacts.clamp_range.
  split; [apply protectiveness_at_least|apply AuditFacts.clamp_range].
Qed.

Lemma audience_at_least (content : string) :
  25 <= aa_score (analyzeAudienceAlignment content).
Proof.
  cbn [analyzeAudienceAlignment aa_score].
  pose proof (toneMatch_at_least content) as Htone.
  pose proof (complexityLevel_at_least content) as Hcx.
  pose proof (AuditFacts.clamp_range (rawAgeAppropriateness content)).
  pose proof (AuditFacts.clamp_range (rawToneMatch content)).
  pose proof (AuditFacts.clamp_range (rawComplexityLevel content)).
  apply mean3_at_least; try assumption.
  unfold scoreToneMatch, scoreComplexityLevel, scoreAgeAppropriateness in *. lia.
Qed.

Lemma structure_at_least (content : string) :
  53 <= cs_score (analyzeContentStructure content).
Proof.
  cbn [analyzeContentStructure cs_score].
  pose proof (informationHierarchy_at_least content) as Hhier.
  pose proof (readability_at_least content) as Hread.
  pose proof (educationalFlow_at_least content) as Hflow.
  pose proof (AuditFacts.clamp_range (rawInformationHierarchy content)).
  pose proof (AuditFacts.clamp_range (rawReadability content)).
  pose proof (AuditFacts.clamp_range (rawEducationalFlow content)).
  apply mean3_at_least; try assumption.
  unfold scoreInformationHierarchy, scoreReadability, scoreEducationalFlow in *. lia.
Qed.

Lemma overall_between (content : string) (contentType : option string) :
  28 <= overall_score (auditContent content contentType) <= 98.
Proof.
  pose proof (AuditFacts.overall_score_rounds content contentType) as Hov.
  cbn zeta in Hov. revert Hov. rewrite AuditFacts.audit_analysis.
  cbn [brandVoiceAnalysis audienceAnalysis structureAnalysis complianceAnalysis
       salesTacticsAnalysis].
  generalize (overall_score (auditContent content contentType)). intros o Hov.
  pose proof (AuditFacts.compliance_score_range content) as Hco.
  pose proof (AuditFacts.sales_score_range content) as Hsa.
  pose proof (AuditFacts.brand_voice_score_range content) as Hbv.
  pose proof (AuditFacts.audience_score_range content) as Hau.
  pose proof (AuditFacts.structure_score_range content) as Hst.
  pose proof (brand_voice_at_least content) as Hbv8.
  pose proof (audience_at_least content) as Hau25.
  pose proof (structure_at_least content) as Hst53.
  lia.
Qed.

(** X1.  Whatever the text, the tone-match, information-hierarchy,
    readability and educational-flow scores never fall below their bases
    (60, 50, 60, 50), protectiveness is at least 30 and complexity at least
    15; with a compliance score of at least 50 and a sales-tactics score of
    at most 80, the overall score always lies between 28 and 98. *)
Theorem overall_score_between_28_and_98 (content : string) (contentType : option string) :
  let a := auditContent content contentType in
  let d := detailed_analysis a in
  60 <= tone_match (audienceAnalysis d) /\
  50 <= information_hierarchy (structureAnalysis d) /\
  60 <= readability (structureAnalysis d) /\
  50 <= educational_flow (structureAnalysis d) /\
  30 <= protective_strategic (brandVoiceAnalysis d) /\
  15 <= complexity_level (audienceAnalysis d) /\
  50 <= cr_score (complianceAnalysis d) /\
  st_score (salesTacticsAnalysis d) <= 80 /\
  28 <= overall_score a <= 98.
Proof.
  cbn zeta. rewrite AuditFacts.audit_analysis.
  cbn [brandVoiceAnalysis audienceAnalysis structureAnalysis complianceAnalysis
       salesTacticsAnalysis].
  cbn [analyzeAudienceAlignment analyzeContentStructure analyzeBrandVoice
       tone_match information_hierarchy readability educational_flow
       protective_strategic complexity_level].
  split; [apply toneMatch_at_least|].
  split; [apply informationHierarchy_at_least|].
  split; [apply readability_at_least|].
  split; [apply educationalFlow_at_least|].
  split; [apply protectiveness_at_least|].
  split; [apply complexityLevel_at_least|].
  split; [apply (AuditFacts.compliance_score_range content)|].
  split; [apply (AuditFacts.sales_score_range content)|].
  apply overall_between.
Qed.

(** X2.  The verdict and the priority of one audit agree: FAILED goes with
    CRITICAL or HIGH and with nothing else; a PASSED audit is LOW when
    disclaimers are present and MEDIUM when they are absent; LOW is only
    given to a text with disclaimers that scores at least 75. *)
Theorem status_and_priority_agree (content : string) (contentType : option string) :
  let a := auditContent content contentType in
  let disclaimers :=
    disclaimers_present (complianceAnalysis (detailed_analysis a)) in
  (compliance_status a = FAILED <->
     redesign_priority a = CRITICAL \/ redesign_priority a = HIGH) /\
  (compliance_status a = PASSED ->
     redesign_priority a = if disclaimers then LOW else MEDIUM) /\
  (redesign_priority a = LOW ->
     disclaimers = true /\ 75 <= overall_score a /\ compliance_status a <> FAILED).
Proof.
  cbn zeta. rewrite AuditFacts.audit_status, AuditFacts.audit_priority.
  pose proof (AuditFacts.status_by_threshold
                (overall_score (auditContent content contentType))) as Hst.
  pose proof (AuditFacts.priority_by_threshold
                (overall_score (auditContent content contentType))
                (complianceAnalysis (detailed_analysis (auditContent content contentType))))
    as Hpr.
  revert Hst Hpr.
  generalize (overall_score (auditContent content contentType)).
  generalize (complianceAnalysis (detailed_analysis (auditContent content contentType))).
  intros c o [Hpass [Hneeds Hfail]] [Hcrit [Hhigh [Hmed Hlow]]].
  repeat split.
  - intros H. apply Hfail in H. destruct (Z.lt_ge_cases o 40).
    + left. apply Hcrit. lia.
    + right. apply Hhigh. lia.
  - intros [H|H]; apply Hfail; [apply Hcrit in H|apply Hhigh in H]; lia.
  - intros H. apply Hpass in H. destruct (disclaimers_present c) eqn:Ed.
    + apply Hlow. split; [lia|reflexivity].
    + apply Hmed. split; [lia|]. right. reflexivity.
  - apply Hlow in H. tauto.
  - apply Hlow in H. tauto.
  - intros Hf. apply Hlow in H. apply Hfail in Hf. lia.
Qed.

(** X3.  The three composite scores are the exact rounded means of their
    parts: the binary64 division and Math.round give, for the brand voice,
    the floor of (sum of the four scores + 2) / 4, and for audience and
    structure the floor of (2 * sum of the three scores + 3) / 6, which is
    the mean rounded to the nearest integer with halves rounded up.  So a
    dimension without issues (every part at least 70) scores at least 70. *)
Theorem composite_scores_are_rounded_means (content : string) :
  let b := analyzeBrandVoice content in
  let a := analyzeAudienceAlignment content in
  let s := analyzeContentStructure content in
  bv_score b =
    (knowledgeable_authoritative b + trustworthy_transparent b
     + professional_established b + protective_strategic b + 2) / 4 /\
  aa_score a = (2 * (age_appropriate a + tone_match a + complexity_level a) + 3) / 6 /\
  cs_score s = (2 * (information_hierarchy s + readability s + educational_flow s) + 3) / 6 /\
  (bv_issues b = [] -> 70 <= bv_score b) /\
  (aa_issues a = [] -> 70 <= aa_score a) /\
  (cs_issues s = [] -> 70 <= cs_score s).
Proof.
  cbn zeta.
  cbn [analyzeBrandVoice analyzeAudienceAlignment analyzeContentStructure
       bv_score aa_score cs_score bv_issues aa_issues cs_issues
       knowledgeable_authoritative trustworthy_transparent professional_established
       protective_strategic age_appropriate tone_match complexity_level
       information_hierarchy readability educational_flow].
  pose proof (AuditFacts.clamp_range (rawAuthoritativeness content)) as H1.
  pose proof (AuditFacts.clamp_range (rawTrustworthiness content)) as H2.
  pose proof (AuditFacts.clamp_range (rawProfessionalism content)) as H3.
  pose proof (AuditFacts.clamp_range (rawProtectiveness content)) as H4.
  pose proof (AuditFacts.clamp_range (rawAgeAppropriateness content)) as H5.
  pose proof (AuditFacts.clamp_range (rawToneMatch content)) as H6.
  pose proof (AuditFacts.clamp_range (rawComplexityLevel content)) as H7.
  pose proof (AuditFacts.clamp_range (rawInformationHierarchy content)) as H8.
  pose proof (AuditFacts.clamp_range (rawReadability content)) as H9.
  pose proof (AuditFacts.clamp_range (rawEducationalFlow content)) as H10.
  unfold scoreAuthoritativeness, scoreTrustworthiness, scoreProfessionalism,
    scoreProtectiveness, scoreAgeAppropriateness, scoreToneMatch, scoreComplexityLevel,
    scoreInformationHierarchy, scoreReadability, scoreEducationalFlow.
  revert H1 H2 H3 H4 H5 H6 H7 H8 H9 H10.
  generalize (clamp (rawAuthoritativeness content)) (clamp (rawTrustworthiness content))
    (clamp (rawProfessionalism content)) (clamp (rawProtectiveness content))
    (clamp (rawAgeAppropriateness content)) (clamp (rawToneMatch content))
    (clamp (rawComplexityLevel content)) (clamp (rawInformationHierarchy content))
    (clamp (rawReadability content)) (clamp (rawEducationalFlow content)).
  intros a1 a2 a3 a4 b1 b2 b3 c1 c2 c3 H1 H2 H3 H4 H5 H6 H7 H8 H9 H10.
  unfold mean4, mean3.
  rewrite (Means.mean4_round (a1 + a2 + a3 + a4)) by lia.
  rewrite (Means.mean3_round (b1 + b2 + b3)) by lia.
  rewrite (Means.mean3_round (c1 + c2 + c3)) by lia.
  split; [reflexivity|]. split; [reflexivity|]. split; [reflexivity|].
  unfold pushIf, push.
  repeat split.
  - destruct (a1 <? 70) eqn:E1; destruct (a2 <? 70) eqn:E2;
      destruct (a3 <? 70) eqn:E3; destruct (a4 <? 70) eqn:E4;
      cbn [List.app]; intros H; try discriminate H.
    apply Z.div_le_lower_bound; lia.
  - destruct (b1 <? 70) eqn:E1; destruct (b2 <? 70) eqn:E2;
      destruct (b3 <? 70) eqn:E3;
      cbn [List.app]; intros H; try discriminate H.
    apply Z.div_le_lower_bound; lia.
  - destruct (c1 <? 70) eqn:E1; destruct (c2 <? 70) eqn:E2;
      destruct (c3 <? 70) eqn:E3;
      cbn [List.app]; intros H; try discriminate H.
    apply Z.div_le_lower_bound; lia.
Qed.

End AuditRangeFacts.

(* ================================================================== *)
(** ** Markers: letter case and surrounding text *)
(* ================================================================== *)

Module MarkerFacts.
Import JS ContentAuditor.

Lemma lowerUnit_idem (c : ascii) : lowerUnit (lowerUnit c) = lowerUnit c.
Proof. destruct c as [[] [] [] [] [] [] [] []]; reflexivity. Qed.

Lemma toLowerCase_idem (s : string) : toLowerCase (toLowerCase s) = toLowerCase s.
Proof.
  induction s as [|c s IH]; cbn [toLowerCase]; [reflexivity|].
  now rewrite lowerUnit_idem, IH.
Qed.

Lemma toLowerCase_app (a b : string) :
  toLowerCase (a ++ b) = toLowerCase a ++ toLowerCase b.
Proof.
  induction a as [|c a IH]; [reflexivity|].
  change (toLowerCase (String c a ++ b))
    with (String (lowerUnit c) (toLowerCase (a ++ b))).
  rewrite IH. reflexivity.
Qed.

(** A marker found in a text is found in every text that contains it. *)
Lemma includes_embed (a s b t : string) :
  includes s t = true -> includes (a ++ s ++ b) t = true.
Proof.
  intros H. apply Text.includes_occurs in H. destruct H as [u [v ->]].
  apply Text.includes_occurs. exists (a ++ u), (v ++ b).
  now rewrite !Text.app_assoc.
Qed.

Lemma matched_length_mono (terms : list string) (s s' : string) :
  (forall t, includes s t = true -> includes s' t = true) ->
  (List.length (matched terms s) <= List.length (matched terms s'))%nat.
Proof.
  intros H. unfold matched.
  induction terms as [|t terms IH]; cbn [filter]; [lia|].
  destruct (includes s t) eqn:E.
  - rewrite (H t E). cbn [List.length]. lia.
  - destruct (includes s' t); cbn [List.length]; lia.
Qed.

Lemma count_embed (terms : list string) (a s b : string) :
  count terms (toLowerCase s) <= count terms (toLowerCase (a ++ s ++ b)).
Proof.
  unfold count. apply inj_le, matched_length_mono. intros t H.
  rewrite !toLowerCase_app. now apply includes_embed.
Qed.

(** X4.  Markers are looked up in the lower-cased text only: lower-casing a
    text first changes neither its compliance score and three compliance
    flags nor its sales-tactics analysis (score, the three lists of found
    terms, the trust/push ratio) nor its trustworthiness, protectiveness,
    age-appropriateness, tone-match and educational-flow scores. *)
Theorem marker_analyses_ignore_letter_case (content : string) :
  cr_score (analyzeCompliance (toLowerCase content)) =
    cr_score (analyzeCompliance content) /\
  disclaimers_present (analyzeCompliance (toLowerCase content)) =
    disclaimers_present (analyzeCompliance content) /\
  risk_disclosures (analyzeCompliance (toLowerCase content)) =
    risk_disclosures (analyzeCompliance content) /\
  educational_framing (analyzeCompliance (toLowerCase content)) =
    educational_framing (analyzeCompliance content) /\
  analyzeSalesTactics (toLowerCase content) = analyzeSalesTactics content /\
  scoreTrustworthiness (toLowerCase content) = scoreTrustworthiness content /\
  scoreProtectiveness (toLowerCase content) = scoreProtectiveness content /\
  scoreAgeAppropriateness (toLowerCase content) = scoreAgeAppropriateness content /\
  scoreToneMatch (toLowerCase content) = scoreToneMatch content /\
  scoreEducationalFlow (toLowerCase content) = scoreEducationalFlow content.
Proof.
  assert (Hflags :
    checkDisclaimers (toLowerCase content) = checkDisclaimers content /\
    checkRiskDisclosures (toLowerCase content) = checkRiskDisclosures content /\
    checkEducationalFraming (toLowerCase content) = checkEducationalFraming content).
  { unfold checkDisclaimers, checkRiskDisclosures, checkEducationalFraming.
    now rewrite toLowerCase_idem. }
  destruct Hflags as [Hd [Hr He]].
  split.
  { rewrite (AuditFacts.compliance_score_of_flags (toLowerCase content)),
            (AuditFacts.compliance_score_of_flags content).
    cbn [analyzeCompliance disclaimers_present risk_disclosures educational_framing].
    now rewrite Hd, Hr, He. }
  cbn [analyzeCompliance disclaimers_present risk_disclosures educational_framing].
  split; [exact Hd|]. split; [exact Hr|]. split; [exact He|].
  repeat split.
  - unfold analyzeSalesTactics, rawSalesTactics, calculateTrustVsPushRatio,
      trustCountOf, pushCountOf, findPressureTactics, findUrgencyLanguage,
      findAggressiveTerms.
    now rewrite toLowerCase_idem.
  - unfold scoreTrustworthiness, rawTrustworthiness. now rewrite toLowerCase_idem.
  - unfold scoreProtectiveness, rawProtectiveness. now rewrite toLowerCase_idem.
  - unfold scoreAgeAppropriateness, rawAgeAppropriateness. now rewrite toLowerCase_idem.
  - unfold scoreToneMatch, rawToneMatch. now rewrite toLowerCase_idem.
  - unfold scoreEducationalFlow, rawEducationalFlow. now rewrite toLowerCase_idem.
Qed.

Lemma flags_survive_added_text (before content after : string) :
  (checkDisclaimers content = true ->
   checkDisclaimers (before ++ content ++ after) = true) /\
  (checkRiskDisclosures content = true ->
   checkRiskDisclosures (before ++ content ++ after) = true) /\
  (checkEducationalFraming content = true ->
   checkEducationalFraming (before ++ content ++ after) = true).
Proof.
  repeat split.
  - unfold checkDisclaimers.
    intros H. apply existsb_exists in H. destruct H as [t [Hin Ht]].
    apply existsb_exists. exists t. split; [exact Hin|].
    rewrite !toLowerCase_app. now apply includes_embed.
  - unfold checkRiskDisclosures.
    pose proof (count_embed riskTerms before content after). lia.
  - unfold checkEducationalFraming.
    pose proof (count_embed educationalTerms before content after). lia.
Qed.

Lemma score_survives_added_text (before content after : string) :
  cr_score (analyzeCompliance content) <=
  cr_score (analyzeCompliance (before ++ content ++ after)).
Proof.
  destruct (flags_survive_added_text before content after) as [Hd [Hr He]].
  rewrite (AuditFacts.compliance_score_of_flags content),
          (AuditFacts.compliance_score_of_flags (before ++ content ++ after)).
  cbn [analyzeCompliance disclaimers_present risk_disclosures educational_framing].
  destruct (checkDisclaimers content); [rewrite (Hd eq_refl)|];
    (destruct (checkRiskDisclosures content); [rewrite (Hr eq_refl)|]);
    (destruct (checkEducationalFraming content); [rewrite (He eq_refl)|]);
    repeat match goal with |- context [if ?b then _ else _] => destruct b end;
    cbn; lia.
Qed.

(** X5.  Text added before or after a text never takes a compliance flag
    away: each of disclaimers_present, risk_disclosures and
    educational_framing that holds for a text holds for every text that
    contains it, so the compliance score of the longer text is at least
    that of the shorter. *)
Theorem compliance_survives_added_text (before content after : string) :
  let o := analyzeCompliance content in
  let r := analyzeCompliance (before ++ content ++ after) in
  (disclaimers_present o = true -> disclaimers_present r = true) /\
  (risk_disclosures o = true -> risk_disclosures r = true) /\
  (educational_framing o = true -> educational_framing r = true) /\
  cr_score o <= cr_score r.
Proof.
  cbn zeta.
  destruct (flags_survive_added_text before content after) as [Hd [Hr He]].
  cbn [analyzeCompliance disclaimers_present risk_disclosures educational_framing].
  repeat split; try assumption.
  apply score_survives_added_text.
Qed.

Lemma matched_embed (terms : list string) (before content after : string) :
  incl (matched terms (toLowerCase content))
       (matched terms (toLowerCase (before ++ content ++ after))).
Proof.
  intros t H. unfold matched in *. apply filter_In in H. destruct H as [Hin Ht].
  apply filter_In. split; [exact Hin|].
  rewrite !toLowerCase_app. now apply includes_embed.
Qed.

(** X6.  Text added before or after a text never clears a sales finding:
    every pressure tactic, urgency term and aggressive term found in a text
    is found in every text that contains it.  So added text can raise the
    sales-tactics score by 20 at most, the penalty for a trust/push ratio
    below 1, and by nothing when the shorter text did not have that
    penalty. *)
Theorem sales_findings_survive_added_text (before content after : string) :
  let o := analyzeSalesTactics content in
  let r := analyzeSalesTactics (before ++ content ++ after) in
  incl (pressure_tactics o) (pressure_tactics r) /\
  incl (urgency_language o) (urgency_language r) /\
  incl (aggressive_terms o) (aggressive_terms r) /\
  st_score r <= st_score o + 20 /\
  (lt (trust_vs_push_ratio o) 1%float = false -> st_score r <= st_score o).
Proof.
  cbn zeta.
  cbn [analyzeSalesTactics pressure_tactics urgency_language aggressive_terms
       st_score trust_vs_push_ratio].
  unfold findPressureTactics, findUrgencyLanguage, findAggressiveTerms.
  split; [apply matched_embed|]. split; [apply matched_embed|].
  split; [apply matched_embed|].
  unfold rawSalesTactics, findPressureTactics, findUrgencyLanguage, findAggressiveTerms, Zlen.
  pose proof (count_embed pressureTerms before content after) as Hp.
  pose proof (count_embed urgencyTerms before content after) as Hu.
  pose proof (count_embed aggressiveTerms before content after) as Ha.
  unfold count in Hp, Hu, Ha.
  split.
  - destruct (lt (calculateTrustVsPushRatio content) 1%float);
      destruct (lt (calculateTrustVsPushRatio (before ++ content ++ after)) 1%float); lia.
  - intros Hratio. rewrite Hratio.
    destruct (lt (calculateTrustVsPushRatio (before ++ content ++ after)) 1%float); lia.
Qed.

Lemma includes_tail (a s t : string) : includes s t = true -> includes (a ++ s) t = true.
Proof.
  intros H. apply Text.includes_occurs in H. destruct H as [u [v ->]].
  apply Text.includes_occurs. exists (a ++ u), v. now rewrite Text.app_assoc.
Qed.

End MarkerFacts.

(* ================================================================== *)
(** ** Brand-voice validation *)
(* ================================================================== *)

Module ValidationFacts.
Import JS BrandVoiceEngine Server.

(** The loop over the aggressive terms takes 15 for each issue it pushes. *)
Lemma aggressive_loop (text : string) (terms : list string) (score0 : Z)
      (issues0 : list string) :
  exists n issues1,
    fold_left
      (fun '(score, issues) term =>
         if includes text term
         then (score - 15, push issues (aggressiveIssue term))
         else (score, issues))
      terms (score0, issues0) = (score0 - 15 * Z.of_nat n, (issues0 ++ issues1)%list) /\
    List.length issues1 = n /\
    forall issue, In issue issues1 -> exists term, issue = aggressiveIssue term.
Proof.
  revert score0 issues0. induction terms as [|t terms IH]; intros score0 issues0.
  - exists O, []. cbn. rewrite app_nil_r. repeat split; [f_equal; lia|intros ? []].
  - cbn [fold_left]. destruct (includes text t).
    + destruct (IH (score0 - 15) (push issues0 (aggressiveIssue t))) as [n [is1 [Hf [Hl Hin]]]].
      exists (S n), (aggressiveIssue t :: is1). rewrite Hf. unfold push.
      rewrite <- app_assoc. cbn [List.app List.length]. repeat split.
      * f_equal. lia.
      * now rewrite Hl.
      * intros issue [<-|H]; [now exists t|now apply Hin].
    + apply IH.
Qed.

(** The score before the floor at 0 is 100 less 15 for each aggressive term
    found, 10 for too little educational language, 20 for missing
    disclaimers and 15 for slang; each deduction comes with one issue. *)
Lemma validateRaw_deductions (content : string) :
  exists a e d s : Z,
    0 <= a /\ 0 <= e <= 1 /\ 0 <= d <= 1 /\ 0 <= s <= 1 /\
    fst (validateRaw content) = 100 - 15 * a - 10 * e - 20 * d - 15 * s /\
    Z.of_nat (List.length (snd (validateRaw content))) = a + e + d + s.
Proof.
  unfold validateRaw, checkedBeforeAudience.
  destruct (aggressive_loop (toLowerCase content) aggressiveTerms 100 [])
    as [n [is1 [Hf [Hl _]]]].
  rewrite Hf. cbn [List.app].
  exists (Z.of_nat n).
  repeat match goal with
         | |- context [if ?b then _ else _] =>
             let E := fresh "E" in destruct b eqn:E
         end;
    unfold push; cbn [fst snd]; rewrite ?length_app; cbn [List.length];
    rewrite ?Nat2Z.inj_add, Hl; cbn [Z.of_nat].
  all: first
    [ exists 1, 1, 1; repeat split; lia
    | exists 1, 1, 0; repeat split; lia
    | exists 1, 0, 1; repeat split; lia
    | exists 1, 0, 0; repeat split; lia
    | exists 0, 1, 1; repeat split; lia
    | exists 0, 1, 0; repeat split; lia
    | exists 0, 0, 1; repeat split; lia
    | exists 0, 0, 0; repeat split; lia ].
Qed.

(** X7.  The brand-voice score is between 0 and 100 and is 100 exactly when
    no issue is listed; the validation tool reports PASSED (a score of 80 or
    more) exactly when at most one issue is listed, and NEEDS_IMPROVEMENT
    otherwise: any two deductions together exceed 20. *)
Theorem validation_passes_with_at_most_one_issue (content : string) :
  let v := validateBrandCompliance content in
  let r := handleValidateCompliance content in
  0 <= score v <= 100 /\
  (score v = 100 <-> issues v = []) /\
  (report_compliance_status r = "PASSED" <-> (List.length (issues v) <= 1)%nat) /\
  (report_compliance_status r = "NEEDS_IMPROVEMENT" <->
     (2 <= List.length (issues v))%nat).
Proof.
  cbn zeta. cbn [handleValidateCompliance report_compliance_status].
  destruct (BrandVoiceFacts.validate_fields content) as [Hscore Hissues].
  rewrite Hscore, Hissues.
  destruct (validateRaw_deductions content) as [a [e [d [s [Ha [He [Hd [Hs [Hraw Hlen]]]]]]]]].
  rewrite Hraw.
  assert (Hnil : snd (validateRaw content) = [] <->
                 Z.of_nat (List.length (snd (validateRaw content))) = 0).
  { destruct (snd (validateRaw content)); cbn [List.length]; split;
      intros; try reflexivity; try discriminate; lia. }
  repeat split.
  - lia.
  - lia.
  - intros H. apply Hnil. lia.
  - intros H. apply Hnil in H. lia.
  - destruct (80 <=? Z.max 0 (100 - 15 * a - 10 * e - 20 * d - 15 * s)) eqn:E;
      [intros _; lia|discriminate].
  - intros H.
    destruct (80 <=? Z.max 0 (100 - 15 * a - 10 * e - 20 * d - 15 * s)) eqn:E;
      [reflexivity|lia].
  - destruct (80 <=? Z.max 0 (100 - 15 * a - 10 * e - 20 * d - 15 * s)) eqn:E;
      [discriminate|intros _; lia].
  - intros H.
    destruct (80 <=? Z.max 0 (100 - 15 * a - 10 * e - 20 * d - 15 * s)) eqn:E;
      [lia|reflexivity].
Qed.

End ValidationFacts.

(* ================================================================== *)
(** ** When generation returns, and what it always appends *)
(* ================================================================== *)

Module GenerationFacts.
Import JS ContentGenerator.

Lemma templates_by_key (topic contentType : string) :
  assoc (templates topic) contentType =
  if String.eqb "blog" contentType then Some (template_blog topic)
  else if String.eqb "email" contentType then Some (template_email topic)
  else if String.eqb "landing_page" contentType then Some (template_landing_page topic)
  else if String.eqb "market_update" contentType then Some (template_market_update topic)
  else if String.eqb "webpage" contentType then Some (template_webpage topic)
  else None.
Proof. reflexivity. Qed.

Lemma inherited_is_listed (key : string) :
  isInherited key = true -> In key objectPrototypeKeys.
Proof.
  unfold isInherited. intros H. apply existsb_exists in H.
  destruct H as [k [Hin Hk]]. apply String.eqb_eq in Hk. now subst k.
Qed.

(** No template and no persona is named like an inherited member. *)
Lemma inherited_type_has_no_template (topic contentType : string) :
  isInherited contentType = true ->
  getBaseTemplate contentType topic = Inherited contentType.
Proof.
  intros H. unfold getBaseTemplate, getProperty. rewrite templates_by_key, H.
  apply inherited_is_listed in H. cbn [objectPrototypeKeys In] in H.
  repeat (destruct H as [<-|H]; [reflexivity|]). destruct H.
Qed.

Lemma inherited_audience_has_no_guidance (key : string) :
  isInherited key = true ->
  BrandVoiceEngine.getPersonaGuidance key = Inherited key.
Proof.
  intros H. pose proof (inherited_is_listed key H) as Hin.
  cbn [objectPrototypeKeys In] in Hin.
  repeat (destruct Hin as [<-|Hin]; [reflexivity|]). destruct Hin.
Qed.

(** The persona key that [generateContent] looks up. *)
Definition personaKey (request : ContentRequest) : string :=
  orElse (target_audience request) "security_seekers".

(** What the three passes and the disclaimer make of a topic. *)
Definition passesOver (k : GeneratorFacts.Kind) (topic : string) : string :=
  applyTechnicalPolish
    (GeneratorFacts.templateOf k
       (enhanceEngagement
          (GeneratorFacts.templateOf k (GeneratorFacts.templateOf k topic)))).

Lemma generation_returns (request : ContentRequest) :
  isInherited (content_type request) = false ->
  isInherited (personaKey request) = false ->
  exists k out,
    generateContent request = Some out /\
    content out =
      addRequiredDisclaimers
        (passesOver k (BrandVoiceEngine.applyBrandVoiceTransformation (topic request))).
Proof.
  intros Hct Haud.
  destruct (GeneratorFacts.template_of_type (content_type request) Hct) as [k Hk].
  destruct (GeneratorFacts.persona_is_guidance _ Haud) as [g Hg].
  exists k. unfold generateContent. unfold personaKey in Hg. rewrite Hg.
  assert (Hthrows : forall b : bool,
    buildFrameworkPromptThrows (if b then None else Some (Own g)) = false)
    by (intros []; reflexivity).
  rewrite Hthrows.
  unfold generateTemplateContent. rewrite !Hk.
  eexists. split; reflexivity.
Qed.

Lemma generation_fails (request : ContentRequest) :
  isInherited (content_type request) = true \/
  isInherited (orElse (target_audience request) "security_seekers") = true ->
  generateContent request = None.
Proof.
  intros H. unfold generateContent.
  destruct (isInherited (orElse (target_audience request) "security_seekers")) eqn:Haud.
  - rewrite (inherited_audience_has_no_guidance _ Haud).
    destruct (target_audience request) as [audience|] eqn:Ea.
    + destruct (String.eqb audience "auto_detect") eqn:Eauto; [|reflexivity].
      apply String.eqb_eq in Eauto. subst audience. discriminate Haud.
    + reflexivity.
  - destruct H as [Hct|H]; [|discriminate].
    match goal with
    | |- (if ?b then _ else _) = _ => destruct b; [reflexivity|]
    end.
    unfold generateTemplateContent.
    now rewrite (inherited_type_has_no_template _ _ Hct).
Qed.

(** X9.  Content generation throws exactly when the content type, or the
    target audience (security_seekers when it is missing or empty), is the
    name of a member inherited from Object.prototype; for every other
    request, whatever the topic, it returns. *)
Theorem generation_throws_exactly_on_inherited_names (request : ContentRequest) :
  generateContent request = None <->
  isInherited (content_type request) = true \/
  isInherited (orElse (target_audience request) "security_seekers") = true.
Proof.
  split.
  - intros Hnone.
    destruct (isInherited (content_type request)) eqn:Hct; [now left|].
    destruct (isInherited (orElse (target_audience request) "security_seekers")) eqn:Haud;
      [now right|].
    destruct (generation_returns request Hct Haud) as [k [out [Hsome _]]].
    rewrite Hsome in Hnone. discriminate Hnone.
  - apply generation_fails.
Qed.

(** Both disclaimers name a consultation, which both disclaimer checks accept. *)
Lemma disclaimer_appended (polished : string) :
  exists disclaimer,
    addRequiredDisclaimers polished = polished ++ disclaimer /\
    (disclaimer = disclaimer_investment \/ disclaimer = disclaimer_general) /\
    includes (toLowerCase (addRequiredDisclaimers polished)) "consult" = true.
Proof.
  unfold addRequiredDisclaimers.
  match goal with
  | |- context [if ?b then _ else _] => destruct b
  end.
  - exists disclaimer_investment. repeat split; [now left|].
    rewrite MarkerFacts.toLowerCase_app. apply MarkerFacts.includes_tail. vm_compute. reflexivity.
  - exists disclaimer_general. repeat split; [now right|].
    rewrite MarkerFacts.toLowerCase_app. apply MarkerFacts.includes_tail. vm_compute. reflexivity.
Qed.

Lemma consult_is_a_disclaimer (text : string) :
  includes (toLowerCase text) "consult" = true ->
  ContentAuditor.checkDisclaimers text = true /\
  BrandVoiceEngine.disclaimers_included (BrandVoiceEngine.validateBrandCompliance text) = true.
Proof.
  intros H. split.
  - unfold ContentAuditor.checkDisclaimers. apply existsb_exists.
    exists "consult". split; [cbn; tauto|exact H].
  - unfold BrandVoiceEngine.validateBrandCompliance.
    destruct (BrandVoiceEngine.validateRaw text) as [s i].
    cbn [BrandVoiceEngine.disclaimers_included].
    apply existsb_exists. exists "consult". split; [cbn; tauto|exact H].
Qed.

(** X10.  Whenever content generation returns, whatever the topic: the text
    ends with one of the two disclaimers, the third pass reported is that
    same final text, the compliance report delivered with it says
    disclaimers_included, and an audit of the text finds disclaimers present
    and gives a compliance score of at least 75. *)
Theorem generated_content_carries_disclaimer (request : ContentRequest)
        (out : ContentOutput) :
  generateContent request = Some out ->
  (exists body disclaimer,
     content out = body ++ disclaimer /\
     (disclaimer = disclaimer_investment \/ disclaimer = disclaimer_general)) /\
  pass_3_technical (refinement_passes out) = content out /\
  compliance_status out = BrandVoiceEngine.validateBrandCompliance (content out) /\
  BrandVoiceEngine.disclaimers_included (compliance_status out) = true /\
  ContentAuditor.checkDisclaimers (content out) = true /\
  75 <= ContentAuditor.cr_score (ContentAuditor.analyzeCompliance (content out)).
Proof.
  intros Hsome.
  assert (Hshape : exists polished,
            content out = addRequiredDisclaimers polished /\
            pass_3_technical (refinement_passes out) = content out /\
            compliance_status out = BrandVoiceEngine.validateBrandCompliance (content out)).
  { unfold generateContent in Hsome.
    repeat match type of Hsome with
           | (if ?b then _ else _) = _ => destruct b; [discriminate|]
           | match ?x with _ => _ end = _ => destruct x; try discriminate
           end.
    apply RedesignFacts.some_inj in Hsome. subst out.
    eexists. cbn [content refinement_passes pass_3_technical compliance_status].
    repeat split. }
  destruct Hshape as [polished [Hc [Hp3 Hst]]].
  destruct (disclaimer_appended polished) as [disclaimer [Happ [Hwhich Hconsult]]].
  rewrite <- Hc in Hconsult.
  destruct (consult_is_a_disclaimer _ Hconsult) as [Haud Hval].
  repeat split.
  - exists polished, disclaimer. now rewrite Hc, Happ.
  - exact Hp3.
  - exact Hst.
  - now rewrite Hst.
  - exact Haud.
  - rewrite (AuditFacts.compliance_score_of_flags (content out)).
    cbn [ContentAuditor.analyzeCompliance ContentAuditor.disclaimers_present].
    rewrite Haud.
    repeat match goal with |- context [if ?b then _ else _] => destruct b end; cbn; lia.
Qed.

Definition blogAboutSilver : ContentRequest :=
  {| content_type := "blog";
     topic := "Silver investment fundamentals";
     target_audience := None;
     length_target := None;
     include_cta := true |}.

Lemma generated_content_carries_disclaimer_witness :
  exists out,
    generateContent blogAboutSilver = Some out /\
    BrandVoiceEngine.disclaimers_included (compliance_status out) = true.
Proof.
  eexists. split; [reflexivity|].
  refine (proj1 (proj2 (proj2 (proj2
            (generated_content_carries_disclaimer blogAboutSilver _ eq_refl))))).
Defined.

End GenerationFacts.


(* ================================================================== *)
(** ** Trimming, and what the key-information extraction returns *)
(* ================================================================== *)

Module TrimFacts.
Import JS WhitespaceFacts SplitFacts.

Definition ink (c : ascii) : bool := negb (isWhiteSpace c).

(** The text does not start with white space. *)
Definition headInk (s : string) : bool :=
  match s with
  | EmptyString => true
  | String c _ => ink c
  end.

Lemma trimStart_headInk (s : string) : headInk (trimStart s) = true.
Proof.
  induction s as [|c s IH]; cbn [trimStart]; [reflexivity|].
  destruct (isWhiteSpace c) eqn:E; [exact IH|]. cbn [headInk]. unfold ink. now rewrite E.
Qed.

Lemma trimStart_fixed (s : string) : headInk s = true -> trimStart s = s.
Proof.
  destruct s as [|c s]; cbn [headInk trimStart]; [reflexivity|].
  unfold ink. intros H. apply negb_true_iff in H. now rewrite H.
Qed.

Lemma trimEnd_headInk (s : string) : headInk s = true -> headInk (trimEnd s) = true.
Proof.
  destruct s as [|c s]; cbn [headInk trimEnd]; [reflexivity|].
  intros H. destruct (trimEnd s).
  - unfold ink in H. apply negb_true_iff in H. rewrite H. cbn [headInk]. unfold ink. now rewrite H.
  - exact H.
Qed.

Lemma trimEnd_idem (s : string) : trimEnd (trimEnd s) = trimEnd s.
Proof.
  induction s as [|c s IH]; cbn [trimEnd]; [reflexivity|].
  destruct (trimEnd s) as [|d r] eqn:E.
  - destruct (isWhiteSpace c) eqn:Ec; [reflexivity|]. cbn [trimEnd]. now rewrite Ec.
  - cbn [trimEnd]. change (match trimEnd (String d r) with
                           | EmptyString => if isWhiteSpace c then EmptyString
                                            else String c EmptyString
                           | String a s0 => String c (String a s0)
                           end = String c (String d r)).
    rewrite IH. reflexivity.
Qed.

Lemma trim_idem (s : string) : trim (trim s) = trim s.
Proof.
  unfold trim.
  rewrite (trimStart_fixed (trimEnd (trimStart s)))
    by apply trimEnd_headInk, trimStart_headInk.
  apply trimEnd_idem.
Qed.

Lemma trimStart_suffix (s : string) : exists a, s = a ++ trimStart s.
Proof.
  induction s as [|c s [a IH]]; cbn [trimStart]; [now exists EmptyString|].
  destruct (isWhiteSpace c).
  - exists (String c a). cbn. now rewrite <- IH.
  - now exists EmptyString.
Qed.

Lemma trimEnd_prefix (s : string) : exists b, s = trimEnd s ++ b.
Proof.
  induction s as [|c s [b IH]]; cbn [trimEnd]; [now exists EmptyString|].
  destruct (trimEnd s) as [|d r].
  - destruct (isWhiteSpace c).
    + now exists (String c s).
    + exists b. cbn in IH |- *. now rewrite <- IH.
  - exists b. cbn in IH |- *. now rewrite <- IH.
Qed.

(** Trimming removes characters at the two ends only. *)
Lemma trim_occurs (s : string) : exists a b, s = a ++ trim s ++ b.
Proof.
  destruct (trimStart_suffix s) as [a Ha].
  destruct (trimEnd_prefix (trimStart s)) as [b Hb].
  exists a, b. unfold trim. now rewrite <- Hb.
Qed.

Lemma join_piece_occurs (sep : string) (l : list string) (piece : string) :
  In piece l -> exists a b, join sep l = a ++ piece ++ b.
Proof.
  induction l as [|x xs IH]; [intros []|].
  destruct xs as [|y ys].
  - intros [<-|[]]. exists EmptyString, EmptyString. cbn.
    clear. induction x as [|c x IHx]; cbn; [reflexivity|now rewrite <- IHx].
  - rewrite join_cons by discriminate. intros [<-|H].
    + now exists EmptyString, (sep ++ join sep (y :: ys)).
    + destruct (IH H) as [a [b ->]]. exists (x ++ sep ++ a), b.
      now rewrite !Text.app_assoc.
Qed.

Lemma splitChar_piece_occurs (s piece : string) :
  In piece (splitChar "."%char s) -> exists a b, s = a ++ piece ++ b.
Proof.
  intros H. destruct (join_piece_occurs "." _ _ H) as [a [b Hab]].
  rewrite join_splitChar in Hab. now exists a, b.
Qed.

End TrimFacts.

Module ExtractionFacts.
Import JS WhitespaceFacts SplitFacts TrimFacts ContentRedesigner.

(** What every sentence handed on by an extraction filter looks like. *)
Definition verbatim (content x : string) : Prop :=
  includes content x = true /\ x <> EmptyString /\ trim x = x /\
  allChars notDot x = true.

Lemma selected_sentence_is_verbatim (content x : string) (keep : string -> bool) :
  In x (map trim (filter keep (trimmedSentences content))) -> verbatim content x.
Proof.
  unfold trimmedSentences. intros H.
  apply in_map_iff in H. destruct H as [y [<- Hy]].
  apply filter_In in Hy. destruct Hy as [Hy _].
  apply filter_In in Hy. destruct Hy as [Hy Hlen].
  apply in_map_iff in Hy. destruct Hy as [z [<- Hz]].
  rewrite trim_idem. repeat split.
  - destruct (splitChar_piece_occurs content z Hz) as [a [b ->]].
    destruct (trim_occurs z) as [u [v Hz']].
    apply Text.includes_occurs. exists (a ++ u), (v ++ b).
    rewrite Hz' at 1. now rewrite !Text.app_assoc.
  - intros E. rewrite E in Hlen. discriminate Hlen.
  - apply trim_idem.
  - apply trim_keeps, (splitChar_piece_noDot content z Hz).
Qed.

Lemma firstn_length_le {A} (n : nat) (l : list A) : (List.length (firstn n l) <= n)%nat.
Proof. rewrite length_firstn. lia. Qed.

(** X11.  The key-information extraction returns at most 10 facts, 8
    statistics, 5 company statements and 10 concepts.  Every fact, statistic
    and company statement is a piece of the original text, verbatim: it
    occurs in the text, is not empty, has no white space at either end and
    holds no full stop; a statistic holds a digit.  Every concept is one of
    the listed concepts and occurs in the lower-cased text. *)
Theorem extracted_information_is_verbatim (content : string) :
  let k := extractKeyInformation content in
  (List.length (facts k) <= 10 /\ List.length (statistics k) <= 8 /\
   List.length (company_specific k) <= 5 /\ List.length (key_concepts k) <= 10)%nat /\
  (forall x, In x (facts k) \/ In x (statistics k) \/ In x (company_specific k) ->
             verbatim content x) /\
  (forall x, In x (statistics k) -> anyChar isDigit x = true) /\
  (forall c, In c (key_concepts k) ->
             In c importantConcepts /\ includes (toLowerCase content) c = true).
Proof.
  cbn zeta. cbn [extractKeyInformation facts statistics company_specific key_concepts].
  split; [|split; [|split]].
  - repeat split; try apply firstn_length_le.
    unfold extractKeyConcepts.
    apply (Nat.le_trans _ (List.length importantConcepts)); [apply filter_length_le|].
    cbn. lia.
  - intros x [H|[H|H]]; apply StatisticFacts.in_firstn in H;
      apply (selected_sentence_is_verbatim content x _ H).
  - intros x H. apply (StatisticFacts.statistics_are_statisticLike content x H).
  - intros c H. unfold extractKeyConcepts in H. apply filter_In in H. exact H.
Qed.

End ExtractionFacts.


(* ================================================================== *)
(** ** The white-space clean-up and the light redesign *)
(* ================================================================== *)

Module CleanUpFacts.
Import JS WhitespaceFacts SplitFacts TrimFacts ContentRedesigner.

(** Every white-space character is a plain space that follows no other
    ([afterSpace]: the character before was one). *)
Fixpoint spaced (afterSpace : bool) (s : string) : bool :=
  match s with
  | EmptyString => true
  | String c s' =>
      if isWhiteSpace c
      then Ascii.eqb c " "%char && negb afterSpace && spaced true s'
      else spaced false s'
  end.

Lemma collapse_spaced (b : bool) (s : string) : spaced b (collapseFrom b s) = true.
Proof.
  revert b. induction s as [|c s IH]; intros b; cbn [collapseFrom]; [reflexivity|].
  destruct (isWhiteSpace c) eqn:Ec.
  - destruct b; [apply IH|].
    cbn [spaced]. change (isWhiteSpace " "%char) with true. cbn iota.
    rewrite Ascii.eqb_refl. cbn [negb andb]. apply IH.
  - cbn [spaced]. rewrite Ec. apply IH.
Qed.

Lemma spaced_fixed (b : bool) (s : string) :
  spaced b s = true -> collapseFrom b s = s.
Proof.
  revert b. induction s as [|c s IH]; intros b; cbn [spaced collapseFrom]; [reflexivity|].
  destruct (isWhiteSpace c) eqn:Ec.
  - intros H. apply andb_true_iff in H. destruct H as [H Hs].
    apply andb_true_iff in H. destruct H as [Hc Hb].
    apply Ascii.eqb_eq in Hc. apply negb_true_iff in Hb. subst c b.
    now rewrite (IH true Hs).
  - intros H. now rewrite (IH false H).
Qed.

Lemma spaced_after_any (b : bool) (s : string) : spaced b s = true -> spaced false s = true.
Proof.
  destruct s as [|c s]; cbn [spaced]; [reflexivity|].
  destruct (isWhiteSpace c); [|tauto].
  intros H. apply andb_true_iff in H. destruct H as [H Hs].
  apply andb_true_iff in H. destruct H as [Hc _]. now rewrite Hc, Hs.
Qed.

Lemma trimStart_spaced (b : bool) (s : string) :
  spaced b s = true -> spaced false (trimStart s) = true.
Proof.
  revert b. induction s as [|c s IH]; intros b; cbn [trimStart]; [reflexivity|].
  destruct (isWhiteSpace c) eqn:Ec.
  - cbn [spaced]. rewrite Ec. intros H. apply andb_true_iff in H. apply (IH true), H.
  - apply spaced_after_any.
Qed.

Lemma trimEnd_spaced (b : bool) (s : string) :
  spaced b s = true -> spaced b (trimEnd s) = true.
Proof.
  revert b. induction s as [|c s IH]; intros b; cbn [trimEnd spaced]; [reflexivity|].
  destruct (isWhiteSpace c) eqn:Ec.
  - intros H. apply andb_true_iff in H. destruct H as [H Hs].
    specialize (IH true Hs). destruct (trimEnd s) as [|d r]; [reflexivity|].
    cbn [spaced]. rewrite Ec, H. exact IH.
  - intros H. specialize (IH false H). destruct (trimEnd s) as [|d r].
    + cbn [spaced]. now rewrite Ec.
    + cbn [spaced]. rewrite Ec. exact IH.
Qed.

Lemma spaced_not_adjacent (b : bool) (s : string) :
  spaced b s = true -> adjacent isWhiteSpace isWhiteSpace s = false.
Proof.
  revert b. induction s as [|c s IH]; intros b H; [reflexivity|].
  destruct s as [|d s]; [reflexivity|].
  change (adjacent isWhiteSpace isWhiteSpace (String c (String d s)))
    with ((isWhiteSpace c && isWhiteSpace d)
          || adjacent isWhiteSpace isWhiteSpace (String d s)).
  cbn [spaced] in H. destruct (isWhiteSpace c) eqn:Ec.
  - apply andb_true_iff in H. destruct H as [_ Hs].
    rewrite (IH true Hs), orb_false_r. cbn [andb].
    cbn [spaced] in Hs. destruct (isWhiteSpace d); [|reflexivity].
    cbn [negb] in Hs. rewrite andb_false_r in Hs. discriminate Hs.
  - cbn [andb orb]. apply (IH false H).
Qed.

(** X12.  The white-space clean-up of the light redesign yields a normal
    form: the only white space left is the plain space, no two white-space
    characters are adjacent, there is none at either end, and cleaning up a
    second time changes nothing. *)
Theorem cleanup_yields_normal_form (content : string) :
  let cleaned := cleanUpWhitespace content in
  allChars spaceOrInk cleaned = true /\
  adjacent isWhiteSpace isWhiteSpace cleaned = false /\
  trim cleaned = cleaned /\
  cleanUpWhitespace cleaned = cleaned.
Proof.
  cbn zeta. destruct (cleanUp_spaces content) as [Heq Hsp].
  assert (Hspaced : spaced false (cleanUpWhitespace content) = true).
  { rewrite Heq. unfold trim, collapseWhitespace.
    apply trimEnd_spaced, (trimStart_spaced false), collapse_spaced. }
  assert (Htrim : trim (cleanUpWhitespace content) = cleanUpWhitespace content).
  { rewrite Heq. apply trim_idem. }
  repeat split.
  - exact Hsp.
  - apply (spaced_not_adjacent false), Hspaced.
  - exact Htrim.
  - rewrite (proj1 (cleanUp_spaces (cleanUpWhitespace content))).
    unfold collapseWhitespace. rewrite (spaced_fixed false _ Hspaced). exact Htrim.
Qed.

(** *** Markers without white space survive the clean-up *)

Lemma includes_later (c : ascii) (s t : string) :
  includes s t = true -> includes (String c s) t = true.
Proof. intros H. cbn [includes]. rewrite H. apply orb_true_r. Qed.

Lemma ink_not_space (c : ascii) : ink c = true -> isWhiteSpace c = false.
Proof. unfold ink. apply negb_true_iff. Qed.

Lemma collapse_ink_prefix (t r : string) : forall (b : bool) (c : ascii),
  ink c = true -> allChars ink t = true ->
  collapseFrom b (String c (t ++ r)) = String c (t ++ collapseFrom false r).
Proof.
  induction t as [|d t IH]; intros b c Hc Ht; cbn [collapseFrom];
    rewrite (ink_not_space c Hc).
  - reflexivity.
  - cbn [allChars] in Ht. apply andb_true_iff in Ht. destruct Ht as [Hd Ht].
    change (String d t ++ r) with (String d (t ++ r)).
    rewrite (IH false d Hd Ht). reflexivity.
Qed.

Lemma trimEnd_ink_prefix (t r : string) : forall c : ascii,
  ink c = true -> allChars ink t = true ->
  exists r', trimEnd (String c (t ++ r)) = String c (t ++ r').
Proof.
  intros c Hc Ht. revert c Hc.
  induction t as [|d t IH]; intros c Hc.
  - cbn [append trimEnd].
    change ("" ++ r) with r.
    destruct (trimEnd r) as [|e r'].
    + rewrite (ink_not_space c Hc). now exists EmptyString.
    + now exists (String e r').
  - cbn [allChars] in Ht. apply andb_true_iff in Ht. destruct Ht as [Hd Ht'].
    change (String d t ++ r) with (String d (t ++ r)).
    destruct (IH Ht' d Hd) as [r' Hr'].
    cbn [trimEnd] in Hr' |- *.
    change (trimEnd (String d (t ++ r))) with
      (match trimEnd (t ++ r) with
       | EmptyString => if isWhiteSpace d then EmptyString else String d EmptyString
       | String a s0 => String d (String a s0)
       end).
    rewrite Hr'. exists r'. reflexivity.
Qed.

(** A non-empty marker without white space that occurs in a text occurs in
    the text after each step of the clean-up. *)
Section Marker.
Variables (m : ascii) (t : string).
Hypothesis (Hm : ink m = true) (Ht : allChars ink t = true).

Lemma collapse_keeps_marker (s : string) : forall b : bool,
  includes s (String m t) = true -> includes (collapseFrom b s) (String m t) = true.
Proof.
  induction s as [|c s IH]; intros b H.
  - discriminate H.
  - cbn [includes] in H. apply orb_true_iff in H. destruct H as [H|H].
    + apply Text.startsWith_split in H. destruct H as [r Hr].
      change (String m t ++ r) with (String m (t ++ r)) in Hr. rewrite Hr.
      rewrite (collapse_ink_prefix t r b m Hm Ht).
      apply Text.includes_head.
      exact (Text.startsWith_app false (String m t) (collapseFrom false r)).
    + cbn [collapseFrom]. destruct (isWhiteSpace c).
      * destruct b; [apply IH, H|apply includes_later, IH, H].
      * apply includes_later, IH, H.
Qed.

Lemma trimStart_keeps_marker (s : string) :
  includes s (String m t) = true -> includes (trimStart s) (String m t) = true.
Proof.
  induction s as [|c s IH]; intros H; [discriminate H|].
  cbn [trimStart]. destruct (isWhiteSpace c) eqn:Ec; [|exact H].
  cbn [includes] in H. apply orb_true_iff in H. destruct H as [H|H]; [|apply IH, H].
  unfold startsWith in H. cbn [startsWithG] in H.
  apply andb_true_iff in H. destruct H as [H _].
  apply Ascii.eqb_eq in H. subst c. rewrite (ink_not_space m Hm) in Ec. discriminate Ec.
Qed.

Lemma trimEnd_keeps_marker (s : string) :
  includes s (String m t) = true -> includes (trimEnd s) (String m t) = true.
Proof.
  induction s as [|c s IH]; intros H; [discriminate H|].
  cbn [includes] in H. apply orb_true_iff in H. destruct H as [H|H].
  - apply Text.startsWith_split in H. destruct H as [r Hr].
    change (String m t ++ r) with (String m (t ++ r)) in Hr. rewrite Hr.
    destruct (trimEnd_ink_prefix t r m Hm Ht) as [r' E]. rewrite E.
    apply Text.includes_head.
    exact (Text.startsWith_app false (String m t) r').
  - specialize (IH H). cbn [trimEnd].
    destruct (trimEnd s) as [|d r]; [discriminate IH|].
    apply includes_later, IH.
Qed.

Lemma cleanUp_keeps_marker (s : string) :
  includes s (String m t) = true ->
  includes (cleanUpWhitespace s) (String m t) = true.
Proof.
  intros H. rewrite (proj1 (cleanUp_spaces s)). unfold trim, collapseWhitespace.
  apply trimEnd_keeps_marker, trimStart_keeps_marker, collapse_keeps_marker, H.
Qed.

End Marker.

Lemma disclaimer_names_consultation (content : string) :
  includes (getAppropriateDisclaimer content) "consult" = true.
Proof.
  unfold getAppropriateDisclaimer.
  match goal with |- context [if ?b then _ else _] => destruct b end;
    vm_compute; reflexivity.
Qed.

(** X13.  Whenever the audit handed to the light redesign reports
    disclaimers absent, the revised text has them: both disclaimer checks
    accept it, and its compliance score is at least 75. *)
Theorem light_redesign_supplies_missing_disclaimer (originalContent : string)
        (audit : ContentAuditor.ContentAudit) (keyInfo : option KeyInformation) :
  ContentAuditor.disclaimers_present
    (ContentAuditor.complianceAnalysis (ContentAuditor.detailed_analysis audit)) = false ->
  let revised := performLightRedesign originalContent audit keyInfo in
  ContentAuditor.checkDisclaimers revised = true /\
  BrandVoiceEngine.disclaimers_included
    (BrandVoiceEngine.validateBrandCompliance revised) = true /\
  75 <= ContentAuditor.cr_score (ContentAuditor.analyzeCompliance revised).
Proof.
  intros Habsent. cbn zeta.
  assert (Hconsult :
    includes (toLowerCase (performLightRedesign originalContent audit keyInfo))
             "consult" = true).
  { apply (Text.includes_lower _ "consult").
    unfold performLightRedesign, lightSubstitutions. rewrite Habsent. cbn [negb].
    apply cleanUp_keeps_marker; [reflexivity|reflexivity|].
    apply MarkerFacts.includes_tail, disclaimer_names_consultation. }
  destruct (GenerationFacts.consult_is_a_disclaimer _ Hconsult) as [Haud Hval].
  repeat split; [exact Haud|exact Hval|].
  rewrite (AuditFacts.compliance_score_of_flags
             (performLightRedesign originalContent audit keyInfo)).
  cbn [ContentAuditor.analyzeCompliance ContentAuditor.disclaimers_present].
  rewrite Haud.
  repeat match goal with |- context [if ?b then _ else _] => destruct b end; cbn; lia.
Qed.

Definition plainOffer : string := "Gold coins are available this week".

Lemma light_redesign_supplies_missing_disclaimer_witness :
  ContentAuditor.disclaimers_present
    (ContentAuditor.complianceAnalysis
       (ContentAuditor.detailed_analysis (ContentAuditor.auditContent plainOffer None))) = false /\
  ContentAuditor.checkDisclaimers
    (performLightRedesign plainOffer (ContentAuditor.auditContent plainOffer None) None) = true.
Proof.
  split; [reflexivity|].
  exact (proj1 (light_redesign_supplies_missing_disclaimer
                  plainOffer (ContentAuditor.auditContent plainOffer None) None eq_refl)).
Defined.

(** The text without its white space. *)
Fixpoint inkOf (s : string) : string :=
  match s with
  | EmptyString => EmptyString
  | String c s' => if isWhiteSpace c then inkOf s' else String c (inkOf s')
  end.

Lemma inkOf_collapse (b : bool) (s : string) : inkOf (collapseFrom b s) = inkOf s.
Proof.
  revert b. induction s as [|c s IH]; intros b; cbn [collapseFrom inkOf]; [reflexivity|].
  destruct (isWhiteSpace c) eqn:Ec.
  - destruct b; [apply IH|]. cbn [inkOf]. change (isWhiteSpace " "%char) with true.
    cbn iota. apply IH.
  - cbn [inkOf]. now rewrite Ec, IH.
Qed.

Lemma inkOf_trimStart (s : string) : inkOf (trimStart s) = inkOf s.
Proof.
  induction s as [|c s IH]; cbn [trimStart inkOf]; [reflexivity|].
  destruct (isWhiteSpace c) eqn:Ec; [exact IH|]. cbn [inkOf]. now rewrite Ec.
Qed.

Lemma inkOf_trimEnd (s : string) : inkOf (trimEnd s) = inkOf s.
Proof.
  induction s as [|c s IH]; cbn [trimEnd inkOf]; [reflexivity|].
  destruct (trimEnd s) as [|d r].
  - cbn [inkOf] in IH. rewrite <- IH.
    destruct (isWhiteSpace c) eqn:Ec; [reflexivity|]. cbn [inkOf]. now rewrite Ec.
  - rewrite <- IH. cbn [inkOf]. reflexivity.
Qed.

(** X14.  When the audit handed to the light redesign lists no aggressive
    term and no pressure tactic and reports disclaimers present, the light
    redesign changes white space only: the result is the text with every
    run of white space turned into one space and the ends trimmed, and the
    characters other than white space are those of the original, in order. *)
Theorem light_redesign_of_clean_text (originalContent : string)
        (audit : ContentAuditor.ContentAudit) (keyInfo : option KeyInformation) :
  let analysis := ContentAuditor.detailed_analysis audit in
  ContentAuditor.aggressive_terms (ContentAuditor.salesTacticsAnalysis analysis) = [] ->
  ContentAuditor.pressure_tactics (ContentAuditor.salesTacticsAnalysis analysis) = [] ->
  ContentAuditor.disclaimers_present (ContentAuditor.complianceAnalysis analysis) = true ->
  performLightRedesign originalContent audit keyInfo =
    trim (collapseWhitespace originalContent) /\
  inkOf (performLightRedesign originalContent audit keyInfo) = inkOf originalContent.
Proof.
  cbn zeta. intros Hagg Hpress Hdisc.
  assert (Heq : performLightRedesign originalContent audit keyInfo =
                trim (collapseWhitespace originalContent)).
  { unfold performLightRedesign, lightSubstitutions.
    rewrite Hagg, Hpress, Hdisc. cbn [fold_left negb].
    apply (proj1 (cleanUp_spaces originalContent)). }
  split; [exact Heq|].
  rewrite Heq. unfold trim, collapseWhitespace.
  now rewrite inkOf_trimEnd, inkOf_trimStart, inkOf_collapse.
Qed.

Definition soberNote : string :=
  "Please  consult a specialist.
Gold is one option to evaluate.".

Lemma light_redesign_of_clean_text_witness :
  performLightRedesign soberNote (ContentAuditor.auditContent soberNote None) None =
  "Please consult a specialist. Gold is one option to evaluate.".
Proof.
  rewrite (proj1 (light_redesign_of_clean_text
                    soberNote (ContentAuditor.auditContent soberNote None) None
                    eq_refl eq_refl eq_refl)).
  reflexivity.
Defined.

End CleanUpFacts.

(* ================================================================== *)
(** ** Where the two insertions of the weaving land *)
(* ================================================================== *)

Module InsertionFacts.
Import JS WhitespaceFacts SplitFacts ContentRedesigner.

(** The number of full stops of a text. *)
Fixpoint dots (s : string) : nat :=
  match s with
  | EmptyString => O
  | String c s' => if Ascii.eqb c "."%char then S (dots s') else dots s'
  end.

Lemma length_splitChar (s : string) :
  List.length (splitChar "."%char s) = S (dots s).
Proof.
  induction s as [|c s IH]; cbn [splitChar dots]; [reflexivity|].
  destruct (Ascii.eqb c "."%char).
  - cbn [List.length]. now rewrite IH.
  - destruct (splitChar "."%char s) as [|p ps]; [discriminate IH|exact IH].
Qed.

Lemma insertStatistic_lands (content item : string) :
  (exists p0 p1 rest,
     allChars notDot p0 = true /\ allChars notDot p1 = true /\
     content = p0 ++ "." ++ p1 ++ "." ++ rest /\
     insertStatistic content item = p0 ++ "." ++ p1 ++ ". " ++ item ++ "." ++ rest)
  \/ ((dots content < 2)%nat /\ insertStatistic content item = content ++ " " ++ item).
Proof.
  unfold insertStatistic.
  pose proof (length_splitChar content) as Hlen.
  pose proof (join_splitChar content) as Hjoin.
  pose proof (splitChar_piece_noDot content) as Hpieces.
  destruct (splitChar "."%char content) as [|p0 [|p1 [|q qs]]].
  - discriminate Hlen.
  - right. cbn in Hlen |- *. split; [lia|reflexivity].
  - right. cbn in Hlen |- *. split; [lia|reflexivity].
  - left. exists p0, p1, (join "." (q :: qs)).
    split; [apply Hpieces; cbn; tauto|].
    split; [apply Hpieces; cbn; tauto|].
    rewrite !join_cons in Hjoin by discriminate.
    split; [now rewrite Hjoin|].
    cbn [List.length Nat.ltb Nat.leb]. unfold spliceIn. cbn [firstn skipn List.app].
    rewrite !join_cons by discriminate. reflexivity.
Qed.

Lemma first_piece_head (d : ascii) (s p : string) (ps : list string) :
  Ascii.eqb d newline = false ->
  split pb (String d s) = p :: ps -> exists p', p = String d p'.
Proof.
  intros Ed H. unfold split in H. cbn [splitFrom] in H.
  rewrite startsWith_break, Ed in H. cbn [andb] in H.
  destruct (splitFrom pb 0 s) as [|p' ps']; injection H as Hp _; subst p; eauto.
Qed.

(** The first piece of a text split at paragraph breaks, when there is a
    second: no break starts inside it. *)
Lemma split_first_piece (s : string) : forall p q qs,
  split pb s = p :: q :: qs -> headPara p = true.
Proof.
  induction s as [|c s IH]; intros p q qs H; [discriminate H|].
  unfold split in H. cbn [splitFrom] in H. rewrite startsWith_break in H.
  destruct (Ascii.eqb c newline) eqn:Ec; cbn [andb] in H.
  - destruct s as [|d s].
    + discriminate H.
    + cbn iota in H. destruct (Ascii.eqb d newline) eqn:Ed.
      * injection H as Hp _. now subst p.
      * (* the piece starts with a lone newline and goes on with [d] *)
        fold (split pb (String d s)) in H.
        destruct (split pb (String d s)) as [|p' ps'] eqn:Es.
        -- injection H as _ Hps. discriminate Hps.
        -- injection H as Hp Hps. subst p ps'.
           destruct (first_piece_head d s p' (q :: qs) Ed Es) as [p'' ->].
           specialize (IH (String d p'') q qs eq_refl).
           cbn [headPara] in IH |- *. rewrite Ec, Ed in *. cbn [andb negb] in *. exact IH.
  - fold (split pb s) in H.
    destruct (split pb s) as [|p' ps'] eqn:Es.
    + discriminate H.
    + injection H as Hp Hps. subst p ps'.
      cbn [headPara]. rewrite Ec. cbn [andb negb].
      apply (IH p' q qs). reflexivity.
Qed.

Lemma split_of_break (s : string) :
  includes s pb = true -> (2 <= List.length (split pb s))%nat.
Proof.
  induction s as [|c s IH]; intros H; [discriminate H|].
  cbn [includes] in H. unfold split. cbn [splitFrom].
  destruct (startsWith (String c s) pb) eqn:Est.
  - cbn [List.length].
    rewrite startsWith_break in Est. apply andb_true_iff in Est. destruct Est as [_ Est].
    destruct s as [|d s]; [discriminate Est|].
    cbn [String.length Nat.pred pb ContentRedesigner.paragraphBreak
         ContentGenerator.paragraphBreak splitFrom].
    pose proof (split_break_nonempty s) as Hne. unfold split in Hne.
    destruct (splitFrom pb 0 s); [congruence|cbn; lia].
  - cbn [orb] in H. specialize (IH H). unfold split in IH.
    destruct (splitFrom pb 0 s) as [|p' ps']; [cbn in IH; lia|exact IH].
Qed.

Lemma insertFact_lands (content item : string) :
  (exists p rest,
     headPara p = true /\ content = p ++ pb ++ rest /\
     insertFact content item = p ++ pb ++ item ++ pb ++ rest)
  \/ (includes content pb = false /\ insertFact content item = content ++ pb ++ item).
Proof.
  unfold insertFact. fold pb.
  pose proof (join_split_break content) as Hjoin.
  pose proof (split_first_piece content) as Hfirst.
  pose proof (split_of_break content) as Hbreak.
  pose proof (split_break_nonempty content) as Hne.
  destruct (split pb content) as [|p [|q qs]].
  - congruence.
  - right. split; [|reflexivity].
    destruct (includes content pb); [|reflexivity].
    specialize (Hbreak eq_refl). cbn in Hbreak. lia.
  - left. exists p, (join pb (q :: qs)).
    split; [apply (Hfirst p q qs eq_refl)|].
    rewrite join_cons in Hjoin by discriminate.
    split; [now rewrite Hjoin|].
    cbn [List.length Nat.ltb Nat.leb]. unfold spliceIn. cbn [firstn skipn List.app].
    rewrite !join_cons by discriminate. reflexivity.
Qed.

(** X15.  The two insertions of the weaving only add text.  A statistic goes
    right after the second full stop, as a sentence of its own, when the
    text has two full stops, and at the end of the text otherwise; a fact
    goes right after the first paragraph break, as a paragraph of its own,
    when the text has a break, and at the end otherwise.  The text before
    and after the insertion point is unchanged, and the item is in the
    result. *)
Theorem insertions_only_add (content item : string) :
  ((exists p0 p1 rest,
      allChars notDot p0 = true /\ allChars notDot p1 = true /\
      content = p0 ++ "." ++ p1 ++ "." ++ rest /\
      insertStatistic content item = p0 ++ "." ++ p1 ++ ". " ++ item ++ "." ++ rest)
   \/ ((dots content < 2)%nat /\
       insertStatistic content item = content ++ " " ++ item)) /\
  ((exists p rest,
      headPara p = true /\ content = p ++ pb ++ rest /\
      insertFact content item = p ++ pb ++ item ++ pb ++ rest)
   \/ (includes content pb = false /\
       insertFact content item = content ++ pb ++ item)) /\
  includes (insertStatistic content item) item = true /\
  includes (insertFact content item) item = true.
Proof.
  pose proof (insertStatistic_lands content item) as Hs.
  pose proof (insertFact_lands content item) as Hf.
  repeat split; try assumption.
  - apply Text.includes_occurs.
    destruct Hs as [[p0 [p1 [rest [_ [_ [_ ->]]]]]]|[_ ->]].
    + exists (p0 ++ "." ++ p1 ++ ". "), ("." ++ rest).
      now rewrite !Text.app_assoc.
    + exists (content ++ " "), "". rewrite !Text.app_assoc.
      f_equal. f_equal. clear. induction item as [|c x IH]; cbn; [reflexivity|now rewrite <- IH].
  - apply Text.includes_occurs.
    destruct Hf as [[p [rest [_ [_ ->]]]]|[_ ->]].
    + exists (p ++ pb), (pb ++ rest). now rewrite !Text.app_assoc.
    + exists (content ++ pb), "". rewrite !Text.app_assoc.
      f_equal. f_equal. clear. induction item as [|c x IH]; cbn; [reflexivity|now rewrite <- IH].
Qed.

End InsertionFacts.

(* ================================================================== *)
(** ** The compliance pass of the moderate redesign *)
(* ================================================================== *)

Module CompliancePassFacts.
Import JS SplitFacts ContentAuditor ContentRedesigner MarkerFacts.

Lemma app_empty_r (s : string) : s ++ "" = s.
Proof. induction s as [|c s IH]; cbn; [reflexivity|now rewrite IH]. Qed.

Lemma anyChar_middle (p : ascii -> bool) (a b : string) (c : ascii) :
  p c = true -> anyChar p (a ++ String c b) = true.
Proof.
  intros H. induction a as [|x a IH].
  - change ("" ++ String c b) with (String c b). cbn [anyChar]. now rewrite H.
  - change (String x a ++ String c b) with (String x (a ++ String c b)).
    cbn [anyChar]. rewrite IH. apply orb_true_r.
Qed.

(** A marker that lacks the character [c] cannot lie across a boundary at
    which [c] stands. *)
Lemma no_straddle (a b t : string) (c : ascii) :
  anyChar (Ascii.eqb c) t = false ->
  includes a t = false -> includes (String c b) t = false ->
  includes (a ++ String c b) t = false.
Proof.
  intros Hc Ha Hb. destruct (includes (a ++ String c b) t) eqn:E; [exfalso|reflexivity].
  apply Text.includes_occurs in E. destruct E as [u [v E]].
  destruct (Text.app_eq_app a (String c b) u (t ++ v) E) as [[m [Hm1 Hm2]]|[m [Hm1 Hm2]]].
  - destruct (Text.app_eq_app t v m (String c b) Hm2) as [[k [Hk1 Hk2]]|[k [Hk1 Hk2]]].
    + destruct k as [|c' k].
      * rewrite app_empty_r in Hk1. subst t.
        assert (Hin : includes a m = true).
        { apply Text.includes_occurs. exists u, "". now rewrite app_empty_r. }
        congruence.
      * cbn in Hk2. injection Hk2 as Hcc _. subst c'.
        rewrite Hk1, anyChar_middle in Hc; [discriminate|apply Ascii.eqb_refl].
    + assert (Hin : includes a t = true).
      { apply Text.includes_occurs. exists u, k. now rewrite Hm1, Hk1. }
      congruence.
  - assert (Hin : includes (String c b) t = true).
    { apply Text.includes_occurs. now exists m, v. }
    congruence.
Qed.

Lemma disclaimer_cases (content : string) :
  getAppropriateDisclaimer content = ContentGenerator.disclaimer_investment \/
  getAppropriateDisclaimer content = ContentGenerator.disclaimer_general.
Proof.
  unfold getAppropriateDisclaimer.
  match goal with |- context [if ?b then _ else _] => destruct b end; tauto.
Qed.

(** Neither disclaimer names a risk, and each starts on a new line. *)
Lemma disclaimer_adds_no_risk (content : string) :
  includes (toLowerCase content) "risk" = false ->
  includes (toLowerCase (content ++ getAppropriateDisclaimer content)) "risk" = false.
Proof.
  intros H. rewrite toLowerCase_app.
  destruct (disclaimer_cases content) as [-> | ->].
  - apply (no_straddle (toLowerCase content)
             (toLowerCase (dropChars 1 ContentGenerator.disclaimer_investment))
             "risk" newline); [reflexivity|exact H|vm_compute; reflexivity].
  - apply (no_straddle (toLowerCase content)
             (toLowerCase (dropChars 1 ContentGenerator.disclaimer_general))
             "risk" newline); [reflexivity|exact H|vm_compute; reflexivity].
Qed.

(** The pass as the three steps it is. *)
Definition withDisclaimer (add : bool) (content : string) : string :=
  if add then content ++ getAppropriateDisclaimer content else content.
Definition withRisk (add : bool) (content : string) : string :=
  if add then addRiskDisclosures content else content.
Definition withFraming (add : bool) (content : string) : string :=
  if add then addEducationalFraming content else content.

Lemma ensureCompliance_steps (content : string) (audit : ContentAudit) :
  let requirements := complianceAnalysis (detailed_analysis audit) in
  ensureCompliance content audit =
  withFraming (negb (educational_framing requirements))
    (withRisk (negb (risk_disclosures requirements))
       (withDisclaimer (negb (disclaimers_present requirements)) content)).
Proof. reflexivity. Qed.

Definition wraps (f : string -> string) : Prop :=
  forall x, exists before after, f x = before ++ x ++ after.

Lemma wraps_id_at (x : string) : exists before after, x = before ++ x ++ after.
Proof. exists "", "". cbn. now rewrite app_empty_r. Qed.

Lemma withDisclaimer_wraps (add : bool) : wraps (withDisclaimer add).
Proof.
  intros x. destruct add; cbn [withDisclaimer]; [|apply wraps_id_at].
  now exists "", (getAppropriateDisclaimer x).
Qed.

Lemma withRisk_wraps (add : bool) : wraps (withRisk add).
Proof.
  intros x. destruct add; cbn [withRisk]; [|apply wraps_id_at].
  unfold addRiskDisclosures. destruct (negb _); [|apply wraps_id_at].
  now exists "", riskSentence.
Qed.

Lemma withFraming_wraps (add : bool) : wraps (withFraming add).
Proof.
  intros x. destruct add; cbn [withFraming]; [|apply wraps_id_at].
  unfold addEducationalFraming. destruct (_ && _); [|apply wraps_id_at].
  exists educationalOpening, "". now rewrite app_empty_r.
Qed.

Lemma wraps_compose (f g : string -> string) :
  wraps f -> wraps g -> wraps (fun x => g (f x)).
Proof.
  intros Hf Hg x. destruct (Hf x) as [a [b Hab]]. destruct (Hg (f x)) as [a' [b' Hab']].
  exists (a' ++ a), (b ++ b'). rewrite Hab', Hab. now rewrite !Text.app_assoc.
Qed.

Lemma risk_sentence_discloses (before after : string) :
  checkRiskDisclosures (before ++ riskSentence ++ after) = true.
Proof.
  unfold checkRiskDisclosures.
  pose proof (count_embed riskTerms before riskSentence after) as H.
  assert (H2 : count riskTerms (toLowerCase riskSentence) = 2) by (vm_compute; reflexivity).
  lia.
Qed.

(** X16.  The compliance pass of the moderate redesign only adds text around
    the content, so it takes no compliance flag away and never lowers the
    compliance score.  When the audit it is given reports disclaimers
    absent, the result has a disclaimer.  When the audit reports risk
    disclosures absent and the content does not hold the word risk, the
    result has risk disclosures. *)
Theorem compliance_pass_adds_what_is_missing (content : string) (audit : ContentAudit) :
  let requirements := complianceAnalysis (detailed_analysis audit) in
  let result := ensureCompliance content audit in
  (exists before after, result = before ++ content ++ after) /\
  (checkDisclaimers content = true -> checkDisclaimers result = true) /\
  (checkRiskDisclosures content = true -> checkRiskDisclosures result = true) /\
  (checkEducationalFraming content = true -> checkEducationalFraming result = true) /\
  cr_score (analyzeCompliance content) <= cr_score (analyzeCompliance result) /\
  (disclaimers_present requirements = false -> checkDisclaimers result = true) /\
  (risk_disclosures requirements = false ->
   includes (toLowerCase content) "risk" = false ->
   checkRiskDisclosures result = true).
Proof.
  cbn zeta.
  assert (Hwrap : exists before after,
            ensureCompliance content audit = before ++ content ++ after).
  { rewrite ensureCompliance_steps.
    exact (wraps_compose _ _
             (wraps_compose _ _ (withDisclaimer_wraps _) (withRisk_wraps _))
             (withFraming_wraps _) content). }
  split; [exact Hwrap|].
  destruct Hwrap as [before [after Hwrap]].
  destruct (flags_survive_added_text before content after) as [Hd [Hr He]].
  rewrite Hwrap.
  split; [exact Hd|]. split; [exact Hr|]. split; [exact He|].
  split; [apply score_survives_added_text|].
  rewrite <- Hwrap. rewrite ensureCompliance_steps. cbn zeta. split.
  - intros Habsent. rewrite Habsent. cbn [negb withDisclaimer].
    set (disclaimed := content ++ getAppropriateDisclaimer content).
    destruct (wraps_compose _ _ (withRisk_wraps (negb (risk_disclosures
                (complianceAnalysis (detailed_analysis audit)))))
                (withFraming_wraps (negb (educational_framing
                (complianceAnalysis (detailed_analysis audit))))) disclaimed)
      as [a [b ->]].
    apply (proj1 (flags_survive_added_text a disclaimed b)).
    unfold checkDisclaimers. apply existsb_exists. exists "consult".
    split; [cbn; tauto|].
    unfold disclaimed. rewrite toLowerCase_app. apply includes_tail.
    destruct (disclaimer_cases content) as [-> | ->]; vm_compute; reflexivity.
  - intros Habsent Hnorisk. rewrite Habsent. cbn [negb withRisk].
    set (disclaimed := withDisclaimer _ content).
    assert (Hstill : includes (toLowerCase disclaimed) "risk" = false).
    { unfold disclaimed. destruct (negb _); cbn [withDisclaimer]; [|exact Hnorisk].
      apply disclaimer_adds_no_risk, Hnorisk. }
    unfold addRiskDisclosures. rewrite Hstill. cbn [negb].
    destruct (withFraming_wraps (negb (educational_framing
                (complianceAnalysis (detailed_analysis audit))))
                (disclaimed ++ riskSentence)) as [a [b ->]].
    rewrite !Text.app_assoc, <- (Text.app_assoc a disclaimed).
    apply risk_sentence_discloses.
Qed.

End CompliancePassFacts.

(* ================================================================== *)
(** ** SEO metadata *)
(* ================================================================== *)

Module SeoFacts.
Import JS.

Lemma length_sliceTo (n : nat) (s : string) : (String.length (sliceTo n s) <= n)%nat.
Proof.
  revert s. induction n as [|n IH]; intros [|c s]; cbn [sliceTo String.length]; try lia.
  specialize (IH s). lia.
Qed.

Lemma length_app (a b : string) :
  String.length (a ++ b) = (String.length a + String.length b)%nat.
Proof. induction a as [|c a IH]; cbn; [reflexivity|now rewrite IH]. Qed.

Lemma orElse_nonempty (x : option string) (d : string) :
  d <> EmptyString -> orElse x d <> EmptyString.
Proof. intros Hd. destruct x as [[|c s]|]; cbn [orElse]; try exact Hd. discriminate. Qed.

Lemma uniqueFrom_fresh (l seen : list string) (x : string) :
  In x (uniqueFrom seen l) -> ~ In x seen.
Proof.
  revert seen. induction l as [|y l IH]; intros seen; cbn [uniqueFrom]; [intros []|].
  destruct (existsb (String.eqb y) seen) eqn:E; [apply IH|].
  intros [<-|H].
  - intros Hin. assert (Ht : existsb (String.eqb y) seen = true).
    { apply existsb_exists. exists y. split; [exact Hin|apply String.eqb_refl]. }
    congruence.
  - intros Hin. apply (IH (y :: seen) H). now right.
Qed.

Lemma uniqueFrom_NoDup (l seen : list string) : NoDup (uniqueFrom seen l).
Proof.
  revert seen. induction l as [|y l IH]; intros seen; cbn [uniqueFrom]; [constructor|].
  destruct (existsb (String.eqb y) seen); [apply IH|].
  constructor; [|apply IH].
  intros Hin. apply (uniqueFrom_fresh l (y :: seen) y Hin). now left.
Qed.

Lemma firstn_NoDup {A} (n : nat) (l : list A) : NoDup l -> NoDup (firstn n l).
Proof.
  revert l. induction n as [|n IH]; intros [|x l] H; cbn [firstn]; try constructor.
  - inversion H as [|? ? Hx Hl]; subst. intros Hin.
    apply Hx. revert Hin. clear. revert l. induction n as [|n IHn]; intros [|y l]; cbn; try tauto.
    intros [->|H]; [now left|right; now apply IHn].
  - inversion H; subst. now apply IH.
Qed.

Lemma length_firstn_le {A} (n : nat) (l : list A) : (List.length (firstn n l) <= n)%nat.
Proof. rewrite length_firstn. lia. Qed.

Lemma metaDescription_length (content : string) :
  length (ContentGenerator.extractMetaDescription content) <= 155.
Proof.
  unfold ContentGenerator.extractMetaDescription.
  match goal with |- context [if ?b then _ else _] => destruct b eqn:E end.
  - unfold length at 1. rewrite length_app.
    match goal with |- context [sliceTo 152 ?x] =>
      pose proof (length_sliceTo 152 x) as H end.
    cbn [String.length]. lia.
  - apply Z.ltb_ge in E. exact E.
Qed.

(** X17.  The SEO metadata of generated content.  The call returns exactly
    when the request has a topic.  Then the title has at most 60 characters
    and is the start of the h1, which is not empty; the meta description
    has at most 155 characters; there are at most 5 h2 suggestions and at
    most 10 keywords, no keyword is listed twice, and the first seven are
    the common keywords.  The generate_seo_metadata tool hands over a
    request without a topic, so it answers every call with an error. *)
Theorem seo_metadata_within_limits (content : string) (topic : option string) :
  match ContentGenerator.generateSEOMetadata content topic with
  | None => topic = None
  | Some m =>
      topic <> None /\
      length (ContentGenerator.title m) <= 60 /\
      ContentGenerator.title m = sliceTo 60 (ContentGenerator.h1 m) /\
      ContentGenerator.h1 m <> EmptyString /\
      length (ContentGenerator.meta_description m) <= 155 /\
      (List.length (ContentGenerator.h2_suggestions m) <= 5)%nat /\
      (List.length (ContentGenerator.keywords m) <= 10)%nat /\
      NoDup (ContentGenerator.keywords m) /\
      firstn 7 (ContentGenerator.keywords m) = ContentGenerator.commonKeywords
  end /\
  forall contentType, Server.handleGenerateSEO content contentType = None.
Proof.
  split; [|reflexivity].
  unfold ContentGenerator.generateSEOMetadata.
  destruct topic as [t|]; cbn [ContentGenerator.extractKeywords]; [|reflexivity].
  cbn [ContentGenerator.title ContentGenerator.h1 ContentGenerator.meta_description
       ContentGenerator.h2_suggestions ContentGenerator.keywords].
  split; [discriminate|].
  split. { unfold length. pose proof (length_sliceTo 60) as H. 
           match goal with |- Z.of_nat (String.length (sliceTo 60 ?x)) <= _ =>
             specialize (H x) end. lia. }
  split; [reflexivity|].
  split. { apply orElse_nonempty. destruct t; discriminate. }
  split; [apply metaDescription_length|].
  split; [apply length_firstn_le|].
  split; [apply length_firstn_le|].
  split; [apply firstn_NoDup, uniqueFrom_NoDup|].
  reflexivity.
Qed.

(** X18.  The SEO metadata of a redesigned text: the title has at most 60
    characters and is the start of the h1, which is not empty; the meta
    description has at most 158 characters: 155 of the paragraph and the
    three dots that are added beyond the 155. *)
Theorem redesign_seo_metadata_within_limits (content : string) :
  let m := ContentRedesigner.generateSEOMetadata content in
  length (ContentRedesigner.title m) <= 60 /\
  ContentRedesigner.title m = sliceTo 60 (ContentRedesigner.h1 m) /\
  ContentRedesigner.h1 m <> EmptyString /\
  length (ContentRedesigner.meta_description m) <= 158.
Proof.
  cbn zeta. unfold ContentRedesigner.generateSEOMetadata.
  cbn [ContentRedesigner.title ContentRedesigner.h1 ContentRedesigner.meta_description].
  split. { unfold length. pose proof (length_sliceTo 60) as H. 
           match goal with |- Z.of_nat (String.length (sliceTo 60 ?x)) <= _ =>
             specialize (H x) end. lia. }
  split; [reflexivity|].
  split; [apply orElse_nonempty; discriminate|].
  unfold length at 1. rewrite length_app.
  match goal with |- context [sliceTo 155 ?x] =>
    pose proof (length_sliceTo 155 x) as H end.
  match goal with |- context [if ?b then _ else _] => destruct b end;
    cbn [String.length]; lia.
Qed.

End SeoFacts.

(* ================================================================== *)
(** ** The knowledge base: adding, removing, relevance *)
(* ================================================================== *)

Module KnowledgeFacts.
Import JS KnowledgeManager.

Lemma url_listed (wanted : string) (base : list KnowledgeSource) :
  existsb (fun source => String.eqb (url source) wanted) base = true <->
  In wanted (map url base).
Proof.
  split.
  - intros H. apply existsb_exists in H. destruct H as [s [Hin Hs]].
    apply String.eqb_eq in Hs. subst wanted. now apply in_map.
  - intros H. apply in_map_iff in H. destruct H as [s [<- Hin]].
    apply existsb_exists. exists s. split; [exact Hin|apply String.eqb_refl].
Qed.


(** X19.  Adding a knowledge source is refused exactly when a source with
    the same URL, character for character, is already in the base; otherwise
    the base grows by the new source at its end and is otherwise unchanged.
    The new source has the URL and the type given, an id made of the clock,
    a description and a tag list that are never missing, and a content that
    is never missing either: the page's text, or the text of the error.  URLs
    that were pairwise distinct before the call are so after it. *)
Theorem adding_keeps_urls_distinct (now updated : Z) (fetched : string + string)
        (newUrl sourceType : string) (newDescription : option string)
        (newTags : option (list string)) (base : list KnowledgeSource) :
  match addKnowledgeSource now updated fetched newUrl sourceType
                           newDescription newTags base with
  | None => In newUrl (map url base)
  | Some (source, base') =>
      ~ In newUrl (map url base) /\
      base' = (base ++ [source])%list /\
      url source = newUrl /\ source_type source = sourceType /\
      id source = "user_" ++ decimal now /\
      description source <> None /\ description source <> Some EmptyString /\
      tags source <> None /\ content source <> None /\
      (NoDup (map url base) -> NoDup (map url base'))
  end.
Proof.
  unfold addKnowledgeSource.
  destruct (existsb (fun source => String.eqb (url source) newUrl) base) eqn:E.
  - apply url_listed, E.
  - assert (Hnew : ~ In newUrl (map url base)).
    { intros H. apply url_listed in H. congruence. }
    cbn [url source_type id description tags content]. unfold push.
    repeat split; try discriminate; try exact Hnew.
    + intros H. injection H as H. revert H.
      destruct newDescription as [[|c d]|]; cbn [orElse]; discriminate.
    + intros Hnd. rewrite map_app. cbn [map url].
      apply NoDup_app; [exact Hnd|repeat constructor; intros []|].
      intros x Hx [<-|[]]. exact (Hnew Hx).
Qed.

Lemma findIndex_found (wanted : string) (base : list KnowledgeSource) (index : nat) :
  findIndex wanted base = Some index ->
  exists older source newer,
    base = (older ++ source :: newer)%list /\ List.length older = index /\
    id source = wanted /\ forall s, In s older -> id s <> wanted.
Proof.
  revert index. induction base as [|s base IH]; intros index; cbn [findIndex];
    [discriminate|].
  destruct (String.eqb_spec (id s) wanted) as [Hid|Hid].
  - intros H. injection H as <-. exists [], s, base. repeat split; auto; intros ? [].
  - destruct (findIndex wanted base) as [i|]; [|discriminate].
    intros H. injection H as <-.
    destruct (IH i eq_refl) as [older [source [newer [-> [Hlen [Hsrc Hold]]]]]].
    exists (s :: older), source, newer. cbn [List.length List.app].
    repeat split; auto.
    intros s' [<-|H]; [exact Hid|now apply Hold].
Qed.

Lemma findIndex_missing (wanted : string) (base : list KnowledgeSource) :
  findIndex wanted base = None -> forall s, In s base -> id s <> wanted.
Proof.
  induction base as [|s base IH]; cbn [findIndex]; [intros _ ? []|].
  destruct (String.eqb_spec (id s) wanted) as [Hid|Hid]; [discriminate|].
  destruct (findIndex wanted base); [discriminate|].
  intros _ s' [<-|H]; [exact Hid|now apply IH].
Qed.

Lemma removal_at (A : Type) (older newer : list A) (x : A) :
  (firstn (List.length older) (older ++ x :: newer)
   ++ skipn (S (List.length older)) (older ++ x :: newer))%list = (older ++ newer)%list.
Proof.
  induction older as [|y older IH]; [reflexivity|].
  change (y :: (firstn (List.length older) (older ++ x :: newer)
                ++ skipn (S (List.length older)) (older ++ x :: newer))
          = y :: (older ++ newer))%list.
  now rewrite IH.
Qed.

(** X20.  Removing a knowledge source by id is refused exactly when no
    source of the base has that id; otherwise exactly one source is taken
    out, the first with that id, and the others stay in their order, so
    URLs that were pairwise distinct before the call are so after it. *)
Theorem removing_takes_first_with_id (wanted : string) (base : list KnowledgeSource) :
  match removeKnowledgeSource wanted base with
  | None => forall s, In s base -> id s <> wanted
  | Some base' =>
      exists older source newer,
        base = (older ++ source :: newer)%list /\
        base' = (older ++ newer)%list /\
        id source = wanted /\
        (forall s, In s older -> id s <> wanted) /\
        (NoDup (map url base) -> NoDup (map url base'))
  end.
Proof.
  unfold removeKnowledgeSource. destruct (findIndex wanted base) as [index|] eqn:E.
  - destruct (findIndex_found wanted base index E)
      as [older [source [newer [Hbase [Hlen [Hid Hold]]]]]].
    subst base index. rewrite removal_at.
    exists older, source, newer.
    repeat split; auto.
    rewrite !map_app. cbn [map]. apply NoDup_remove_1.
  - apply findIndex_missing, E.
Qed.




(** The fields that the search text joins. *)
Definition fields (source : KnowledgeSource) : list string :=
  ([joined (description source)] ++ tagsOrNone source
   ++ [url source; joined (content source)])%list.

Lemma fields_listed (source : KnowledgeSource) :
  In (joined (description source)) (fields source) /\
  (forall tag, In tag (tagsOrNone source) -> In tag (fields source)) /\
  In (url source) (fields source) /\
  In (joined (content source)) (fields source).
Proof.
  unfold fields. repeat split.
  - apply in_or_app. left. now left.
  - intros tag H. apply in_or_app. right. apply in_or_app. now left.
  - apply in_or_app. right. apply in_or_app. right. now left.
  - apply in_or_app. right. apply in_or_app. right. right. now left.
Qed.

Lemma field_in_searchText (source : KnowledgeSource) (field query : string) :
  In field (fields source) ->
  includes (toLowerCase field) query = true ->
  includes (searchText source) query = true.
Proof.
  intros Hin Hq. unfold searchText. fold (fields source).
  destruct (TrimFacts.join_piece_occurs " " _ field Hin) as [a [b ->]].
  rewrite !MarkerFacts.toLowerCase_app. now apply MarkerFacts.includes_embed.
Qed.

(** X22.  The relevance by which search results are ordered is between 0
    and 26, and a source whose relevance for a lower-case query is above 0
    always passes the filter of the search: whatever the relevance counts
    (description, tags, content, URL) is part of the text the filter
    searches. *)
Theorem relevant_sources_pass_the_filter (source : KnowledgeSource) (query : string) :
  0 <= calculateRelevance source query <= 26 /\
  (0 < calculateRelevance source query -> matchesQuery source query = true).
Proof.
  destruct (fields_listed source) as [Hdesc [Htags [Hurl Hcont]]].
  unfold calculateRelevance, matchesQuery.
  destruct (match description source with
            | Some d => includes (toLowerCase d) query
            | None => false
            end) eqn:Ed.
  { split; [repeat match goal with |- context [if ?b then _ else _] => destruct b end; lia|].
    intros _. destruct (description source) as [d|]; [|discriminate].
    now rewrite (field_in_searchText source d query Hdesc Ed). }
  destruct (existsb (fun tag => includes (toLowerCase tag) query) (tagsOrNone source)) eqn:Et.
  { split; [repeat match goal with |- context [if ?b then _ else _] => destruct b end; lia|].
    intros _. apply existsb_exists in Et. destruct Et as [tag [Hin Htag]].
    now rewrite (field_in_searchText source tag query (Htags tag Hin) Htag). }
  destruct (match content source with
            | Some c => includes (toLowerCase c) query
            | None => false
            end) eqn:Ec.
  { split; [repeat match goal with |- context [if ?b then _ else _] => destruct b end; lia|].
    intros _. destruct (content source) as [c|]; [|discriminate].
    now rewrite (field_in_searchText source c query Hcont Ec). }
  destruct (includes (toLowerCase (url source)) query) eqn:Eu.
  { split; [lia|]. intros _.
    now rewrite (field_in_searchText source (url source) query Hurl Eu). }
  split; [lia|]. intros H. lia.
Qed.

End KnowledgeFacts.

(* ================================================================== *)
(** ** When a redesign fails; topics the brand-voice filter leaves alone *)
(* ================================================================== *)

Module DispatchFacts.
Import JS ContentRedesigner.

Lemma orElse_twice (x : option string) (d : string) :
  d <> EmptyString -> orElse (Some (orElse x d)) d = orElse x d.
Proof.
  intros Hd. destruct x as [[|c s]|]; cbn [orElse]; try reflexivity;
    destruct d; congruence.
Qed.

Lemma complete_redesign_fails_iff (originalContent : string)
      (audit : ContentAuditor.ContentAudit) (request : RedesignRequest)
      (keyInfo : option KeyInformation) :
  performCompleteRedesign originalContent audit request keyInfo = None <->
  isInherited (orElse (content_type request) "blog") = true \/
  isInherited (orElse (target_audience request) "security_seekers") = true.
Proof.
  unfold performCompleteRedesign.
  match goal with
  | |- match ContentGenerator.generateContent ?r with _ => _ end = None <-> _ =>
      pose proof (GenerationFacts.generation_fails r) as Hfails;
      pose proof (GenerationFacts.generation_returns r) as Hreturns;
      destruct (ContentGenerator.generateContent r) as [out|]
  end;
    unfold GenerationFacts.personaKey in Hreturns;
    cbn [ContentGenerator.content_type ContentGenerator.target_audience] in Hfails, Hreturns;
    rewrite orElse_twice in Hfails, Hreturns by discriminate.
  - split; [discriminate|]. intros H. apply Hfails in H. discriminate H.
  - split; [intros _|reflexivity].
    destruct (isInherited (orElse (content_type request) "blog")); [now left|].
    destruct (isInherited (orElse (target_audience request) "security_seekers"));
      [now right|].
    destruct (Hreturns eq_refl eq_refl) as [k [out [Hsome _]]]. discriminate Hsome.
Qed.

(** X23.  Whatever the moderate pass does, a redesign request fails exactly
    when its intensity is complete and its content type (blog when it is
    missing) or its target audience (security_seekers when it is missing)
    is the name of a member inherited from Object.prototype; every other
    request, with any intensity, known or not, returns a result. *)
Theorem redesign_fails_only_when_complete
        (performModerateRedesign :
           string -> ContentAuditor.ContentAudit -> RedesignRequest ->
           option KeyInformation -> string)
        (request : RedesignRequest) :
  redesignContent performModerateRedesign request = None <->
  orElse (redesign_intensity request) "moderate" = "complete" /\
  (isInherited (orElse (content_type request) "blog") = true \/
   isInherited (orElse (target_audience request) "security_seekers") = true).
Proof.
  unfold redesignContent.
  set (audit := ContentAuditor.auditContent (original_content request) (content_type request)).
  set (keyInfo := match preserve_key_information request with
                  | Some false => None
                  | _ => Some (extractKeyInformation (original_content request))
                  end).
  assert (Hnone : performRedesign performModerateRedesign (original_content request)
                    audit request keyInfo = None <->
                  orElse (redesign_intensity request) "moderate" = "complete" /\
                  (isInherited (orElse (content_type request) "blog") = true \/
                   isInherited (orElse (target_audience request) "security_seekers") = true)).
  { unfold performRedesign. cbn zeta.
    destruct (String.eqb_spec (orElse (redesign_intensity request) "moderate") "light")
      as [El|_].
    { rewrite El. split; [discriminate|]. intros [H _]. discriminate H. }
    destruct (String.eqb_spec (orElse (redesign_intensity request) "moderate") "moderate")
      as [Em|_].
    { rewrite Em. split; [discriminate|]. intros [H _]. discriminate H. }
    destruct (String.eqb_spec (orElse (redesign_intensity request) "moderate") "complete")
      as [Ec|Ec].
    - rewrite complete_redesign_fails_iff. tauto.
    - split; [discriminate|]. intros [H _]. contradiction. }
  destruct (performRedesign performModerateRedesign (original_content request)
              audit request keyInfo).
  - split; [discriminate|]. intros H. apply Hnone in H. discriminate H.
  - split; [intros _; now apply Hnone|reflexivity].
Qed.

End DispatchFacts.

Module TransformationFacts.
Import JS BrandVoiceEngine.

Lemma startsWith_ignoring_case (p : string) : forall s,
  startsWithG true s p = startsWith (toLowerCase s) (toLowerCase p).
Proof.
  induction p as [|a p IH]; intros s; [reflexivity|].
  destruct s as [|b s]; [reflexivity|].
  unfold startsWith. cbn [toLowerCase startsWithG]. now rewrite IH.
Qed.

Lemma firstAlt_absent (alts : list string) (s : string) :
  (forall p, In p alts -> startsWith (toLowerCase s) (toLowerCase p) = false) ->
  firstAlt true alts s = None.
Proof.
  induction alts as [|p alts IH]; intros H; cbn [firstAlt]; [reflexivity|].
  rewrite startsWith_ignoring_case, (H p (or_introl eq_refl)).
  apply IH. intros q Hq. apply H. now right.
Qed.

(** A replacement finds nothing to replace in a text that holds none of its
    alternatives. *)
Lemma replace_absent (alts : list string) (rep s : string) :
  (forall p, In p alts -> includes (toLowerCase s) (toLowerCase p) = false) ->
  replaceAll true alts rep s = s.
Proof.
  unfold replaceAll. induction s as [|c s IH]; intros H; cbn [replaceFrom]; [reflexivity|].
  rewrite firstAlt_absent.
  - rewrite IH; [reflexivity|]. intros p Hp. specialize (H p Hp).
    cbn [toLowerCase includes] in H. apply orb_false_iff in H. apply H.
  - intros p Hp. specialize (H p Hp).
    cbn [toLowerCase includes] in H. apply orb_false_iff in H. apply H.
Qed.

(** The phrases that the five transformations replace. *)
Definition salesPhrases : list string := flat_map fst transformations.

Definition clean (request : string) : bool :=
  forallb (fun phrase => negb (includes (toLowerCase request) phrase))
          (salesPhrases ++ ["sell"; "convince"]).

Lemma clean_phrase (request phrase : string) :
  clean request = true -> In phrase (salesPhrases ++ ["sell"; "convince"]) ->
  includes (toLowerCase request) phrase = false.
Proof.
  unfold clean. intros H Hin. rewrite forallb_forall in H.
  apply negb_true_iff, H, Hin.
Qed.

(** X24.  The brand-voice filter returns unchanged every request that, read
    without regard to letter case, holds none of the twelve sales phrases it
    replaces and neither sell nor convince. *)
Theorem clean_request_is_unchanged (request : string) :
  clean request = true -> applyBrandVoiceTransformation request = request.
Proof.
  intros Hclean. unfold applyBrandVoiceTransformation, transformations.
  cbn [fold_left].
  repeat (rewrite (replace_absent _ _ request);
          [|intros p Hp; apply (clean_phrase request _ Hclean);
            cbn [In] in Hp; cbn;
            repeat (destruct Hp as [<-|Hp]; [tauto|]); destruct Hp]).
  rewrite (clean_phrase request "sell" Hclean) by (cbn; tauto).
  rewrite (clean_phrase request "convince" Hclean) by (cbn; tauto).
  reflexivity.
Qed.

Lemma clean_request_is_unchanged_witness :
  applyBrandVoiceTransformation "How gold coins are minted" = "How gold coins are minted".
Proof. exact (clean_request_is_unchanged "How gold coins are minted" eq_refl). Defined.

End TransformationFacts.

(* ================================================================== *)
(** ** The audience pass of the moderate redesign *)
(* ================================================================== *)

Module AudiencePassFacts.
Import JS ContentRedesigner TransformationFacts.

(** Removing a term never lengthens a text. *)
Lemma removal_length (term : string) (s : string) : forall skip : nat,
  (String.length (replaceFrom true [term] "" skip s) <= String.length s)%nat.
Proof.
  induction s as [|c s IH]; intros skip; cbn [replaceFrom String.length]; [lia|].
  destruct skip as [|k].
  - destruct (firstAlt true [term] (String c s)) as [[|n]|].
    + cbn [String.length]. specialize (IH O). lia.
    + change ("" ++ replaceFrom true [term] "" n s) with (replaceFrom true [term] "" n s).
      specialize (IH n). lia.
    + cbn [String.length]. specialize (IH O). lia.
  - specialize (IH k). lia.
Qed.

Lemma firstAlt_single (term s : string) :
  firstAlt true [term] s =
  if startsWith (toLowerCase s) (toLowerCase term) then Some (String.length term) else None.
Proof. cbn [firstAlt]. now rewrite startsWith_ignoring_case. Qed.

(** Removing a term that the text holds shortens the text. *)
Lemma removal_shortens (term : string) (s : string) :
  term <> EmptyString ->
  includes (toLowerCase s) (toLowerCase term) = true ->
  (String.length (replaceAll true [term] "" s) < String.length s)%nat.
Proof.
  intros Hterm. unfold replaceAll.
  induction s as [|c s IH]; intros H.
  - cbn in H. destruct term; [congruence|discriminate H].
  - cbn [replaceFrom]. rewrite firstAlt_single.
    cbn [toLowerCase includes] in H.
    destruct (startsWith (String (lowerUnit c) (toLowerCase s)) (toLowerCase term)) eqn:Est.
    + cbn [toLowerCase]. rewrite Est.
      destruct term as [|t term']; [congruence|]. cbn [String.length].
      change ("" ++ replaceFrom true [String t term'] "" (String.length term') s)
        with (replaceFrom true [String t term'] "" (String.length term') s).
      pose proof (removal_length (String t term') s (String.length term')). lia.
    + cbn [toLowerCase]. rewrite Est. cbn [orb] in H. cbn [String.length].
      specialize (IH H). lia.
Qed.

Lemma removals_length (terms : list string) : forall s,
  (String.length (fold_left (fun cleaned term => replaceTermGI term "" cleaned) terms s)
   <= String.length s)%nat.
Proof.
  induction terms as [|t terms IH]; intros s; cbn [fold_left]; [lia|].
  specialize (IH (replaceTermGI t "" s)).
  pose proof (removal_length t s O) as H. unfold replaceTermGI, replaceAll in *. lia.
Qed.

Lemma removals_shorten (terms : list string) : forall s,
  (forall t, In t terms -> t <> EmptyString) ->
  existsb (fun t => includes (toLowerCase s) (toLowerCase t)) terms = true ->
  (String.length (fold_left (fun cleaned term => replaceTermGI term "" cleaned) terms s)
   < String.length s)%nat.
Proof.
  induction terms as [|t terms IH]; intros s Hne H; [discriminate H|].
  cbn [fold_left existsb] in *.
  destruct (includes (toLowerCase s) (toLowerCase t)) eqn:Et.
  - pose proof (removal_shortens t s (Hne t (or_introl eq_refl)) Et) as Hlt.
    pose proof (removals_length terms (replaceTermGI t "" s)) as Hle.
    unfold replaceTermGI in *. lia.
  - cbn [orb] in H. unfold replaceTermGI at 2.
    rewrite (replace_absent [t] "" s).
    + apply IH; [intros u Hu; apply Hne; now right|exact H].
    + intros p [<-|[]]. exact Et.
Qed.

(** X25.  The removal of inappropriate language never lengthens a text, and
    it strictly shortens every text that holds yo, bro, lit, fire or sick in
    any letter case and at any place, inside a word as well (your, brother,
    literature): such a text never comes back unchanged. *)
Theorem slang_removal_cuts_into_words (content : string) :
  (String.length (removeInappropriateLanguage content) <= String.length content)%nat /\
  (existsb (fun term => includes (toLowerCase content) term) inappropriateTerms = true ->
   (String.length (removeInappropriateLanguage content) < String.length content)%nat /\
   removeInappropriateLanguage content <> content).
Proof.
  split; [apply removals_length|].
  intros H.
  assert (Hlt : (String.length (removeInappropriateLanguage content)
                 < String.length content)%nat).
  { apply removals_shorten.
    - intros t Ht. cbn in Ht.
      repeat (destruct Ht as [<-|Ht]; [discriminate|]). destruct Ht.
    - exact H. }
  split; [exact Hlt|]. intros E. rewrite E in Hlt. lia.
Qed.

(** The words that the audience pass rewrites for any audience, and those
    it rewrites for security seekers besides. *)
Definition rewrittenWords : list string :=
  [ "utilize"; "facilitate"; "subsequently"; "yo"; "bro"; "lit"; "fire"; "sick";
    "growth"; "opportunity" ].

Definition plain (content : string) : bool :=
  forallb (fun word => negb (includes (toLowerCase content) word)) rewrittenWords.

Lemma plain_word (content word : string) :
  plain content = true -> In word rewrittenWords ->
  includes (toLowerCase content) word = false.
Proof.
  unfold plain. intros H Hin. rewrite forallb_forall in H.
  apply negb_true_iff, H, Hin.
Qed.

Ltac absent Hplain :=
  match type of Hplain with
  | plain ?content = true =>
      rewrite (replace_absent _ _ content)
        by (intros p Hp; cbn [In] in Hp;
            repeat (destruct Hp as [<-|Hp];
                    [apply (plain_word _ _ Hplain); cbn; tauto|]);
            destruct Hp)
  end.

Lemma guidance_is_defined (key : string) :
  BrandVoiceEngine.getPersonaGuidance key <> Undefined.
Proof.
  unfold BrandVoiceEngine.getPersonaGuidance.
  destruct (getProperty BrandVoiceEngine.guidanceMap key); discriminate.
Qed.

(** X26.  The audience pass of the moderate redesign returns for every
    target audience, a name of an inherited member included, and returns
    unchanged every text that, read without regard to letter case, holds
    none of the ten words it rewrites. *)
Theorem audience_pass_leaves_plain_text (content : string)
        (targetAudience : option string) :
  (exists aligned, improveAudienceAlignment content targetAudience = Some aligned) /\
  (plain content = true ->
   improveAudienceAlignment content targetAudience = Some content).
Proof.
  unfold improveAudienceAlignment.
  pose proof (guidance_is_defined (orElse targetAudience "security_seekers")) as Hdef.
  destruct (BrandVoiceEngine.getPersonaGuidance (orElse targetAudience "security_seekers"))
    as [g|key|]; [| |congruence]; cbn [applyPersonaLanguage].
  - split; [eauto|]. intros Hplain. f_equal.
    assert (Hpersona :
      (if String.eqb (BrandVoiceEngine.persona g) "Security Seekers"
       then replaceAll true ["opportunity"] "secure opportunity"
              (replaceAll true ["growth"] "stability and growth" content)
       else content) = content).
    { destruct (String.eqb _ _); [|reflexivity].
      absent Hplain. absent Hplain. reflexivity. }
    cbn zeta. rewrite Hpersona. unfold adjustComplexity.
    absent Hplain. absent Hplain. absent Hplain.
    unfold removeInappropriateLanguage, inappropriateTerms, replaceTermGI.
    cbn [fold_left].
    absent Hplain. absent Hplain. absent Hplain. absent Hplain. absent Hplain.
    reflexivity.
  - split; [eauto|]. intros Hplain. f_equal. unfold adjustComplexity.
    absent Hplain. absent Hplain. absent Hplain.
    unfold removeInappropriateLanguage, inappropriateTerms, replaceTermGI.
    cbn [fold_left].
    absent Hplain. absent Hplain. absent Hplain. absent Hplain. absent Hplain.
    reflexivity.
Qed.

End AudiencePassFacts.

(* ================================================================== *)
(** ** What a redesign reports *)
(* ================================================================== *)

Module ReportFacts.
Import JS ContentAuditor ContentRedesigner.




End ReportFacts.

(* ================================================================== *)
(** ** Paragraph breaks after sentences *)
(* ================================================================== *)

Module ParagraphFacts.
Import JS ContentRedesigner CleanUpFacts.

(** The first [n] characters of [s] are white space. *)
Fixpoint wsPrefix (n : nat) (s : string) : bool :=
  match n, s with
  | O, _ => true
  | S k, String c s' => isWhiteSpace c && wsPrefix k s'
  | S _, EmptyString => false
  end.

Lemma capital_is_ink (c : ascii) : isUpperAZ c = true -> isWhiteSpace c = false.
Proof.
  destruct c as [[] [] [] [] [] [] [] []]; intros H;
    first [reflexivity | discriminate H].
Qed.

Lemma capital_is_no_end (c : ascii) : isUpperAZ c = true -> isSentenceEnd c = false.
Proof.
  destruct c as [[] [] [] [] [] [] [] []]; intros H;
    first [reflexivity | discriminate H].
Qed.

Lemma end_is_ink (c : ascii) : isSentenceEnd c = true -> isWhiteSpace c = false.
Proof.
  destruct c as [[] [] [] [] [] [] [] []]; intros H;
    first [reflexivity | discriminate H].
Qed.

Lemma space_is_no_end (c : ascii) : isWhiteSpace c = true -> isSentenceEnd c = false.
Proof.
  destruct c as [[] [] [] [] [] [] [] []]; intros H;
    first [reflexivity | discriminate H].
Qed.

(** What a gap is: [n] white-space characters, [n] at least 1, and then a
    capital. *)
Inductive gapOf : nat -> string -> Prop :=
| gap_last (c d : ascii) (rest : string) :
    isWhiteSpace c = true -> isUpperAZ d = true ->
    gapOf 1 (String c (String d rest))
| gap_more (c : ascii) (n : nat) (s : string) :
    isWhiteSpace c = true -> gapOf n s -> gapOf (S n) (String c s).

Lemma gap_found (s : string) : forall n, gapBeforeCapital s = Some n -> gapOf n s.
Proof.
  induction s as [|c s IH]; intros n H; [discriminate H|].
  cbn [gapBeforeCapital] in H.
  destruct (isWhiteSpace c) eqn:Ec; [|discriminate H].
  destruct s as [|d s]; [discriminate H|].
  destruct (isUpperAZ d) eqn:Ed.
  - injection H as <-. now constructor.
  - destruct (gapBeforeCapital (String d s)) as [k|]; [|discriminate H].
    injection H as <-. constructor; [exact Ec|]. now apply IH.
Qed.

Lemma gap_computed (n : nat) (s : string) : gapOf n s -> gapBeforeCapital s = Some n.
Proof.
  induction 1 as [c d rest Hc Hd|c n s Hc Hgap IH]; cbn [gapBeforeCapital].
  - now rewrite Hc, Hd.
  - rewrite Hc. destruct s as [|d s]; [inversion Hgap|].
    destruct (isUpperAZ d) eqn:Ed.
    + inversion Hgap as [? ? ? Hd|? ? ? Hd]; subst;
        rewrite (capital_is_ink d Ed) in Hd; discriminate Hd.
    + now rewrite IH.
Qed.

(** After a gap is skipped, the text goes on with the capital. *)
Lemma break_after_gap (n : nat) (s : string) :
  gapOf n s ->
  exists d rest, isUpperAZ d = true /\ inkOf s = inkOf (String d rest) /\
                 breakFrom n s = String d (breakFrom O rest).
Proof.
  induction 1 as [c d rest Hc Hd|c n s Hc Hgap [d [rest [Hd [Hink Hbreak]]]]].
  - exists d, rest. split; [exact Hd|]. split.
    + cbn [inkOf]. now rewrite Hc.
    + cbn [breakFrom]. now rewrite (capital_is_no_end d Hd).
  - exists d, rest. split; [exact Hd|]. split.
    + cbn [inkOf] in *. now rewrite Hc.
    + destruct n as [|k]; [inversion Hgap|]. exact Hbreak.
Qed.

Lemma gap_prefix (n : nat) (s : string) : gapOf n s -> wsPrefix n s = true.
Proof.
  induction 1 as [c d rest Hc Hd|c n s Hc Hgap IH]; cbn [wsPrefix].
  - now rewrite Hc.
  - now rewrite Hc, IH.
Qed.

Lemma inkOf_breakFrom (s : string) : forall skip,
  wsPrefix skip s = true -> inkOf (breakFrom skip s) = inkOf s.
Proof.
  induction s as [|c s IH]; intros skip Hskip; [reflexivity|].
  cbn [breakFrom]. destruct skip as [|k].
  - assert (Hplain : inkOf (String c (breakFrom O s)) = inkOf (String c s)).
    { cbn [inkOf]. rewrite (IH O eq_refl). reflexivity. }
    destruct (isSentenceEnd c) eqn:Eend; [|exact Hplain].
    destruct (gapBeforeCapital s) as [n|] eqn:Egap; [|exact Hplain].
    change (paragraphBreak ++ breakFrom n s)
      with (String newline (String newline (breakFrom n s))).
    cbn [inkOf]. rewrite (end_is_ink c Eend).
    change (isWhiteSpace newline) with true. cbn iota.
    now rewrite (IH n (gap_prefix n s (gap_found s n Egap))).
  - cbn [wsPrefix] in Hskip. apply andb_true_iff in Hskip. destruct Hskip as [Hc Hk].
    cbn [inkOf]. rewrite Hc. apply (IH k Hk).
Qed.

Lemma break_head (c : ascii) (s : string) :
  exists tail, breakFrom O (String c s) = String c tail.
Proof.
  cbn [breakFrom]. destruct (isSentenceEnd c); [|eauto].
  destruct (gapBeforeCapital s); eauto.
Qed.

Lemma gap_kept (s : string) : gapBeforeCapital (breakFrom O s) = gapBeforeCapital s.
Proof.
  induction s as [|c s IH]; [reflexivity|].
  destruct (isWhiteSpace c) eqn:Ec.
  - cbn [breakFrom]. rewrite (space_is_no_end c Ec).
    cbn [gapBeforeCapital]. rewrite Ec.
    destruct s as [|d s]; [reflexivity|].
    destruct (break_head d s) as [tail Htail]. rewrite Htail in IH |- *.
    now rewrite IH.
  - destruct (break_head c s) as [tail ->]. cbn [gapBeforeCapital]. now rewrite Ec.
Qed.

Lemma break_idem (s : string) : forall skip,
  breakFrom O (breakFrom skip s) = breakFrom skip s.
Proof.
  induction s as [|c s IH]; intros skip; [reflexivity|].
  cbn [breakFrom]. destruct skip as [|k]; [|apply IH].
  assert (Hplain : gapBeforeCapital s = None \/ isSentenceEnd c = false ->
                   breakFrom O (String c (breakFrom O s)) = String c (breakFrom O s)).
  { intros H. cbn [breakFrom]. rewrite gap_kept, IH.
    destruct (isSentenceEnd c); [|reflexivity].
    destruct H as [->|H]; [reflexivity|discriminate H]. }
  destruct (isSentenceEnd c) eqn:Eend; [|apply Hplain; now right].
  destruct (gapBeforeCapital s) as [n|] eqn:Egap; [|apply Hplain; now left].
  destruct (break_after_gap n s (gap_found s n Egap)) as [d [rest [Hd [_ Hbreak]]]].
  change (paragraphBreak ++ breakFrom n s)
    with (String newline (String newline (breakFrom n s))).
  cbn [breakFrom]. rewrite Eend.
  assert (Hgap : gapBeforeCapital (String newline (String newline (breakFrom n s)))
                 = Some 2%nat).
  { rewrite Hbreak. apply gap_computed.
    constructor; [reflexivity|]. constructor; [reflexivity|exact Hd]. }
  rewrite Hgap.
  change (paragraphBreak ++ breakFrom 2 (String newline (String newline (breakFrom n s))))
    with (String newline (String newline (breakFrom O (breakFrom n s)))).
  now rewrite IH.
Qed.

(** X28.  Breaking up paragraphs changes white space only, and only after a
    sentence end: the characters other than white space are those of the
    original, in order, and a text without full stop, exclamation mark or
    question mark is unchanged; breaking up a second time changes nothing,
    so in the result every sentence end that white space and a capital
    follow is followed by exactly one paragraph break. *)
Theorem paragraph_breaks_change_white_space_only (content : string) :
  inkOf (breakUpLongParagraphs content) = inkOf content /\
  breakUpLongParagraphs (breakUpLongParagraphs content) = breakUpLongParagraphs content /\
  (WhitespaceFacts.allChars (fun c => negb (isSentenceEnd c)) content = true ->
   breakUpLongParagraphs content = content).
Proof.
  unfold breakUpLongParagraphs. split; [apply inkOf_breakFrom; reflexivity|].
  split; [apply break_idem|].
  induction content as [|c s IH]; cbn [WhitespaceFacts.allChars breakFrom]; [reflexivity|].
  intros H. apply andb_true_iff in H. destruct H as [Hc Hs].
  apply negb_true_iff in Hc. rewrite Hc. now rewrite (IH Hs).
Qed.

End ParagraphFacts.


(* ================================================================== *)
(** ** The compliance score across a redesign *)
(* ================================================================== *)

Module RedesignComplianceFacts.
Import JS ContentAuditor ContentRedesigner.
Import WhitespaceFacts SplitFacts WeaveFacts MarkerFacts TrimFacts CleanUpFacts.

(** *** Lower-casing and the clean-up commute *)

Lemma lowerUnit_space (c : ascii) : isWhiteSpace (lowerUnit c) = isWhiteSpace c.
Proof. destruct c as [[] [] [] [] [] [] [] []]; reflexivity. Qed.

Lemma lower_collapse (s : string) : forall b,
  toLowerCase (collapseFrom b s) = collapseFrom b (toLowerCase s).
Proof.
  induction s as [|c s IH]; intros b; cbn [collapseFrom toLowerCase]; [reflexivity|].
  rewrite lowerUnit_space. destruct (isWhiteSpace c).
  - destruct b; [apply IH|]. cbn [toLowerCase]. now rewrite IH.
  - cbn [toLowerCase]. now rewrite IH.
Qed.

Lemma lower_trimStart (s : string) :
  toLowerCase (trimStart s) = trimStart (toLowerCase s).
Proof.
  induction s as [|c s IH]; cbn [trimStart toLowerCase]; [reflexivity|].
  rewrite lowerUnit_space. destruct (isWhiteSpace c); [exact IH|reflexivity].
Qed.

Lemma lower_trimEnd (s : string) :
  toLowerCase (trimEnd s) = trimEnd (toLowerCase s).
Proof.
  induction s as [|c s IH]; cbn [trimEnd toLowerCase]; [reflexivity|].
  rewrite <- IH, lowerUnit_space.
  destruct (trimEnd s) as [|d r]; cbn [toLowerCase].
  - destruct (isWhiteSpace c); reflexivity.
  - reflexivity.
Qed.

Lemma lower_cleanUp (s : string) :
  toLowerCase (cleanUpWhitespace s) = cleanUpWhitespace (toLowerCase s).
Proof.
  rewrite (proj1 (cleanUp_spaces s)), (proj1 (cleanUp_spaces (toLowerCase s))).
  unfold trim, collapseWhitespace.
  now rewrite lower_trimEnd, lower_trimStart, lower_collapse.
Qed.

(** *** Markers that the clean-up keeps

    A marker whose only white space is single plain spaces between its
    words, as every marker of the compliance lists is. *)

Fixpoint endsInk (t : string) : bool :=
  match t with
  | EmptyString => false
  | String c EmptyString => ink c
  | String _ t' => endsInk t'
  end.

Definition wordy (t : string) : bool :=
  match t with
  | EmptyString => false
  | String c _ => ink c && spaced false t && endsInk t
  end.

(** Whether the text ends in white space; [b] when it is empty. *)
Fixpoint endsInSpace (b : bool) (s : string) : bool :=
  match s with
  | EmptyString => b
  | String c s' => endsInSpace (isWhiteSpace c) s'
  end.

Lemma collapse_app (x y : string) : forall b,
  collapseFrom b (x ++ y) = collapseFrom b x ++ collapseFrom (endsInSpace b x) y.
Proof.
  induction x as [|c x IH]; intros b; [reflexivity|].
  change (String c x ++ y) with (String c (x ++ y)).
  cbn [collapseFrom endsInSpace]. destruct (isWhiteSpace c).
  - destruct b; rewrite IH; reflexivity.
  - rewrite IH. reflexivity.
Qed.

Lemma collapse_wordy (t : string) (b : bool) :
  wordy t = true -> collapseFrom b t = t.
Proof.
  destruct t as [|c t]; [discriminate|]. cbn [wordy].
  intros H. apply andb_true_iff in H. destruct H as [H _].
  apply andb_true_iff in H. destruct H as [Hc Hs].
  cbn [collapseFrom]. rewrite (ink_not_space c Hc).
  cbn [spaced] in Hs. rewrite (ink_not_space c Hc) in Hs.
  now rewrite (spaced_fixed false t Hs).
Qed.

Lemma collapse_keeps_wordy (s t : string) (b : bool) :
  wordy t = true -> includes s t = true -> includes (collapseFrom b s) t = true.
Proof.
  intros Ht H. apply Text.includes_occurs in H. destruct H as [x [y ->]].
  rewrite collapse_app, collapse_app, (collapse_wordy t _ Ht).
  apply Text.includes_occurs. eauto.
Qed.

Lemma trimStart_keeps_wordy (s t : string) :
  wordy t = true -> includes s t = true -> includes (trimStart s) t = true.
Proof.
  destruct t as [|m t]; [discriminate|]. cbn [wordy]. intros H.
  apply andb_true_iff in H. destruct H as [H _].
  apply andb_true_iff in H. destruct H as [Hm _].
  induction s as [|c s IH]; intros Hs; [discriminate Hs|].
  cbn [trimStart]. destruct (isWhiteSpace c) eqn:Ec; [|exact Hs].
  cbn [includes] in Hs. apply orb_true_iff in Hs. destruct Hs as [Hs|Hs]; [|apply IH, Hs].
  unfold startsWith in Hs. cbn [startsWithG] in Hs.
  apply andb_true_iff in Hs. destruct Hs as [Hs _].
  apply Ascii.eqb_eq in Hs. subst c. rewrite (ink_not_space m Hm) in Ec. discriminate Ec.
Qed.

Lemma trimEnd_after_ink (t r : string) :
  endsInk t = true -> exists r', trimEnd (t ++ r) = t ++ r'.
Proof.
  induction t as [|c t IH]; [discriminate|].
  intros H. change (String c t ++ r) with (String c (t ++ r)). cbn [trimEnd].
  destruct t as [|d t].
  - cbn [endsInk] in H. change ("" ++ r) with r.
    destruct (trimEnd r) as [|e r'].
    + rewrite (ink_not_space c H). now exists EmptyString.
    + now exists (String e r').
  - cbn [endsInk] in H. destruct (IH H) as [r' Hr']. rewrite Hr'.
    exists r'. reflexivity.
Qed.

Lemma trimEnd_keeps_wordy (s t : string) :
  wordy t = true -> includes s t = true -> includes (trimEnd s) t = true.
Proof.
  intros Ht.
  assert (Hend : endsInk t = true).
  { destruct t as [|m t]; [discriminate|]. cbn [wordy] in Ht.
    apply andb_true_iff in Ht. apply Ht. }
  assert (Hne : t <> EmptyString) by (destruct t; [discriminate|discriminate]).
  induction s as [|c s IH]; intros H.
  - cbn in H. destruct t; [congruence|discriminate H].
  - cbn [includes] in H. apply orb_true_iff in H. destruct H as [H|H].
    + apply Text.startsWith_split in H. destruct H as [r Hr]. rewrite Hr.
      destruct (trimEnd_after_ink t r Hend) as [r' ->].
      apply Text.includes_head. exact (Text.startsWith_app false t r').
    + specialize (IH H). cbn [trimEnd].
      destruct (trimEnd s) as [|d r].
      * cbn in IH. destruct t; [congruence|discriminate IH].
      * apply includes_later, IH.
Qed.

Lemma cleanUp_keeps_wordy (s t : string) :
  wordy t = true -> includes s t = true -> includes (cleanUpWhitespace s) t = true.
Proof.
  intros Ht H. rewrite (proj1 (cleanUp_spaces s)). unfold trim, collapseWhitespace.
  apply trimEnd_keeps_wordy, trimStart_keeps_wordy, collapse_keeps_wordy; assumption.
Qed.

(** *** Flags that follow the markers *)

Lemma matched_length_mono_on (terms : list string) (s s' : string) :
  (forall t, In t terms -> includes s t = true -> includes s' t = true) ->
  (List.length (matched terms s) <= List.length (matched terms s'))%nat.
Proof.
  unfold matched. induction terms as [|t terms IH]; intros H; cbn [filter]; [lia|].
  assert (IH' := IH (fun u Hu => H u (or_intror Hu))).
  destruct (includes s t) eqn:E.
  - rewrite (H t (or_introl eq_refl) E). cbn [List.length]. lia.
  - destruct (includes s' t); cbn [List.length]; lia.
Qed.

Definition complianceMarkers : list string :=
  (disclaimerTerms ++ riskTerms ++ educationalTerms)%list.

(** When every compliance marker found in the lower-cased [s] is found in
    the lower-cased [s'], every compliance flag of [s] is one of [s']. *)
Lemma flags_follow_markers (s s' : string) :
  (forall t, In t complianceMarkers ->
             includes (toLowerCase s) t = true -> includes (toLowerCase s') t = true) ->
  (checkDisclaimers s = true -> checkDisclaimers s' = true) /\
  (checkRiskDisclosures s = true -> checkRiskDisclosures s' = true) /\
  (checkEducationalFraming s = true -> checkEducationalFraming s' = true).
Proof.
  intros H. unfold complianceMarkers in H. repeat split.
  - unfold checkDisclaimers. intros Hs. apply existsb_exists in Hs.
    destruct Hs as [t [Hin Ht]]. apply existsb_exists. exists t. split; [exact Hin|].
    apply H; [apply in_or_app; now left|exact Ht].
  - unfold checkRiskDisclosures, count.
    pose proof (matched_length_mono_on riskTerms (toLowerCase s) (toLowerCase s')
                  (fun t Ht => H t (in_or_app _ _ _ (or_intror (in_or_app _ _ _ (or_introl Ht))))))
      as Hle.
    lia.
  - unfold checkEducationalFraming, count.
    pose proof (matched_length_mono_on educationalTerms (toLowerCase s) (toLowerCase s')
                  (fun t Ht => H t (in_or_app _ _ _ (or_intror (in_or_app _ _ _ (or_intror Ht))))))
      as Hle.
    lia.
Qed.

Lemma compliance_markers_are_wordy (t : string) :
  In t complianceMarkers -> wordy t = true.
Proof.
  assert (Hall : forallb wordy complianceMarkers = true) by (vm_compute; reflexivity).
  rewrite forallb_forall in Hall. apply Hall.
Qed.

(** *** The complete redesign: what follows the second full stop stays *)

Lemma lower_split (x y : string) : forall s,
  toLowerCase s = x ++ y ->
  exists s1 s2, s = s1 ++ s2 /\ toLowerCase s1 = x /\ toLowerCase s2 = y.
Proof.
  induction x as [|c x IH]; intros s H.
  - exists EmptyString, s. repeat split. exact H.
  - destruct s as [|d s]; [discriminate H|].
    cbn [toLowerCase] in H. change (String c x ++ y) with (String c (x ++ y)) in H.
    injection H as Hc Hs. destruct (IH s Hs) as [s1 [s2 [-> [H1 H2]]]].
    exists (String d s1), s2. cbn [toLowerCase]. rewrite Hc, H1. repeat split. exact H2.
Qed.

(** A marker found in the lower-cased text is the lower-cased form of a
    piece of the text. *)
Lemma lower_occurrence (r m : string) :
  includes (toLowerCase r) m = true -> exists u, occurs u r /\ toLowerCase u = m.
Proof.
  intros H. apply Text.includes_occurs in H. destruct H as [x [y H]].
  destruct (lower_split x (m ++ y) r H) as [a [rest [-> [_ Hrest]]]].
  destruct (lower_split m y rest Hrest) as [u [b [-> [Hu _]]]].
  exists u. split; [now exists a, b|exact Hu].
Qed.

Lemma markers_follow_pieces (r w : string) :
  (forall t, occurs t r -> occurs t w) ->
  forall m, includes (toLowerCase r) m = true -> includes (toLowerCase w) m = true.
Proof.
  intros Hkeep m H. destruct (lower_occurrence r m H) as [u [Hocc <-]].
  apply Text.includes_lower, occurs_includes, Hkeep, Hocc.
Qed.

(** The text after the second full stop of a text of the generator's shape. *)
Definition tailOf (g : string) : string :=
  match ShapeFacts.shapeOf g with
  | Some (_, _, _, r) => r
  | None => EmptyString
  end.

Lemma shaped_tail (g : string) :
  ShapeFacts.shaped g = true ->
  exists p m0 p1,
    g = (p ++ pb ++ m0) ++ String "."%char (p1 ++ String "."%char (tailOf g)) /\
    headPara p = true /\
    allChars notDot (p ++ pb ++ m0) = true /\ allChars notDot p1 = true /\
    allChars notDigit (((p ++ pb ++ m0) ++ dot ++ p1) ++ dot) = true.
Proof.
  unfold ShapeFacts.shaped, tailOf, ShapeFacts.shapeOf. intros H.
  destruct (ShapeFacts.uptoDot g) as [[p0 g1]|] eqn:E0; [|discriminate].
  destruct (ShapeFacts.uptoDot g1) as [[p1 r]|] eqn:E1; [|discriminate].
  destruct (ShapeFacts.uptoBreak p0) as [[p m0]|] eqn:Eb; [|discriminate].
  destruct (allChars notDigit p0 && allChars notDigit p1) eqn:Ed; [|discriminate].
  apply ShapeFacts.uptoDot_sound in E0. destruct E0 as [-> Hp0].
  apply ShapeFacts.uptoDot_sound in E1. destruct E1 as [-> Hp1].
  apply ShapeFacts.uptoBreak_sound in Eb. destruct Eb as [-> Hp].
  apply andb_true_iff in Ed. destruct Ed as [Hd0 Hd1].
  exists p, m0, p1. repeat split; try assumption.
  rewrite (allChars_app notDigit ((p ++ pb ++ m0) ++ dot ++ p1) dot),
          (allChars_app notDigit (p ++ pb ++ m0) (dot ++ p1)),
          (allChars_app notDigit dot p1), Hd0, Hd1.
  reflexivity.
Qed.

Lemma tail_is_a_piece (g : string) :
  ShapeFacts.shaped g = true -> forall t, occurs t (tailOf g) -> occurs t g.
Proof.
  intros Hshape t Ht.
  destruct (shaped_tail g Hshape) as [p [m0 [p1 [Hg _]]]]. rewrite Hg.
  apply (occurs_after ((p ++ pb ++ m0) ++ dot ++ p1 ++ dot) t (tailOf g)) in Ht.
  unfold dot in Ht. rewrite !Text.app_assoc in Ht. rewrite !Text.app_assoc. exact Ht.
Qed.

(** Both loops of the weaving insert before or between pieces of the tail. *)
Lemma weave_keeps_tail (g : string) (k : KeyInformation) :
  ShapeFacts.shaped g = true ->
  (forall x, In x (slice0 3 (statistics k)) -> statisticLike x) ->
  forall t, occurs t (tailOf g) -> occurs t (weaveInKeyInformation g k).
Proof.
  intros Hshape Hlike t Ht.
  destruct (shaped_tail g Hshape) as [p [m0 [p1 [Hg [Hp [Hd0 [Hd1 Hnd]]]]]]].
  rewrite Hg, weave_unfold.
  destruct (statistics_loop (p ++ pb ++ m0) p1 (slice0 3 (statistics k))
                            Hd0 Hd1 Hnd Hlike (tailOf g)) as [r' [-> [Hkeep _]]].
  assert (Hocc : occurs t (m0 ++ String "."%char (p1 ++ String "."%char r'))).
  { pose proof (occurs_after (m0 ++ dot ++ p1 ++ dot) t r' (Hkeep t Ht)) as H.
    unfold dot in H. rewrite !Text.app_assoc in H. exact H. }
  rewrite !Text.app_assoc.
  destruct (facts_loop p (slice0 2 (facts k)) Hp
                       (m0 ++ String "."%char (p1 ++ String "."%char r')))
    as [q' [-> Hkeep']].
  pose proof (occurs_after (p ++ pb) t q' (Hkeep' t Hocc)) as Hfinal.
  now rewrite Text.app_assoc in Hfinal.
Qed.

(** Every generated text has its disclaimer and at least three educational
    markers after its second full stop. *)
Lemma generated_tail_flags (kind : GeneratorFacts.Kind) (theme : string) :
  In theme GeneratorFacts.themes ->
  checkDisclaimers (tailOf (GeneratorFacts.generated kind theme)) = true /\
  checkEducationalFraming (tailOf (GeneratorFacts.generated kind theme)) = true.
Proof.
  intros [<-|[<-|[<-|[<-|[<-|[]]]]]]; destruct kind; split; vm_compute; reflexivity.
Qed.

(** What the complete redesign returns, when it returns. *)
Lemma complete_redesign_text (originalContent : string) (audit : ContentAudit)
      (request : RedesignRequest) (keyInfo : option KeyInformation) (text : string) :
  performCompleteRedesign originalContent audit request keyInfo = Some text ->
  exists kind,
    text = match keyInfo with
           | Some k => weaveInKeyInformation
                         (GeneratorFacts.generated kind (extractCoreTheme originalContent)) k
           | None => GeneratorFacts.generated kind (extractCoreTheme originalContent)
           end.
Proof.
  unfold performCompleteRedesign.
  match goal with
  | |- match ContentGenerator.generateContent ?r with _ => _ end = _ -> _ =>
      set (generation := r)
  end.
  pose proof (GenerationFacts.generation_fails generation) as Hfails.
  pose proof (GeneratorFacts.generateContent_returns generation) as Hreturns.
  destruct (ContentGenerator.generateContent generation) as [out|] eqn:Egen;
    [|discriminate].
  intros H. apply RedesignFacts.some_inj in H. subst text.
  destruct (isInherited (ContentGenerator.content_type generation)) eqn:Ect.
  { specialize (Hfails (or_introl eq_refl)). discriminate Hfails. }
  destruct (isInherited (orElse (ContentGenerator.target_audience generation)
                                "security_seekers")) eqn:Eaud.
  { specialize (Hfails (or_intror eq_refl)). discriminate Hfails. }
  destruct (Hreturns (RedesignFacts.coreTheme_listed originalContent) eq_refl eq_refl)
    as [kind [out' [Hsome Hcontent]]].
  apply RedesignFacts.some_inj in Hsome. subst out'.
  exists kind. rewrite Hcontent. reflexivity.
Qed.

Lemma complete_redesign_flags (originalContent : string) (audit : ContentAudit)
      (request : RedesignRequest) (keyInfo : option KeyInformation) (text : string) :
  (forall k, keyInfo = Some k ->
             forall x, In x (slice0 3 (statistics k)) -> statisticLike x) ->
  performCompleteRedesign originalContent audit request keyInfo = Some text ->
  checkDisclaimers text = true /\ checkEducationalFraming text = true.
Proof.
  intros Hlike Htext.
  destruct (complete_redesign_text _ _ _ _ _ Htext) as [kind ->].
  set (g := GeneratorFacts.generated kind (extractCoreTheme originalContent)).
  assert (Hshape : ShapeFacts.shaped g = true)
    by apply GeneratorFacts.generated_is_shaped, RedesignFacts.coreTheme_listed.
  destruct (generated_tail_flags kind (extractCoreTheme originalContent)
              (RedesignFacts.coreTheme_listed originalContent)) as [Hd He].
  fold g in Hd, He.
  assert (Hpieces : forall t, occurs t (tailOf g) ->
            occurs t match keyInfo with
                     | Some k => weaveInKeyInformation g k
                     | None => g
                     end).
  { destruct keyInfo as [k|].
    - apply weave_keeps_tail; [exact Hshape|apply (Hlike k eq_refl)].
    - apply tail_is_a_piece, Hshape. }
  pose proof (flags_follow_markers (tailOf g) _
                (fun m _ => markers_follow_pieces _ _ Hpieces m)) as [Hfd [_ Hfe]].
  split; [apply Hfd, Hd|apply Hfe, He].
Qed.

(** *** The light redesign *)

Lemma light_redesign_has_disclaimer (originalContent : string) (audit : ContentAudit)
      (keyInfo : option KeyInformation) :
  disclaimers_present (complianceAnalysis (detailed_analysis audit)) = false ->
  checkDisclaimers (performLightRedesign originalContent audit keyInfo) = true.
Proof.
  intros Habsent.
  apply (GenerationFacts.consult_is_a_disclaimer
           (performLightRedesign originalContent audit keyInfo)).
  apply (Text.includes_lower _ "consult").
  unfold performLightRedesign, lightSubstitutions. rewrite Habsent. cbn [negb].
  apply cleanUp_keeps_marker; [reflexivity|reflexivity|].
  apply MarkerFacts.includes_tail, disclaimer_names_consultation.
Qed.

(** With no aggressive term and no pressure tactic to rewrite, the light
    redesign is the original text, the disclaimer and the clean-up. *)
Lemma light_appends_disclaimer_only (originalContent : string) (audit : ContentAudit)
      (keyInfo : option KeyInformation) :
  disclaimers_present (complianceAnalysis (detailed_analysis audit)) = false ->
  aggressive_terms (salesTacticsAnalysis (detailed_analysis audit)) = [] ->
  pressure_tactics (salesTacticsAnalysis (detailed_analysis audit)) = [] ->
  performLightRedesign originalContent audit keyInfo =
  cleanUpWhitespace (originalContent ++ getAppropriateDisclaimer originalContent).
Proof.
  intros Habsent Hagg Hpress. unfold performLightRedesign, lightSubstitutions.
  rewrite Habsent, Hagg, Hpress. reflexivity.
Qed.

Lemma appended_text_keeps_flags (content added : string) :
  (checkDisclaimers content = true ->
   checkDisclaimers (cleanUpWhitespace (content ++ added)) = true) /\
  (checkRiskDisclosures content = true ->
   checkRiskDisclosures (cleanUpWhitespace (content ++ added)) = true) /\
  (checkEducationalFraming content = true ->
   checkEducationalFraming (cleanUpWhitespace (content ++ added)) = true).
Proof.
  apply flags_follow_markers. intros t Hin Ht.
  rewrite lower_cleanUp, MarkerFacts.toLowerCase_app.
  apply cleanUp_keeps_wordy; [apply compliance_markers_are_wordy, Hin|].
  apply (MarkerFacts.includes_embed EmptyString (toLowerCase content) (toLowerCase added) t Ht).
Qed.

(** *** The closing steps of the moderate redesign *)

(** [performModerateRedesign] from the text that its three rewriting passes
    (structure, brand voice, audience) return: the compliance pass, the
    weaving when key information is kept, and [content.trim()]. *)
Definition performModerateRedesign
    (rewritten : string -> ContentAudit -> RedesignRequest ->
                 option KeyInformation -> string)
    (originalContent : string) (audit : ContentAudit) (request : RedesignRequest)
    (keyInfo : option KeyInformation) : string :=
  let content := rewritten originalContent audit request keyInfo in
  let content := ensureCompliance content audit in
  let content := match keyInfo with
                 | Some k => weaveInKeyInformation content k
                 | None => content
                 end in
  trim content.

(** No character of [t] is [c]. *)
Definition without (c : ascii) (t : string) : bool :=
  allChars (fun x => negb (Ascii.eqb x c)) t.

Lemma without_middle (c : ascii) (a b : string) : without c (a ++ String c b) = false.
Proof.
  unfold without. rewrite allChars_app. cbn [allChars].
  rewrite Ascii.eqb_refl. cbn [negb andb]. apply andb_false_r.
Qed.

Lemma occurs_empty (s : string) : occurs EmptyString s.
Proof. now exists EmptyString, s. Qed.

Lemma occurs_before (t a b : string) : occurs t a -> occurs t (a ++ b).
Proof. intros [u [v ->]]. exists u, (v ++ b). now rewrite !Text.app_assoc. Qed.

Lemma app_empty (s : string) : s ++ EmptyString = s.
Proof. induction s as [|c s IH]; cbn; [reflexivity|now rewrite IH]. Qed.

(** A text without [c] that occurs in [a ++ c ++ b] occurs in [a] or in [b]. *)
Lemma occurs_across (c : ascii) (t a b : string) :
  without c t = true -> occurs t (a ++ String c b) -> occurs t a \/ occurs t b.
Proof.
  intros Hfree [u [v H]].
  destruct (Text.app_eq_app _ _ _ _ H) as [[w [Ha Htv]]|[w [Hu Hcb]]].
  - left.
    destruct (Text.app_eq_app _ _ _ _ Htv) as [[w' [Ht Hcb]]|[w' [Hw Hv]]].
    + destruct w' as [|d w'].
      * rewrite app_empty in Ht. subst t. exists u, EmptyString.
        now rewrite app_empty.
      * cbn in Hcb. injection Hcb as Hd _. subst d t.
        rewrite without_middle in Hfree. discriminate Hfree.
    + exists u, w'. now rewrite Ha, Hw.
  - destruct w as [|d w].
    + cbn in Hcb. destruct t as [|e t]; [left; apply occurs_empty|].
      cbn in Hcb. injection Hcb as He _. subst e.
      pose proof (without_middle c EmptyString t) as Hmid.
      change (without c (String c t) = false) in Hmid.
      rewrite Hmid in Hfree. discriminate Hfree.
    + right. cbn in Hcb. injection Hcb as _ Hb. now exists w, v.
Qed.

Lemma occurs_across_dot (t a b : string) :
  without "."%char t = true -> occurs t (a ++ "." ++ b) -> occurs t a \/ occurs t b.
Proof. apply occurs_across. Qed.

Lemma occurs_across_break (t a b : string) :
  without newline t = true -> occurs t (a ++ pb ++ b) -> occurs t a \/ occurs t b.
Proof.
  intros Hfree H.
  destruct (occurs_across newline t a (String newline b) Hfree H) as [Ha|Hb];
    [now left|].
  destruct (occurs_across newline t EmptyString b Hfree Hb) as [[u [v He]]|Hb'];
    [|now right].
  left. destruct u; [|discriminate He]. destruct t; [|discriminate He].
  apply occurs_empty.
Qed.

Section Joined.

Variables sep t : string.
Hypothesis across : forall a b, occurs t (a ++ sep ++ b) -> occurs t a \/ occurs t b.

Lemma occurs_in_piece (l : list string) :
  l <> [] -> occurs t (join sep l) -> exists piece, In piece l /\ occurs t piece.
Proof.
  induction l as [|x xs IH]; [congruence|]. intros _.
  destruct xs as [|y ys].
  - intros H. exists x. split; [now left|exact H].
  - rewrite join_cons by discriminate. intros H.
    destruct (across _ _ H) as [Hx|Hrest].
    + exists x. split; [now left|exact Hx].
    + destruct (IH ltac:(discriminate) Hrest) as [p [Hin Hp]].
      exists p. split; [now right|exact Hp].
Qed.

Lemma spliced_join_keeps (i : nat) (x : string) (l : list string) :
  l <> [] -> occurs t (join sep l) -> occurs t (join sep (spliceIn i x l)).
Proof.
  intros Hl H. destruct (occurs_in_piece l Hl H) as [p [Hin Hp]].
  assert (Hin' : In p (spliceIn i x l)).
  { unfold spliceIn. rewrite <- (firstn_skipn i l) in Hin.
    apply in_app_or in Hin. apply in_or_app.
    destruct Hin as [Hin|Hin]; [now left|right; now right]. }
  destruct (join_piece_occurs sep _ _ Hin') as [a [b ->]].
  apply occurs_after, occurs_before, Hp.
Qed.

End Joined.

Lemma insertStatistic_keeps (content stat t : string) :
  without "."%char t = true -> occurs t content ->
  occurs t (insertStatistic content stat).
Proof.
  intros Hfree H. unfold insertStatistic.
  destruct (2 <? List.length (splitChar "."%char content))%nat.
  - apply spliced_join_keeps.
    + intros a b. apply occurs_across_dot, Hfree.
    + apply splitChar_nonempty.
    + rewrite join_splitChar. exact H.
  - apply occurs_before, H.
Qed.

Lemma insertFact_keeps (content fact t : string) :
  without newline t = true -> occurs t content -> occurs t (insertFact content fact).
Proof.
  intros Hfree H. unfold insertFact.
  destruct (1 <? List.length (split paragraphBreak content))%nat.
  - apply (spliced_join_keeps pb).
    + intros a b. apply occurs_across_break, Hfree.
    + apply split_break_nonempty.
    + rewrite join_split_break. exact H.
  - apply occurs_before, H.
Qed.

Lemma loop_keeps (step : string -> string -> string) (t : string) :
  (forall enhanced x, occurs t enhanced -> occurs t (step enhanced x)) ->
  forall l enhanced, occurs t enhanced -> occurs t (fold_left step l enhanced).
Proof.
  intros Hstep. induction l as [|x l IH]; intros enhanced H; [exact H|].
  cbn [fold_left]. apply IH, Hstep, H.
Qed.

(** The weaving keeps, in any text, what holds no full stop and no line
    break. *)
Lemma weave_keeps_plain (content : string) (k : KeyInformation) (t : string) :
  without "."%char t = true -> without newline t = true ->
  occurs t content -> occurs t (weaveInKeyInformation content k).
Proof.
  intros Hdot Hbreak H. rewrite weave_unfold.
  apply loop_keeps.
  - intros enhanced x He. unfold weaveFact.
    destruct (negb (includes enhanced x)); [apply insertFact_keeps; assumption|exact He].
  - apply loop_keeps; [|exact H].
    intros enhanced x He. unfold weaveStatistic.
    destruct (negb (includes enhanced x));
      [apply insertStatistic_keeps; assumption|exact He].
Qed.

Lemma ensureCompliance_names_consultation (content : string) (audit : ContentAudit) :
  disclaimers_present (complianceAnalysis (detailed_analysis audit)) = false ->
  occurs "consult" (ensureCompliance content audit).
Proof.
  intros Habsent. unfold ensureCompliance. rewrite Habsent. cbn [negb].
  assert (H : occurs "consult" (content ++ getAppropriateDisclaimer content)).
  { apply occurs_after, Text.includes_occurs, disclaimer_names_consultation. }
  assert (Hrisk : occurs "consult"
                    (addRiskDisclosures (content ++ getAppropriateDisclaimer content))).
  { unfold addRiskDisclosures.
    destruct (negb _); [apply occurs_before, H|exact H]. }
  destruct (negb (risk_disclosures _)), (negb (educational_framing _));
    try assumption; unfold addEducationalFraming;
    match goal with
    | |- context [if ?b then _ else _] => destruct b
    end; try assumption; apply occurs_after; assumption.
Qed.

Lemma moderate_redesign_has_disclaimer
      (rewritten : string -> ContentAudit -> RedesignRequest ->
                   option KeyInformation -> string)
      (originalContent : string) (audit : ContentAudit) (request : RedesignRequest)
      (keyInfo : option KeyInformation) :
  disclaimers_present (complianceAnalysis (detailed_analysis audit)) = false ->
  checkDisclaimers
    (performModerateRedesign rewritten originalContent audit request keyInfo) = true.
Proof.
  intros Habsent.
  apply (GenerationFacts.consult_is_a_disclaimer
           (performModerateRedesign rewritten originalContent audit request keyInfo)).
  apply (Text.includes_lower _ "consult").
  unfold performModerateRedesign, trim. cbn zeta.
  apply trimEnd_keeps_wordy; [reflexivity|].
  apply trimStart_keeps_wordy; [reflexivity|].
  apply occurs_includes.
  pose proof (ensureCompliance_names_consultation
                (rewritten originalContent audit request keyInfo) audit Habsent) as H.
  destruct keyInfo as [k|]; [|exact H].
  apply weave_keeps_plain; [reflexivity|reflexivity|exact H].
Qed.

Lemma audit_compliance (content : string) (contentType : option string) :
  complianceAnalysis (detailed_analysis (auditContent content contentType)) =
  analyzeCompliance content.
Proof. reflexivity. Qed.

Lemma audit_sales (content : string) (contentType : option string) :
  salesTacticsAnalysis (detailed_analysis (auditContent content contentType)) =
  analyzeSalesTactics content.
Proof. reflexivity. Qed.

Lemma redesign_unfolded (performModerateRedesign :
                           string -> ContentAudit -> RedesignRequest ->
                           option KeyInformation -> string)
      (request : RedesignRequest) (result : RedesignResult) :
  redesignContent performModerateRedesign request = Some result ->
  exists keyInfo,
    (forall k, keyInfo = Some k -> k = extractKeyInformation (original_content request)) /\
    performRedesign performModerateRedesign (original_content request)
      (auditContent (original_content request) (content_type request)) request keyInfo =
      Some (redesigned_content result) /\
    original_audit result =
      auditContent (original_content request) (content_type request) /\
    redesigned_audit result =
      auditContent (redesigned_content result) (content_type request).
Proof.
  unfold redesignContent.
  match goal with
  | |- match performRedesign _ _ _ _ ?k with _ => _ end = _ -> _ => set (keyInfo := k)
  end.
  destruct (performRedesign performModerateRedesign (original_content request) _ request
                            keyInfo) as [revised|] eqn:Erun; [|discriminate].
  intros H. apply RedesignFacts.some_inj in H. rewrite <- H.
  exists keyInfo. cbn [redesigned_content original_audit redesigned_audit].
  split; [|split; [exact Erun|split; reflexivity]].
  intros k Hk. subst keyInfo.
  destruct (preserve_key_information request) as [[|]|]; congruence.
Qed.

(** C4 (as amended).  Of a redesign that returns, whatever its three
    rewriting passes made of the text at moderate intensity.  Whenever the
    audit of the original reports disclaimers absent, the audit of the
    revised text reports them present, at every intensity; its compliance
    score is then at least 75 and at most 20 below the original's, and it is
    lower exactly when the original had both risk disclosures and
    educational framing and the revised text has neither.  At light
    intensity, when the audit of the original found no aggressive term and
    no pressure tactic, both flags are kept and the score is strictly
    greater.  At complete intensity, disclaimers absent or not, the audit of
    the revised text reports disclaimers and educational framing, and its
    compliance score is 100, never below the original's. *)
Theorem redesign_compliance_by_intensity
        (rewritten : string -> ContentAudit -> RedesignRequest ->
                     option KeyInformation -> string)
        (request : RedesignRequest) (result : RedesignResult) :
  redesignContent (performModerateRedesign rewritten) request = Some result ->
  let o := complianceAnalysis (detailed_analysis (original_audit result)) in
  let r := complianceAnalysis (detailed_analysis (redesigned_audit result)) in
  let found := salesTacticsAnalysis (detailed_analysis (original_audit result)) in
  (redesign_intensity request = Some "complete" ->
     disclaimers_present r = true /\ educational_framing r = true /\
     cr_score r = 100 /\ cr_score o <= cr_score r) /\
  (disclaimers_present o = false ->
     disclaimers_present r = true /\
     75 <= cr_score r /\
     cr_score o - 20 <= cr_score r /\
     (cr_score r < cr_score o <->
        risk_disclosures o = true /\ educational_framing o = true /\
        risk_disclosures r = false /\ educational_framing r = false) /\
     (redesign_intensity request = Some "light" ->
      aggressive_terms found = [] -> pressure_tactics found = [] ->
        (risk_disclosures o = true -> risk_disclosures r = true) /\
        (educational_framing o = true -> educational_framing r = true) /\
        cr_score o < cr_score r)).
Proof.
  intros Hres.
  destruct (redesign_unfolded _ _ _ Hres) as [keyInfo [Hkey [Hrun [Ho Hr]]]].
  rewrite Ho, Hr, !audit_compliance, audit_sales. cbn zeta.
  set (original := original_content request) in *.
  set (revised := redesigned_content result) in *.
  set (audit := auditContent original (content_type request)) in *.
  pose proof (AuditFacts.compliance_score_of_flags original) as Hso.
  pose proof (AuditFacts.compliance_score_of_flags revised) as Hsr.
  cbn zeta in Hso, Hsr.
  assert (Hlike : forall k, keyInfo = Some k ->
            forall x, In x (slice0 3 (statistics k)) -> statisticLike x).
  { intros k Hk x Hx. rewrite (Hkey k Hk) in Hx.
    cbn [extractKeyInformation statistics] in Hx.
    apply (StatisticFacts.statistics_are_statisticLike original).
    apply (StatisticFacts.in_firstn 3 _ _ Hx). }
  split.
  - intros Hint.
    rewrite (RedesignFacts.complete_intensity_runs_complete
               (performModerateRedesign rewritten)) in Hrun by exact Hint.
    destruct (complete_redesign_flags _ _ _ _ _ Hlike Hrun) as [Hd He].
    assert (Hpd : disclaimers_present (analyzeCompliance revised) = true) by exact Hd.
    assert (Hpe : educational_framing (analyzeCompliance revised) = true) by exact He.
    rewrite Hso, Hsr, Hpd, Hpe.
    repeat split.
    + destruct (risk_disclosures (analyzeCompliance revised)); reflexivity.
    + destruct (risk_disclosures (analyzeCompliance revised)); cbn; lia.
  - intros Habsent.
    assert (Habsent' :
      disclaimers_present (complianceAnalysis (detailed_analysis audit)) = false)
      by exact Habsent.
    assert (Hpd : disclaimers_present (analyzeCompliance revised) = true).
    { change (checkDisclaimers revised = true).
      unfold performRedesign in Hrun.
      destruct (String.eqb _ "light").
      { apply RedesignFacts.some_inj in Hrun. rewrite <- Hrun.
        apply light_redesign_has_disclaimer, Habsent'. }
      destruct (String.eqb _ "moderate").
      { apply RedesignFacts.some_inj in Hrun. rewrite <- Hrun.
        apply moderate_redesign_has_disclaimer, Habsent'. }
      destruct (String.eqb _ "complete").
      { apply (complete_redesign_flags _ _ _ _ _ Hlike Hrun). }
      apply RedesignFacts.some_inj in Hrun. rewrite <- Hrun.
      apply moderate_redesign_has_disclaimer, Habsent'. }
    destruct (ComplianceFacts.compliance_with_new_disclaimer original revised Habsent Hpd)
      as [H75 [H20 Hiff]].
    split; [exact Hpd|]. split; [exact H75|]. split; [exact H20|]. split; [exact Hiff|].
    intros Hint Hagg Hpress.
    rewrite (RedesignFacts.light_intensity_runs_light
               (performModerateRedesign rewritten)) in Hrun by exact Hint.
    apply RedesignFacts.some_inj in Hrun.
    assert (Htext : revised =
              cleanUpWhitespace (original ++ getAppropriateDisclaimer original)).
    { rewrite <- Hrun. apply light_appends_disclaimer_only.
      - exact Habsent'.
      - exact Hagg.
      - exact Hpress. }
    destruct (appended_text_keeps_flags original (getAppropriateDisclaimer original))
      as [_ [Hrisk Hedu]].
    rewrite <- Htext in Hrisk, Hedu.
    assert (Hkr : risk_disclosures (analyzeCompliance original) = true ->
                  risk_disclosures (analyzeCompliance revised) = true) by exact Hrisk.
    assert (Hke : educational_framing (analyzeCompliance original) = true ->
                  educational_framing (analyzeCompliance revised) = true) by exact Hedu.
    split; [exact Hkr|]. split; [exact Hke|].
    rewrite Hso, Hsr, Habsent, Hpd.
    destruct (risk_disclosures (analyzeCompliance original)),
             (educational_framing (analyzeCompliance original)).
    + rewrite (Hkr eq_refl), (Hke eq_refl). cbn. lia.
    + rewrite (Hkr eq_refl).
      destruct (educational_framing (analyzeCompliance revised)); cbn; lia.
    + rewrite (Hke eq_refl).
      destruct (risk_disclosures (analyzeCompliance revised)); cbn; lia.
    + destruct (risk_disclosures (analyzeCompliance revised)),
               (educational_framing (analyzeCompliance revised)); cbn; lia.
Qed.

Definition plainInvitation : string :=
  "Learn about the risk of gold before you decide.".

Lemma redesign_compliance_by_intensity_witness :
  exists result,
    redesignContent (performModerateRedesign RedesignFacts.unreached)
      (RedesignFacts.requestFor plainInvitation "light") = Some result /\
    disclaimers_present
      (complianceAnalysis (detailed_analysis (original_audit result))) = false /\
    disclaimers_present
      (complianceAnalysis (detailed_analysis (redesigned_audit result))) = true /\
    cr_score (complianceAnalysis (detailed_analysis (original_audit result)))
    < cr_score (complianceAnalysis (detailed_analysis (redesigned_audit result))).
Proof.
  eexists. split; [reflexivity|]. split; [vm_compute; reflexivity|].
  pose proof (proj2 (redesign_compliance_by_intensity
                       RedesignFacts.unreached
                       (RedesignFacts.requestFor plainInvitation "light") _ eq_refl)
                    ltac:(vm_compute; reflexivity)) as H.
  split; [exact (proj1 H)|].
  apply (proj2 (proj2 (proj2 (proj2 H)))); vm_compute; reflexivity.
Defined.

End RedesignComplianceFacts.
